(** * Preference persistence, scroll-spy and reveal-on-intersect

    A shallow embedding of the stateful front-end code of the personal
    website: the theme and snow preferences kept in [localStorage]
    (SimpleNavigation.vue, HeroSection.vue, NavBar.vue, App.vue), the scroll-spy of
    SimpleNavigation.vue, and the intersection-observer reveal of the
    section components (AboutSection.vue, ContactSection.vue,
    TechIconGrid.vue, ProjectsSection.vue).

    JavaScript code is written in a state-and-exception monad over the
    component's reactive refs together with the part of the browser it
    touches.  Pixel coordinates are integers. *)

From Stdlib Require Import ZArith Lia Bool.
From stdpp Require Import base strings gmap list.

#[local] Open Scope string_scope.
#[local] Open Scope Z_scope.

(** ** JavaScript completions *)

Module Js.

Inductive Error := SecurityError | QuotaExceededError | ReferenceError.

(** A statement either completes normally or throws. *)
Inductive Completion (A : Type) := Normal (a : A) | Throw (e : Error).
Arguments Normal {A} a.
Arguments Throw {A} e.

(** Mutations made before a [throw] stay in the state. *)
Definition M (S A : Type) : Type := S -> Completion A * S.

Definition ret {S A} (a : A) : M S A := fun s => (Normal a, s).

Definition bind {S A B} (m : M S A) (f : A -> M S B) : M S B :=
  fun s =>
    match m s with
    | (Normal a, s') => f a s'
    | (Throw e, s') => (Throw e, s')
    end.

#[global] Instance M_ret {S} : MRet (M S) := fun A => @ret S A.
#[global] Instance M_bind {S} : MBind (M S) := fun A B f m => @bind S A B m f.

Definition throw {S A} (e : Error) : M S A := fun s => (Throw e, s).
Definition gets {S A} (f : S -> A) : M S A := fun s => (Normal (f s), s).
Definition modify {S} (f : S -> S) : M S unit := fun s => (Normal tt, f s).

(** [Array.prototype.forEach]: a throw ends the iteration. *)
Fixpoint forEach {S A} (l : list A) (f : A -> M S unit) : M S unit :=
  match l with
  | [] => ret tt
  | x :: rest => bind (f x) (fun _ => forEach rest f)
  end.

Definition throws {A} (c : Completion A) : bool :=
  match c with Normal _ => false | Throw _ => true end.

(** Truthiness of a [string | null]: [null] and the empty string are falsy. *)
Definition truthy (v : option string) : bool :=
  match v with
  | None => false
  | Some s => negb (String.eqb s "")
  end.

(** [v || d] *)
Definition or_else (v : option string) (d : string) : string :=
  match v with
  | Some s => if truthy v then s else d
  | None => d
  end.

(** [v === lit] for [v : string | null] *)
Definition strict_eq (v : option string) (lit : string) : bool :=
  match v with
  | Some s => String.eqb s lit
  | None => false
  end.

(** [Boolean.prototype.toString] *)
Definition toString (b : bool) : string := if b then "true" else "false".

End Js.
Import Js.

(** ** The browser as the components see it *)

Module Web.

(** [localStorage] works, rejects writes (quota exceeded), or rejects every
    access (storage disabled). *)
Inductive StorageMode := Available | QuotaExceeded | Disabled.

(** An element with an id: its top edge in document coordinates and its
    layout height. *)
Record Element := mkElement { docTop : Z; offsetHeight : Z }.

Record Browser := mkBrowser {
  scrollY : Z;
  elements : gmap string Element;
  dataTheme : option string;
  storageMode : StorageMode;
  storageItems : gmap string string;
  scrollRequests : list Z;
  scrollListeners : list string;
  headScripts : gset string;
  hasIntersectionObserver : bool
}.

Definition set_scrollY (y : Z) (b : Browser) : Browser :=
  mkBrowser y (elements b) (dataTheme b) (storageMode b) (storageItems b)
    (scrollRequests b) (scrollListeners b) (headScripts b) (hasIntersectionObserver b).
Definition set_dataTheme (v : option string) (b : Browser) : Browser :=
  mkBrowser (scrollY b) (elements b) v (storageMode b) (storageItems b)
    (scrollRequests b) (scrollListeners b) (headScripts b) (hasIntersectionObserver b).
Definition set_storageItems (m : gmap string string) (b : Browser) : Browser :=
  mkBrowser (scrollY b) (elements b) (dataTheme b) (storageMode b) m
    (scrollRequests b) (scrollListeners b) (headScripts b) (hasIntersectionObserver b).
Definition set_scrollRequests (l : list Z) (b : Browser) : Browser :=
  mkBrowser (scrollY b) (elements b) (dataTheme b) (storageMode b) (storageItems b)
    l (scrollListeners b) (headScripts b) (hasIntersectionObserver b).
Definition set_scrollListeners (l : list string) (b : Browser) : Browser :=
  mkBrowser (scrollY b) (elements b) (dataTheme b) (storageMode b) (storageItems b)
    (scrollRequests b) l (headScripts b) (hasIntersectionObserver b).
Definition set_headScripts (g : gset string) (b : Browser) : Browser :=
  mkBrowser (scrollY b) (elements b) (dataTheme b) (storageMode b) (storageItems b)
    (scrollRequests b) (scrollListeners b) g (hasIntersectionObserver b).

(** [localStorage.getItem(key)] *)
Definition localStorage_getItem (key : string) : M Browser (option string) :=
  fun b =>
    match storageMode b with
    | Disabled => (Throw SecurityError, b)
    | _ => (Normal (storageItems b !! key), b)
    end.

(** [localStorage.setItem(key, value)] *)
Definition localStorage_setItem (key value : string) : M Browser unit :=
  fun b =>
    match storageMode b with
    | Available => (Normal tt, set_storageItems (<[key := value]> (storageItems b)) b)
    | QuotaExceeded => (Throw QuotaExceededError, b)
    | Disabled => (Throw SecurityError, b)
    end.

(** [document.documentElement.setAttribute('data-theme', value)] *)
Definition setAttribute_dataTheme (value : string) : M Browser unit :=
  modify (set_dataTheme (Some value)).

(** [document.getElementById(id)] *)
Definition getElementById (id : string) : M Browser (option Element) :=
  gets (fun b => elements b !! id).

(** [element.getBoundingClientRect().top]: relative to the viewport. *)
Definition getBoundingClientRect_top (element : Element) : M Browser Z :=
  gets (fun b => docTop element - scrollY b).

(** [window.scrollTo({ top, behavior: 'smooth' })]: the request is recorded,
    the animation is the browser's. *)
Definition window_scrollTo (top : Z) : M Browser unit :=
  modify (fun b => set_scrollRequests (top :: scrollRequests b) b).

(** [window.addEventListener('scroll', h, ...)].  A listener is named after
    the function registered, and the name stands for the closure of the one
    mounted instance of the component: the window does not add the same
    function a second time.  Two instances of a component alive together
    would register two closures; the model has one instance of each. *)
Definition addEventListener_scroll (h : string) : M Browser unit :=
  modify (fun b =>
    if bool_decide (h ∈ scrollListeners b) then b
    else set_scrollListeners (scrollListeners b ++ [h]) b).

(** [window.removeEventListener('scroll', h)] *)
Definition removeEventListener_scroll (h : string) : M Browser unit :=
  modify (fun b =>
    set_scrollListeners (filter (fun x => x ≠ h) (scrollListeners b)) b).

(** [injectStructuredData(data, id)]: a script with that id is replaced. *)
Definition injectStructuredData (id : string) : M Browser unit :=
  modify (fun b => set_headScripts ({[ id ]} ∪ (headScripts b ∖ {[ id ]})) b).

(** [removeStructuredData(id)] *)
Definition removeStructuredData (id : string) : M Browser unit :=
  modify (fun b => set_headScripts (headScripts b ∖ {[ id ]}) b).

(** An entry the browser reports for an observed element.  The observer's
    threshold and root margin decide when the browser sets [isIntersecting];
    the components only read the flag. *)
Record IntersectionObserverEntry := mkEntry {
  target : string;
  isIntersecting : bool
}.

(** An observer object: the elements it observes. *)
Record IntersectionObserver := mkObserver { targets : list string }.

(** [new IntersectionObserver(callback, options)]: the global is undefined
    where the capability is missing. *)
Definition new_IntersectionObserver : M Browser IntersectionObserver :=
  fun b =>
    if hasIntersectionObserver b then (Normal (mkObserver []), b)
    else (Throw ReferenceError, b).

Definition observe (el : string) (o : IntersectionObserver) : IntersectionObserver :=
  if bool_decide (el ∈ targets o) then o else mkObserver (targets o ++ [el]).

Definition unobserve (el : string) (o : IntersectionObserver) : IntersectionObserver :=
  mkObserver (filter (fun x => x ≠ el) (targets o)).

Definition disconnect (o : IntersectionObserver) : IntersectionObserver :=
  mkObserver [].

(** The entries of a notification that reach an observer's callback. *)
Definition observedEntries (o : IntersectionObserver)
  (entries : list IntersectionObserverEntry) : list IntersectionObserverEntry :=
  filter (fun e => target e ∈ targets o) entries.

(** Component state that carries the browser it runs in. *)
Class Hosted (St : Type) := {
  window : St -> Browser;
  with_window : Browser -> St -> St
}.

Definition inBrowser {St} `{Hosted St} {A} (m : M Browser A) : M St A :=
  fun s => let '(r, b) := m (window s) in (r, with_window b s).

End Web.
Import Web.

(** ** SimpleNavigation.vue *)

Module SimpleNavigation.

Record State := mkState {
  win : Browser;
  activeSection : string;
  currentTheme : string
}.

#[global] Instance State_hosted : Hosted State := {|
  window := win;
  with_window b s := mkState b (activeSection s) (currentTheme s)
|}.

Definition set_activeSection (v : string) (s : State) : State :=
  mkState (win s) v (currentTheme s).
Definition set_currentTheme (v : string) (s : State) : State :=
  mkState (win s) (activeSection s) v.

(** The refs as the script's top level creates them. *)
Definition setup (b : Browser) : State := mkState b "hero" "light".

Definition toggleTheme : M State unit :=
  modify (fun s =>
    set_currentTheme (if String.eqb (currentTheme s) "light" then "dark" else "light") s);;
  t ← gets currentTheme;
  inBrowser (setAttribute_dataTheme t);;
  t ← gets currentTheme;
  inBrowser (localStorage_setItem "theme" t).

Record SectionDescriptor := mkSection { id : string; label : string }.

Definition sections : list SectionDescriptor :=
  [ mkSection "hero" "Home";
    mkSection "about" "About";
    mkSection "projects" "Projects";
    mkSection "contact" "Contact" ].

Definition navHeight : Z := 80.

Definition scrollToSection (sectionId : string) : M State unit :=
  element ← inBrowser (getElementById sectionId);
  match element with
  | None => mret tt
  | Some element =>
      rect_top ← inBrowser (getBoundingClientRect_top element);
      y ← inBrowser (gets scrollY);
      let absoluteElementTop := rect_top + y in
      let targetPosition := Z.max 0 (absoluteElementTop - navHeight) in
      inBrowser (window_scrollTo targetPosition);;
      modify (set_activeSection sectionId)
  end.

(** The [for ... of] loop of [updateActiveSection]: [continue] on a missing
    element, [break] at the first section that contains the position. *)
Fixpoint scanSections (secs : list SectionDescriptor) (scrollPosition : Z)
  : M State unit :=
  match secs with
  | [] => mret tt
  | section :: rest =>
      element ← inBrowser (getElementById (id section));
      match element with
      | None => scanSections rest scrollPosition
      | Some element =>
          rect_top ← inBrowser (getBoundingClientRect_top element);
          y ← inBrowser (gets scrollY);
          let top := rect_top + y in
          if (top <=? scrollPosition) && (scrollPosition <? top + offsetHeight element)
          then modify (set_activeSection (id section))
          else scanSections rest scrollPosition
      end
  end.

Definition updateActiveSection : M State unit :=
  y ← inBrowser (gets scrollY);
  let scrollPosition := y + 100 in
  scanSections sections scrollPosition.

Definition handleScroll : M State unit := updateActiveSection.

Definition onMounted : M State unit :=
  saved ← inBrowser (localStorage_getItem "theme");
  let savedTheme := or_else saved "light" in
  modify (set_currentTheme savedTheme);;
  inBrowser (setAttribute_dataTheme savedTheme);;
  inBrowser (addEventListener_scroll "handleScroll");;
  updateActiveSection.

Definition onUnmounted : M State unit :=
  inBrowser (removeEventListener_scroll "handleScroll").

(** The browser scrolls to [y] and dispatches a scroll event to the
    listeners registered on [window]. *)
Definition scrollEvent (y : Z) : M State unit :=
  inBrowser (modify (set_scrollY y));;
  listeners ← inBrowser (gets scrollListeners);
  if bool_decide ("handleScroll" ∈ listeners) then handleScroll else mret tt.

(** The test of the loop body in document coordinates: the element of [sec]
    exists and [position] lies in its extent, top included, bottom excluded. *)
Definition spans (b : Browser) (position : Z) (sec : SectionDescriptor) : bool :=
  match elements b !! id sec with
  | Some e => (docTop e <=? position) && (position <? docTop e + offsetHeight e)
  | None => false
  end.

(** Teardown runs the registered unmount hooks. *)
Definition unmountHooks : list (M State unit) := [onUnmounted].

Definition unmount : M State unit := forEach unmountHooks (fun h => h).

End SimpleNavigation.

(** ** NavBar.vue *)

Module NavBar.

Record State := mkState {
  win : Browser;
  currentTheme : string
}.

#[global] Instance State_hosted : Hosted State := {|
  window := win;
  with_window b s := mkState b (currentTheme s)
|}.

Definition set_currentTheme (v : string) (s : State) : State := mkState (win s) v.

Definition setup (b : Browser) : State := mkState b "light".

Definition themes : list string := ["light"; "dark"].

(** [Array.prototype.indexOf], counting from [i]. *)
Fixpoint indexOf_from (l : list string) (x : string) (i : Z) : Z :=
  match l with
  | [] => -1
  | y :: rest => if String.eqb y x then i else indexOf_from rest x (i + 1)
  end.

Definition indexOf (l : list string) (x : string) : Z := indexOf_from l x 0.

Definition applyTheme (theme : string) : M State unit :=
  inBrowser (setAttribute_dataTheme theme);;
  inBrowser (localStorage_setItem "theme" theme).

(** [themes[nextIndex]] is in range: [nextIndex] is 0 or 1. *)
Definition toggleTheme : M State unit :=
  cur ← gets currentTheme;
  let index := indexOf themes cur in
  let nextIndex := Z.rem (index + 1) (Z.of_nat (length themes)) in
  modify (set_currentTheme (default "undefined" (themes !! Z.to_nat nextIndex)));;
  t ← gets currentTheme;
  applyTheme t.

Definition onMounted : M State unit :=
  v ← inBrowser (localStorage_getItem "theme");
  let saved := or_else v "light" in
  modify (set_currentTheme saved);;
  t ← gets currentTheme;
  applyTheme t.

End NavBar.

(** ** App.vue: the snow preference *)

Module App.

Record State := mkState {
  win : Browser;
  showSnow : bool
}.

#[global] Instance State_hosted : Hosted State := {|
  window := win;
  with_window b s := mkState b (showSnow s)
|}.

Definition set_showSnow (v : bool) (s : State) : State := mkState (win s) v.

Definition setup (b : Browser) : State := mkState b true.

Definition applyShowSnow (value : bool) : M State unit :=
  inBrowser (localStorage_setItem "showSnow" (toString value)).

Definition toggleSnow : M State unit :=
  modify (fun s => set_showSnow (negb (showSnow s)) s);;
  v ← gets showSnow;
  applyShowSnow v.

(** The "Load snow preference" block of the mount hook. *)
Definition onMounted : M State unit :=
  saved ← inBrowser (localStorage_getItem "showSnow");
  modify (set_showSnow (if truthy saved then strict_eq saved "true" else true));;
  v ← gets showSnow;
  applyShowSnow v.

End App.

(** ** AboutSection.vue *)

Module AboutSection.

Record State := mkState {
  win : Browser;
  isVisible : bool;
  aboutRef : option string;
  observer : option IntersectionObserver
}.

#[global] Instance State_hosted : Hosted State := {|
  window := win;
  with_window b s := mkState b (isVisible s) (aboutRef s) (observer s)
|}.

Definition set_isVisible (v : bool) (s : State) : State :=
  mkState (win s) v (aboutRef s) (observer s).
Definition set_observer (o : option IntersectionObserver) (s : State) : State :=
  mkState (win s) (isVisible s) (aboutRef s) o.

(** [el] is the element the template ref is bound to when the hook runs. *)
Definition setup (b : Browser) (el : option string) : State := mkState b false el None.

(** The callback handed to the observer. *)
Definition callback (entries : list IntersectionObserverEntry) : M State unit :=
  forEach entries (fun entry =>
    if isIntersecting entry then modify (set_isVisible true) else mret tt).

Definition onMounted : M State unit :=
  r ← gets aboutRef;
  match r with
  | None => mret tt
  | Some el =>
      o ← inBrowser new_IntersectionObserver;
      modify (set_observer (Some (observe el o)))
  end.

(** The component registers no unmount hook. *)
Definition unmountHooks : list (M State unit) := [].

Definition unmount : M State unit := forEach unmountHooks (fun h => h).

(** The browser reports [entries]; the result tells whether the callback ran. *)
Definition intersection (entries : list IntersectionObserverEntry) : M State bool :=
  o ← gets observer;
  match o with
  | None => mret false
  | Some o =>
      match observedEntries o entries with
      | [] => mret false
      | delivered => callback delivered;; mret true
      end
  end.

End AboutSection.

(** ** ContactSection.vue *)

Module ContactSection.

Record State := mkState {
  win : Browser;
  emailCopied : bool;
  isVisible : bool;
  contactRef : option string;
  observer : option IntersectionObserver
}.

#[global] Instance State_hosted : Hosted State := {|
  window := win;
  with_window b s := mkState b (emailCopied s) (isVisible s) (contactRef s) (observer s)
|}.

Definition set_isVisible (v : bool) (s : State) : State :=
  mkState (win s) (emailCopied s) v (contactRef s) (observer s).
Definition set_observer (o : option IntersectionObserver) (s : State) : State :=
  mkState (win s) (emailCopied s) (isVisible s) (contactRef s) o.

Definition setup (b : Browser) (el : option string) : State :=
  mkState b false false el None.

Definition callback (entries : list IntersectionObserverEntry) : M State unit :=
  forEach entries (fun entry =>
    if isIntersecting entry then modify (set_isVisible true) else mret tt).

Definition onMounted : M State unit :=
  r ← gets contactRef;
  match r with
  | None => mret tt
  | Some el =>
      o ← inBrowser new_IntersectionObserver;
      modify (set_observer (Some (observe el o)))
  end.

Definition unmountHooks : list (M State unit) := [].

Definition unmount : M State unit := forEach unmountHooks (fun h => h).

Definition intersection (entries : list IntersectionObserverEntry) : M State bool :=
  o ← gets observer;
  match o with
  | None => mret false
  | Some o =>
      match observedEntries o entries with
      | [] => mret false
      | delivered => callback delivered;; mret true
      end
  end.

End ContactSection.

(** ** ProjectsSection.vue *)

Module ProjectsSection.

Record State := mkState {
  win : Browser;
  sectionVisible : bool;
  sectionRef : option string;
  observer : option IntersectionObserver
}.

#[global] Instance State_hosted : Hosted State := {|
  window := win;
  with_window b s := mkState b (sectionVisible s) (sectionRef s) (observer s)
|}.

Definition set_sectionVisible (v : bool) (s : State) : State :=
  mkState (win s) v (sectionRef s) (observer s).
Definition set_observer (o : option IntersectionObserver) (s : State) : State :=
  mkState (win s) (sectionVisible s) (sectionRef s) o.

Definition setup (b : Browser) (el : option string) : State := mkState b false el None.

(** The callback unsubscribes the entry's target once it intersects. *)
Definition callback (entries : list IntersectionObserverEntry) : M State unit :=
  forEach entries (fun entry =>
    if isIntersecting entry then
      modify (set_sectionVisible true);;
      modify (fun s => set_observer (unobserve (target entry) <$> observer s) s)
    else mret tt).

Definition onMounted : M State unit :=
  r ← gets sectionRef;
  match r with
  | Some el =>
      o ← inBrowser new_IntersectionObserver;
      modify (set_observer (Some (observe el o)))
  | None => mret tt
  end;;
  inBrowser (injectStructuredData "projects-schema").

Definition onUnmounted : M State unit :=
  inBrowser (removeStructuredData "projects-schema").

Definition unmountHooks : list (M State unit) := [onUnmounted].

Definition unmount : M State unit := forEach unmountHooks (fun h => h).

Definition intersection (entries : list IntersectionObserverEntry) : M State bool :=
  o ← gets observer;
  match o with
  | None => mret false
  | Some o =>
      match observedEntries o entries with
      | [] => mret false
      | delivered => callback delivered;; mret true
      end
  end.

End ProjectsSection.

(** ** LazyImage.vue, the lazily loaded image component *)

Module LazyImage.

Inductive Loading := lazy | eager.

(** [requested] counts the images [loadImage] has asked the network for. *)
Record State := mkState {
  win : Browser;
  loading : Loading;
  imageRef : option string;
  isIntersecting : bool;
  observer : option IntersectionObserver;
  requested : nat
}.

#[global] Instance State_hosted : Hosted State := {|
  window := win;
  with_window b s :=
    mkState b (loading s) (imageRef s) (isIntersecting s) (observer s) (requested s)
|}.

Definition set_isIntersecting (v : bool) (s : State) : State :=
  mkState (win s) (loading s) (imageRef s) v (observer s) (requested s).
Definition set_observer (o : option IntersectionObserver) (s : State) : State :=
  mkState (win s) (loading s) (imageRef s) (isIntersecting s) o (requested s).
Definition set_requested (n : nat) (s : State) : State :=
  mkState (win s) (loading s) (imageRef s) (isIntersecting s) (observer s) n.

(** The template binds [imageRef] on the main image only, which is rendered
    under [v-if="isIntersecting"]; [isIntersecting] starts false, so the ref
    is unbound when the mount hook runs. *)
Definition setup (b : Browser) (l : Loading) : State :=
  mkState b l None false None 0%nat.

Definition loadImage : M State unit :=
  v ← gets isIntersecting;
  if negb v then mret tt
  else modify (fun s => set_requested (S (requested s)) s).

Definition callback (entries : list IntersectionObserverEntry) : M State unit :=
  forEach entries (fun entry =>
    if Web.isIntersecting entry then
      modify (set_isIntersecting true);;
      loadImage;;
      modify (fun s => set_observer (unobserve (target entry) <$> observer s) s)
    else mret tt).

Definition onMounted : M State unit :=
  r ← gets imageRef;
  match r with
  | None => mret tt
  | Some el =>
      l ← gets loading;
      supported ← inBrowser (gets hasIntersectionObserver);
      if (match l with lazy => true | eager => false end) && supported then
        o ← inBrowser new_IntersectionObserver;
        modify (set_observer (Some (observe el o)))
      else
        modify (set_isIntersecting true);;
        loadImage
  end.

Definition onUnmounted : M State unit :=
  o ← gets observer;
  match o with
  | Some o => modify (set_observer (Some (disconnect o)))
  | None => mret tt
  end.

Definition intersection (entries : list IntersectionObserverEntry) : M State bool :=
  o ← gets observer;
  match o with
  | None => mret false
  | Some o =>
      match observedEntries o entries with
      | [] => mret false
      | delivered => callback delivered;; mret true
      end
  end.

End LazyImage.

(** ** Setting a preference

    The assignment to the ref followed by the apply call, as the toggle and
    the mount hook of NavBar.vue and App.vue both have it. *)

Module Setters.

(** [currentTheme.value = theme; applyTheme(currentTheme.value)] *)
Definition setTheme (theme : string) : M NavBar.State unit :=
  modify (NavBar.set_currentTheme theme);;
  t ← gets NavBar.currentTheme;
  NavBar.applyTheme t.

(** [showSnow.value = value; applyShowSnow(showSnow.value)] *)
Definition setShowSnow (value : bool) : M App.State unit :=
  modify (App.set_showSnow value);;
  v ← gets App.showSnow;
  App.applyShowSnow v.

End Setters.

(** ** HeroSection, the hero component of the page (unnamed/part_001) *)

Module HeroSection.

(** [revealTimer] is the delay of the timeout the mount hook starts, for as
    long as it is pending. *)
Record State := mkState {
  win : Browser;
  isVisible : bool;
  currentTheme : string;
  revealTimer : option Z
}.

#[global] Instance State_hosted : Hosted State := {|
  window := win;
  with_window b s := mkState b (isVisible s) (currentTheme s) (revealTimer s)
|}.

Definition set_isVisible (v : bool) (s : State) : State :=
  mkState (win s) v (currentTheme s) (revealTimer s).
Definition set_currentTheme (v : string) (s : State) : State :=
  mkState (win s) (isVisible s) v (revealTimer s).
Definition set_revealTimer (v : option Z) (s : State) : State :=
  mkState (win s) (isVisible s) (currentTheme s) v.

(** The refs as the script's top level creates them. *)
Definition setup (b : Browser) : State := mkState b false "light" None.

(** The component has a theme ref of its own, and a toggle that writes the
    same root attribute and the same storage key as SimpleNavigation's. *)
Definition toggleTheme : M State unit :=
  modify (fun s =>
    set_currentTheme (if String.eqb (currentTheme s) "light" then "dark" else "light") s);;
  t ← gets currentTheme;
  inBrowser (setAttribute_dataTheme t);;
  t ← gets currentTheme;
  inBrowser (localStorage_setItem "theme" t).

Definition navHeight : Z := 80.

Definition handleNavigate (sectionId : string) : M State unit :=
  element ← inBrowser (getElementById sectionId);
  match element with
  | None => mret tt
  | Some element =>
      rect_top ← inBrowser (getBoundingClientRect_top element);
      y ← inBrowser (gets scrollY);
      let absoluteElementTop := rect_top + y in
      let targetPosition := Z.max 0 (absoluteElementTop - navHeight) in
      inBrowser (window_scrollTo targetPosition)
  end.

(** What the component emits to its parent. *)
Inductive Emitted := toggleSnowEmitted.

(** [toggleSnow(event?)]: the event, when there is one, is stopped; the
    toggle itself is the parent's. *)
Definition toggleSnow : M State Emitted := mret toggleSnowEmitted.

Definition onMounted : M State unit :=
  saved ← inBrowser (localStorage_getItem "theme");
  let savedTheme := or_else saved "light" in
  modify (set_currentTheme savedTheme);;
  inBrowser (setAttribute_dataTheme savedTheme);;
  modify (set_revealTimer (Some 100)).

(** The timeout of the mount hook fires, if it is pending. *)
Definition timeout : M State unit :=
  t ← gets revealTimer;
  match t with
  | Some _ => modify (set_revealTimer None);; modify (set_isVisible true)
  | None => mret tt
  end.

End HeroSection.

(** ** The page: SimpleNavigation, HeroSection and App over one browser *)

Module Page.

(** The refs of the three components; the browser they share is held once,
    with the refs of SimpleNavigation. *)
Record State := mkState {
  nav : SimpleNavigation.State;
  heroVisible : bool;
  heroTheme : string;
  heroTimer : option Z;
  showSnow : bool
}.

Definition browser (p : State) : Browser := SimpleNavigation.win (nav p).
Definition currentTheme (p : State) : string := SimpleNavigation.currentTheme (nav p).
Definition activeSection (p : State) : string := SimpleNavigation.activeSection (nav p).

Definition hero (p : State) : HeroSection.State :=
  HeroSection.mkState (browser p) (heroVisible p) (heroTheme p) (heroTimer p).

Definition inNav {A} (m : M SimpleNavigation.State A) : M State A :=
  fun p =>
    let '(r, n) := m (nav p) in
    (r, mkState n (heroVisible p) (heroTheme p) (heroTimer p) (showSnow p)).

Definition inHero {A} (m : M HeroSection.State A) : M State A :=
  fun p =>
    let '(r, h) := m (hero p) in
    (r, mkState (with_window (HeroSection.win h) (nav p))
          (HeroSection.isVisible h) (HeroSection.currentTheme h)
          (HeroSection.revealTimer h) (showSnow p)).

Definition inApp {A} (m : M App.State A) : M State A :=
  fun p =>
    let '(r, a) := m (App.mkState (browser p) (showSnow p)) in
    (r, mkState (with_window (App.win a) (nav p))
          (heroVisible p) (heroTheme p) (heroTimer p) (App.showSnow a)).

Definition setup (b : Browser) : State :=
  mkState (SimpleNavigation.setup b)
    (HeroSection.isVisible (HeroSection.setup b))
    (HeroSection.currentTheme (HeroSection.setup b))
    (HeroSection.revealTimer (HeroSection.setup b))
    (App.showSnow (App.setup b)).

(** Child hooks run before the parent's, the children in template order. *)
Definition mount : M State unit :=
  inNav SimpleNavigation.onMounted;;
  inHero HeroSection.onMounted;;
  inApp App.onMounted.

(** What a reload keeps of the browser: the storage, the document and the
    capabilities. *)
Definition reloaded (b : Browser) : Browser :=
  mkBrowser 0 (elements b) None (storageMode b) (storageItems b) [] [] ∅
    (hasIntersectionObserver b).

(** What can happen to the mounted page: the buttons of SimpleNavigation and
    of HeroSection, an assignment of the snow flag, a scroll, the timeout of
    the hero, a reload. *)
Inductive Action :=
| ToggleTheme
| ToggleSnow
| ApplyShowSnow (v : bool)
| ScrollToSection (sectionId : string)
| Scroll (y : Z)
| Reload
| HeroToggleTheme
| HeroToggleSnow
| HeroNavigate (sectionId : string)
| HeroTimeout.

Definition perform (a : Action) : M State unit :=
  match a with
  | ToggleTheme => inNav SimpleNavigation.toggleTheme
  | ToggleSnow => inApp App.toggleSnow
  | ApplyShowSnow v => inApp (Setters.setShowSnow v)
  | ScrollToSection sectionId => inNav (SimpleNavigation.scrollToSection sectionId)
  | Scroll y => inNav (SimpleNavigation.scrollEvent y)
  | Reload => (fun p => (Normal tt, setup (reloaded (browser p))));; mount
  | HeroToggleTheme => inHero HeroSection.toggleTheme
  | HeroToggleSnow =>
      e ← inHero HeroSection.toggleSnow;
      match e with
      | HeroSection.toggleSnowEmitted => inApp App.toggleSnow
      end
  | HeroNavigate sectionId => inHero (HeroSection.handleNavigate sectionId)
  | HeroTimeout => inHero HeroSection.timeout
  end.

Definition session (actions : list Action) : M State unit :=
  mount;; forEach actions perform.

End Page.

(** ** The scroll-spy rule as the specification words it *)

Module ScrollSpySpec.

Import SimpleNavigation.

(** A section qualifies when its effective top, the top offset minus the
    navigation-bar height, is at most the scroll position plus the look-ahead. *)
Definition qualifies (lookAhead : Z) (b : Browser) (sec : SectionDescriptor) : bool :=
  match elements b !! id sec with
  | Some e => docTop e - navHeight <=? scrollY b + lookAhead
  | None => false
  end.

(** The last qualifying section in document order; the state holds when
    there is none. *)
Definition activeSection_rule (lookAhead : Z) (secs : list SectionDescriptor)
  (s : State) : string :=
  match last (filter (fun sec => qualifies lookAhead (win s) sec = true) secs) with
  | Some sec => id sec
  | None => activeSection s
  end.

End ScrollSpySpec.

(** ** Sample browsers *)

Module Samples.

(** Hero, about and projects stacked at 0, 1000 and 2000, each 1000 high;
    no contact element. *)
Definition threeSections : gmap string Element :=
  <["hero" := mkElement 0 1000]>
  (<["about" := mkElement 1000 1000]>
  (<["projects" := mkElement 2000 1000]> ∅)).

Definition page (y : Z) (items : gmap string string) (mode : StorageMode)
  (io : bool) : Browser :=
  mkBrowser y threeSections None mode items [] [] ∅ io.

Definition scrolledTo (y : Z) : SimpleNavigation.State :=
  SimpleNavigation.setup (page y ∅ Available true).

(** A short hero alone on the page. *)
Definition shortHero : SimpleNavigation.State :=
  SimpleNavigation.mkState
    (mkBrowser 0 (<["hero" := mkElement 0 50]> ∅) None Available ∅ [] [] ∅ true)
    "about" "light".

(** The same with a tall hero. *)
Definition tallHero : SimpleNavigation.State :=
  SimpleNavigation.mkState
    (mkBrowser 0 (<["hero" := mkElement 0 1000]> ∅) None Available ∅ [] [] ∅ true)
    "about" "light".

(** Browsers with and without the intersection-observer capability. *)
Definition supported : Browser := page 0 ∅ Available true.
Definition noObserver : Browser := page 0 ∅ Available false.

(** A notification with one intersecting entry for [el]. *)
Definition qualifying (el : string) : list IntersectionObserverEntry :=
  [mkEntry el true].

Definition aboutMounted : AboutSection.State :=
  snd (AboutSection.onMounted (AboutSection.setup supported (Some "about"))).

Definition contactMounted : ContactSection.State :=
  snd (ContactSection.onMounted (ContactSection.setup supported (Some "contact"))).

Definition projectsMounted : ProjectsSection.State :=
  snd (ProjectsSection.onMounted (ProjectsSection.setup supported (Some "projects"))).


Definition navMounted : SimpleNavigation.State :=
  snd (SimpleNavigation.onMounted (scrolledTo 0)).

End Samples.

(** ** seo.ts: meta tags and structured data *)

Module Seo.

(** The attribute a selector matches on: [meta[name="..."]] or
    [meta[property="..."]]. *)
Inductive MetaAttr := ByName | ByProperty.

(** A [meta] element: its [name] and [property] attributes, when present, and
    its content. *)
Record Meta := mkMeta {
  name : option string;
  property : option string;
  content : string
}.

(** The document head next to the browser: the title and the [meta]
    elements in document order. *)
Record State := mkState {
  win : Browser;
  title : string;
  metas : list Meta
}.

#[global] Instance State_hosted : Hosted State := {|
  window := win;
  with_window b s := mkState b (title s) (metas s)
|}.

Definition set_title (t : string) (s : State) : State := mkState (win s) t (metas s).
Definition set_metas (l : list Meta) (s : State) : State := mkState (win s) (title s) l.

(** The names the template literal of [updateMetaTag] carries into the
    selector unchanged: printable ASCII other than the double quote (code 34)
    and the backslash (code 92).  A quote would end the quoted value of the
    selector, a backslash would start an escape, a line break is not allowed
    inside it. *)
Definition selectorSafeChar (c : Ascii.ascii) : bool :=
  let k := Ascii.nat_of_ascii c in
  (32 <=? k)%nat && (k <=? 126)%nat && negb (k =? 34)%nat && negb (k =? 92)%nat.

Definition selectorSafe (n : string) : bool :=
  forallb selectorSafeChar (String.list_ascii_of_string n).

(** Whether the selector [meta[name="n"]] or [meta[property="n"]] matches the
    element: for a selector-safe [n], the elements whose attribute equals
    [n].  Every name the repository passes is a literal of that kind; other
    names are outside what this definition describes. *)
Definition selects (a : MetaAttr) (n : string) (m : Meta) : bool :=
  match a with
  | ByName => match name m with Some x => String.eqb x n | None => false end
  | ByProperty => match property m with Some x => String.eqb x n | None => false end
  end.

(** [document.querySelector(selector)]: the position of the first match. *)
Fixpoint querySelector_from (a : MetaAttr) (n : string) (l : list Meta) (i : nat)
  : option nat :=
  match l with
  | [] => None
  | m :: rest => if selects a n m then Some i else querySelector_from a n rest (S i)
  end.

Definition querySelector (a : MetaAttr) (n : string) (l : list Meta) : option nat :=
  querySelector_from a n l 0.

(** [document.createElement('meta')] with the one attribute set. *)
Definition createMeta (a : MetaAttr) (n : string) : Meta :=
  match a with
  | ByName => mkMeta (Some n) None ""
  | ByProperty => mkMeta None (Some n) ""
  end.

Definition setContent (c : string) (m : Meta) : Meta := mkMeta (name m) (property m) c.

Definition updateMetaTag (n c : string) (isProperty : bool) : M State unit :=
  let a := if isProperty then ByProperty else ByName in
  found ← gets (fun s => querySelector a n (metas s));
  i ← match found with
      | Some i => mret i
      | None =>
          ms ← gets metas;
          modify (set_metas (ms ++ [createMeta a n]));;
          mret (length ms)
      end;
  modify (fun s => set_metas (alter (setContent c) i (metas s)) s).

Definition updatePageTitle (t : string) : M State unit :=
  modify (set_title t);;
  updateMetaTag "title" t false;;
  updateMetaTag "og:title" t true;;
  updateMetaTag "twitter:title" t true.

Definition updatePageDescription (description : string) : M State unit :=
  updateMetaTag "description" description false;;
  updateMetaTag "og:description" description true;;
  updateMetaTag "twitter:description" description true.

Definition setupMainPageSEO : M State unit :=
  inBrowser (injectStructuredData "person-schema");;
  inBrowser (injectStructuredData "website-schema");;
  updatePageTitle "Jeffrey Chen - Software Engineer & Creative Problem Solver";;
  updatePageDescription
    "Software Engineer building meaningful digital experiences with modern web technologies. Specializing in Vue.js, TypeScript, and full-stack development.";;
  updateMetaTag "keywords"
    "Jeffrey Chen, Software Engineer, Frontend Developer, Vue.js, TypeScript, Web Development, Portfolio, Full Stack Developer"
    false;;
  updateMetaTag "author" "Jeffrey Chen" false;;
  updateMetaTag "og:url" "https://jeffreychen.work" true;;
  updateMetaTag "twitter:url" "https://jeffreychen.work" true.

Definition cleanupSEO : M State unit :=
  inBrowser (removeStructuredData "person-schema");;
  inBrowser (removeStructuredData "website-schema");;
  inBrowser (removeStructuredData "projects-schema").

End Seo.

(** ** App.vue: the meta tags of the mount hook *)

Module AppHead.

Import Seo.

Definition viewportContent : string :=
  "width=device-width, initial-scale=1.0, maximum-scale=5.0, user-scalable=yes, viewport-fit=cover".

(** The viewport tag is rewritten when there is one. *)
Definition refreshViewport : M State unit :=
  viewport ← gets (fun s => querySelector ByName "viewport" (metas s));
  match viewport with
  | Some i => modify (fun s => set_metas (alter (setContent viewportContent) i (metas s)) s)
  | None => mret tt
  end.

Definition metaTags : list (string * string) :=
  [ ("mobile-web-app-capable", "yes");
    ("apple-mobile-web-app-capable", "yes");
    ("apple-mobile-web-app-status-bar-style", "default");
    ("theme-color", "#75a6bb");
    ("msapplication-TileColor", "#75a6bb") ].

(** A tag is added only when no [meta] of that name exists. *)
Definition addMetaTag (tag : string * string) : M State unit :=
  existingTag ← gets (fun s => querySelector ByName (fst tag) (metas s));
  match existingTag with
  | None => modify (fun s => set_metas (metas s ++ [mkMeta (Some (fst tag)) None (snd tag)]) s)
  | Some _ => mret tt
  end.

Definition addMetaTags : M State unit := forEach metaTags addMetaTag.

End AppHead.

(** ** seo.ts: the schemas of the structured data *)

Module Schema.

Record OrganizationSchema := mkOrganization {
  org_type : string;
  org_name : string;
  org_url : option string
}.

Record PersonSchema := mkPerson {
  person_context : string;
  person_type : string;
  person_name : string;
  jobTitle : string;
  person_description : string;
  person_url : string;
  sameAs : list string;
  knowsAbout : list string;
  email : option string;
  image : option string;
  worksFor : list OrganizationSchema
}.

Record ProjectSchema := mkProjectSchema {
  schema_context : string;
  schema_type : string;
  schema_name : string;
  schema_description : string;
  schema_url : option string;
  codeRepository : option string;
  author : PersonSchema;
  programmingLanguage : list string;
  schema_dateCreated : option string;
  schema_dateModified : option string;
  keywords : list string
}.

(** The argument of [createProjectSchema]; a field left out is [None]. *)
Record ProjectData := mkProjectData {
  data_title : string;
  data_description : string;
  data_liveUrl : option string;
  data_githubUrl : option string;
  data_technologies : list string;
  data_dateCreated : option string;
  data_dateModified : option string
}.

(** types/project.ts *)
Record Project := mkProject {
  id : string;
  title : string;
  description : string;
  longDescription : option string;
  technologies : list string;
  liveUrl : option string;
  githubUrl : option string;
  project_image : option string;
  featured : option bool;
  dateCreated : option string
}.

Record ListItem := mkListItem {
  item_type : string;
  position : Z;
  item : ProjectSchema
}.

Record ItemList := mkItemList {
  list_context : string;
  list_type : string;
  list_name : string;
  list_description : string;
  numberOfItems : Z;
  itemListElement : list ListItem
}.

Definition createPersonSchema : PersonSchema :=
  mkPerson "https://schema.org" "Person" "Jeffrey Chen" "Software Engineer"
    "Software Engineer & Creative Problem Solver building meaningful digital experiences with modern web technologies"
    "https://jeffreychen.work"
    [ "https://github.com/jffrychn";
      "https://www.linkedin.com/in/jffrychn/";
      "https://jeffreychen.work" ]
    [ "Software Engineering"; "Frontend Development"; "Backend Development"; "Vue.js";
      "TypeScript"; "JavaScript"; "Python"; "Java"; "Web Development";
      "Full Stack Development"; "React"; "Node.js"; "Spring Boot"; "PostgreSQL";
      "MongoDB"; "AWS"; "Docker"; "Git" ]
    (Some "jeffrey@jeffreychen.work")
    (Some "https://jeffreychen.work/profile-image.jpg")
    [ mkOrganization "Organization" "Pupil" (Some "https://pupil.com") ].

(** [a || b] on two optional texts: the first when it is a non-empty text,
    else the second. *)
Definition or_option (a b : option string) : option string :=
  if truthy a then a else b.

Definition createProjectSchema (project : ProjectData) : ProjectSchema :=
  let person := createPersonSchema in
  mkProjectSchema "https://schema.org" "CreativeWork"
    (data_title project) (data_description project)
    (data_liveUrl project) (data_githubUrl project)
    person
    (data_technologies project)
    (data_dateCreated project)
    (or_option (data_dateModified project) (data_dateCreated project))
    (data_technologies project ++ ["Software Development"; "Web Development"]).

(** [projects.map((project, index) => ...)], counting from [index]. *)
Fixpoint listItems_from (projects : list ProjectData) (index : Z) : list ListItem :=
  match projects with
  | [] => []
  | project :: rest =>
      mkListItem "ListItem" (index + 1) (createProjectSchema project)
      :: listItems_from rest (index + 1)
  end.

Definition createProjectsListSchema (projects : list ProjectData) : ItemList :=
  mkItemList "https://schema.org" "ItemList"
    "Jeffrey Chen - Software Development Projects"
    "A curated collection of software development projects showcasing modern web technologies and creative problem-solving"
    (Z.of_nat (length projects))
    (listItems_from projects 0).

(** The projection the mount hook of ProjectsSection applies to each project
    before it builds the list. *)
Definition projectData (project : Project) : ProjectData :=
  mkProjectData (title project) (description project) (liveUrl project)
    (githubUrl project) (technologies project) (dateCreated project) None.

Definition projectsData (projects : list Project) : list ProjectData :=
  List.map projectData projects.

End Schema.

(** ** errorHandling.ts *)

Module ErrorHandling.

(** The application state next to the console: [consoleErrors] counts the
    calls of [console.error]. *)
Record Logged (S : Type) := mkLogged {
  consoleErrors : nat;
  app : S
}.
Arguments mkLogged {S} _ _.
Arguments consoleErrors {S} _.
Arguments app {S} _.

Definition console_error {S} : M (Logged S) unit :=
  modify (fun l => mkLogged (Datatypes.S (consoleErrors l)) (app l)).

(** A callback works on the application state. *)
Definition onApp {S A} (m : M S A) : M (Logged S) A :=
  fun l => let '(r, s) := m (app l) in (r, mkLogged (consoleErrors l) s).

(** [try { m } catch (e) { handler(e) }] *)
Definition tryCatch {S A} (m : M S A) (handler : Error -> M S A) : M S A :=
  fun s =>
    match m s with
    | (Normal a, s') => (Normal a, s')
    | (Throw e, s') => handler e s'
    end.

(** [handleError(error, errorInfo)], the registered callbacks already applied
    to the two arguments. *)
Definition handleError {S} (errorCallbacks : list (M S unit)) : M (Logged S) unit :=
  console_error;;
  forEach errorCallbacks (fun callback =>
    tryCatch (onApp callback) (fun callbackError => console_error)).

(** The fetch outcomes to come: a response with its status, or a rejection. *)
Inductive FetchOutcome := Responded (status : Z) | Failed.

Inductive FetchError := HttpError (status : Z) | NetworkError.

Inductive Result := Resolved (status : Z) | Rejected (e : FetchError).

(** [response.ok] *)
Definition ok (status : Z) : bool := (200 <=? status) && (status <=? 299).

(** The network: the outcomes of the fetches to come, the number of fetches
    made and the delays waited, newest first. *)
Record Net := mkNet {
  upcoming : list FetchOutcome;
  fetches : nat;
  delays : list Z
}.

Definition retryAttempts : Z := 3.
Definition retryDelay : Z := 1000.

(** [fetch(url, options)]: the next outcome; a network with nothing left to
    answer rejects. *)
Definition fetch (n : Net) : FetchOutcome * Net :=
  match upcoming n with
  | [] => (Failed, mkNet [] (S (fetches n)) (delays n))
  | o :: rest => (o, mkNet rest (S (fetches n)) (delays n))
  end.

Definition delay (ms : Z) (n : Net) : Net :=
  mkNet (upcoming n) (fetches n) (ms :: delays n).

(** What the [try] block throws for an outcome, if it throws. *)
Definition thrown (o : FetchOutcome) : option FetchError :=
  match o with
  | Responded status => if ok status then None else Some (HttpError status)
  | Failed => Some NetworkError
  end.

(** [fetchWithRetry(url, options, attempts)]; [None] when the fuel runs out. *)
Fixpoint fetchWithRetry_fuel (fuel : nat) (attempts : Z) (n : Net) : option (Result * Net) :=
  let '(o, n1) := fetch n in
  match o, thrown o with
  | Responded status, None => Some (Resolved status, n1)
  | _, Some error =>
      if attempts >? 1 then
        match fuel with
        | O => None
        | S fuel' => fetchWithRetry_fuel fuel' (attempts - 1) (delay retryDelay n1)
        end
      else Some (Rejected error, n1)
  | Failed, None => Some (Rejected NetworkError, n1)
  end.

Definition fetchWithRetry (attempts : Z) (n : Net) : option (Result * Net) :=
  fetchWithRetry_fuel (Z.to_nat attempts) attempts n.

End ErrorHandling.

(** ** Closed forms used in the statements *)

(** The next theme of SimpleNavigation's toggle. *)
Definition flipped (t : string) : string :=
  if String.eqb t "light" then "dark" else "light".

(** The state in which the mount hook of SimpleNavigation starts its first
    scan when the storage can be read. *)
Definition nav_loaded (s : SimpleNavigation.State) : SimpleNavigation.State :=
  let b := SimpleNavigation.win s in
  let savedTheme := or_else (storageItems b !! "theme") "light" in
  SimpleNavigation.mkState
    (snd (addEventListener_scroll "handleScroll" (set_dataTheme (Some savedTheme) b)))
    (SimpleNavigation.activeSection s) savedTheme.

(** The value the mount hook of App gives [showSnow] for a stored item. *)
Definition loadedSnow (saved : option string) : bool :=
  if truthy saved then strict_eq saved "true" else true.

(** The state the mount hook of HeroSection ends in when the storage can be
    read. *)
Definition hero_loaded (s : HeroSection.State) : HeroSection.State :=
  let b := HeroSection.win s in
  let savedTheme := or_else (storageItems b !! "theme") "light" in
  HeroSection.mkState (set_dataTheme (Some savedTheme) b) (HeroSection.isVisible s)
    savedTheme (Some 100).

(** The snow flag of App is the stored snow text, and the root attribute is
    the stored theme, or "light" when no theme or an empty one is stored. *)
Definition consistent (p : Page.State) : Prop :=
  storageItems (Page.browser p) !! "showSnow" = Some (toString (Page.showSnow p)) /\
  dataTheme (Page.browser p)
  = Some (or_else (storageItems (Page.browser p) !! "theme") "light").

Definition enumerated (t : string) : Prop := t = "light" \/ t = "dark".

(** The stored theme and the root attribute are the same enumerated value. *)
Definition written (p : Page.State) : Prop :=
  exists t, enumerated t /\
    storageItems (Page.browser p) !! "theme" = Some t /\
    dataTheme (Page.browser p) = Some t.

(** Stored themes whose load gives an enumerated value. *)
Definition loadable (saved : option string) : Prop :=
  truthy saved = false \/ saved = Some "light" \/ saved = Some "dark".

(** The components that hold a theme in memory. *)
Inductive ThemeHolder := InNavigation | InHero | InBoth.

(** The holder whose theme was set last: both at a load, the component whose
    toggle ran afterwards. *)
Definition holderAfter (w : ThemeHolder) (a : Page.Action) : ThemeHolder :=
  match a with
  | Page.ToggleTheme => InNavigation
  | Page.HeroToggleTheme => InHero
  | Page.Reload => InBoth
  | _ => w
  end.

Definition lastHolder (actions : list Page.Action) : ThemeHolder :=
  fold_left holderAfter actions InBoth.

(** The in-memory theme of the holder is the root attribute. *)
Definition current (w : ThemeHolder) (p : Page.State) : Prop :=
  match w with
  | InNavigation => dataTheme (Page.browser p) = Some (Page.currentTheme p)
  | InHero => dataTheme (Page.browser p) = Some (Page.heroTheme p)
  | InBoth =>
      dataTheme (Page.browser p) = Some (Page.currentTheme p) /\
      dataTheme (Page.browser p) = Some (Page.heroTheme p)
  end.

Definition themeToggle (a : Page.Action) : bool :=
  match a with
  | Page.ToggleTheme | Page.HeroToggleTheme => true
  | _ => false
  end.

(** Both in-memory themes are enumerated, and so is what a load would give. *)
Definition enumeratedThemes (p : Page.State) : Prop :=
  enumerated (Page.currentTheme p) /\ enumerated (Page.heroTheme p) /\
  loadable (storageItems (Page.browser p) !! "theme").

(** Scrolling touches neither the preferences nor the storage. *)
Definition same_preferences (b b' : Browser) : Prop :=
  storageItems b' = storageItems b /\ dataTheme b' = dataTheme b /\
  storageMode b' = storageMode b.

(** The active section names one of the sections of the navigation. *)
Definition listed (a : string) : Prop :=
  In a (List.map SimpleNavigation.id SimpleNavigation.sections).

(** Navigation clicks come from the buttons rendered for [sections]. *)
Definition fromButtons (a : Page.Action) : Prop :=
  match a with
  | Page.ScrollToSection sectionId => listed sectionId
  | _ => True
  end.

(** What a reader of a tag sees: [document.querySelector(selector).content]. *)
Definition tagContent (a : Seo.MetaAttr) (n : string) (ms : list Seo.Meta) : option string :=
  match Seo.querySelector a n ms with
  | Some i => Seo.content <$> ms !! i
  | None => None
  end.

(** The [meta] elements after [updateMetaTag]: the first match gets the
    content, or a new element is appended. *)
Fixpoint updated (a : Seo.MetaAttr) (n c : string) (ms : list Seo.Meta) : list Seo.Meta :=
  match ms with
  | [] => [Seo.setContent c (Seo.createMeta a n)]
  | m :: rest =>
      if Seo.selects a n m then Seo.setContent c m :: rest
      else m :: updated a n c rest
  end.

Fixpoint updatedAll (tags : list (Seo.MetaAttr * string * string)) (ms : list Seo.Meta)
  : list Seo.Meta :=
  match tags with
  | [] => ms
  | (a, n, c) :: rest => updatedAll rest (updated a n c ms)
  end.

(** No [meta] element carries both a [name] and a [property]. *)
Definition singleAttribute (ms : list Seo.Meta) : Prop :=
  Forall (fun m => Seo.name m = None \/ Seo.property m = None) ms.

(** The tags [setupMainPageSEO] writes, in its order. *)
Definition mainPageTags : list (Seo.MetaAttr * string * string) :=
  [ (Seo.ByName, "title", "Jeffrey Chen - Software Engineer & Creative Problem Solver");
    (Seo.ByProperty, "og:title", "Jeffrey Chen - Software Engineer & Creative Problem Solver");
    (Seo.ByProperty, "twitter:title",
     "Jeffrey Chen - Software Engineer & Creative Problem Solver");
    (Seo.ByName, "description",
     "Software Engineer building meaningful digital experiences with modern web technologies. Specializing in Vue.js, TypeScript, and full-stack development.");
    (Seo.ByProperty, "og:description",
     "Software Engineer building meaningful digital experiences with modern web technologies. Specializing in Vue.js, TypeScript, and full-stack development.");
    (Seo.ByProperty, "twitter:description",
     "Software Engineer building meaningful digital experiences with modern web technologies. Specializing in Vue.js, TypeScript, and full-stack development.");
    (Seo.ByName, "keywords",
     "Jeffrey Chen, Software Engineer, Frontend Developer, Vue.js, TypeScript, Web Development, Portfolio, Full Stack Developer");
    (Seo.ByName, "author", "Jeffrey Chen");
    (Seo.ByProperty, "og:url", "https://jeffreychen.work");
    (Seo.ByProperty, "twitter:url", "https://jeffreychen.work") ].

(** The [meta] elements after [addMetaTag]: a tag is appended when its name
    has no element yet. *)
Definition added (tag : string * string) (ms : list Seo.Meta) : list Seo.Meta :=
  match tagContent Seo.ByName (fst tag) ms with
  | Some _ => ms
  | None => (ms ++ [Seo.mkMeta (Some (fst tag)) None (snd tag)])%list
  end.

Fixpoint addedAll (tags : list (string * string)) (ms : list Seo.Meta) : list Seo.Meta :=
  match tags with
  | [] => ms
  | tag :: rest => addedAll rest (added tag ms)
  end.

(** The content the first tag of that name in [tags] would give. *)
Definition defaultContent (tags : list (string * string)) (n : string) : option string :=
  snd <$> List.find (fun tag => String.eqb (fst tag) n) tags.

(** A head with a viewport tag and a theme colour of its own. *)
Definition sampleHead : Seo.State :=
  Seo.mkState Samples.supported "Portfolio"
    [ Seo.mkMeta (Some "viewport") None "width=device-width";
      Seo.mkMeta (Some "theme-color") None "#000000";
      Seo.mkMeta None (Some "og:title") "Old title" ].

(** The callbacks that throw when run one after the other from [s]. *)
Fixpoint throwing {S} (callbacks : list (M S unit)) (s : S) : nat :=
  match callbacks with
  | [] => 0
  | callback :: rest =>
      ((if throws (fst (callback s)) then 1 else 0) + throwing rest (snd (callback s)))%nat
  end.

(** The state after the callbacks ran one after the other from [s], each to
    its end or to its throw. *)
Fixpoint afterAll {S} (callbacks : list (M S unit)) (s : S) : S :=
  match callbacks with
  | [] => s
  | callback :: rest => afterAll rest (snd (callback s))
  end.

(** An outcome the [try] block of [fetchWithRetry] throws on. *)
Definition failing (o : ErrorHandling.FetchOutcome) : Prop :=
  ErrorHandling.thrown o <> None.

(** Unfolds the monad so that a run is a term on states. *)
Ltac js_run :=
  unfold mbind, mret, M_bind, M_ret, bind, ret, gets, modify, throw, inBrowser;
  cbn [fst snd].

(** * Proofs *)

(** ** The scroll-spy *)

Section ScrollSpy.

Import SimpleNavigation.

(** The loop is a search for the first section that spans the position. *)
Lemma scanSections_find (secs : list SectionDescriptor) (p : Z) (s : State) :
  scanSections secs p s =
  (Normal tt,
   match List.find (spans (win s) p) secs with
   | Some sec => set_activeSection (id sec) s
   | None => s
   end).
Proof.
  destruct s as [b a t].
  induction secs as [|sec rest IH]; [reflexivity|].
  cbn [scanSections List.find]. unfold spans at 1.
  js_run. unfold getElementById, getBoundingClientRect_top, gets. simpl in *.
  destruct (elements b !! id sec) as [e|] eqn:He; [|exact IH].
  simpl.
  replace (docTop e - scrollY b + scrollY b) with (docTop e) by lia.
  destruct ((docTop e <=? p) && (p <? docTop e + offsetHeight e)); [reflexivity|].
  exact IH.
Qed.

Lemma updateActiveSection_find (s : State) :
  updateActiveSection s =
  (Normal tt,
   match List.find (spans (win s) (scrollY (win s) + 100)) sections with
   | Some sec => set_activeSection (id sec) s
   | None => s
   end).
Proof.
  unfold updateActiveSection. js_run. destruct s as [b a t].
  cbn [window State_hosted win with_window activeSection currentTheme].
  unfold gets. apply (scanSections_find sections (scrollY b + 100) (mkState b a t)).
Qed.

Lemma find_first {A} (f : A -> bool) (pre : list A) (x : A) (post : list A) :
  Forall (fun y => f y = false) pre -> f x = true ->
  List.find f (pre ++ x :: post)%list = Some x.
Proof.
  induction 1 as [|y pre Hy _ IH]; intros Hx; cbn.
  - now rewrite Hx.
  - rewrite Hy. now apply IH.
Qed.

Lemma find_none {A} (f : A -> bool) (l : list A) :
  Forall (fun y => f y = false) l -> List.find f l = None.
Proof.
  induction 1 as [|y l Hy _ IH]; cbn; [reflexivity|]. now rewrite Hy.
Qed.

End ScrollSpy.

Section ScrollSpyClaims.

Import SimpleNavigation.

(** C1, as amended.  [updateActiveSection] never throws and changes nothing
    but the active section.  With [position] the scroll position plus the
    look-ahead of 100, the active section becomes the first section of
    [sections] whose element exists and whose extent, from its top offset
    (included) to its top offset plus its height (excluded), contains
    [position]; the navigation-bar height plays no part.  When no section
    spans [position] the active section is unchanged.  With sections of height
    1000 at top offsets 0, 1000 and 2000 and scroll position 950, the active
    section is the second one. *)
Theorem updateActiveSection_first_spanning (s : State) :
  fst (updateActiveSection s) = Normal tt /\
  win (snd (updateActiveSection s)) = win s /\
  currentTheme (snd (updateActiveSection s)) = currentTheme s /\
  (forall pre sec post,
     sections = (pre ++ sec :: post)%list ->
     Forall (fun x => spans (win s) (scrollY (win s) + 100) x = false) pre ->
     spans (win s) (scrollY (win s) + 100) sec = true ->
     activeSection (snd (updateActiveSection s)) = id sec) /\
  (Forall (fun x => spans (win s) (scrollY (win s) + 100) x = false) sections ->
   activeSection (snd (updateActiveSection s)) = activeSection s) /\
  activeSection (snd (updateActiveSection (Samples.scrolledTo 950))) = "about".
Proof.
  rewrite updateActiveSection_find. cbn [fst snd].
  split; [reflexivity|].
  split; [now destruct (List.find _ sections)|].
  split; [now destruct (List.find _ sections)|].
  split; [|split].
  - intros pre sec post Hsplit Hpre Hsec.
    rewrite Hsplit, (find_first _ pre sec post Hpre Hsec). reflexivity.
  - intros Hnone. now rewrite (find_none _ _ Hnone).
  - vm_compute. reflexivity.
Qed.

Lemma updateActiveSection_first_spanning_witness :
  activeSection (snd (updateActiveSection (Samples.scrolledTo 950))) = "about" /\
  activeSection (snd (updateActiveSection (Samples.scrolledTo 3000))) = "hero".
Proof.
  split.
  - apply (proj1 (proj2 (proj2 (proj2
             (updateActiveSection_first_spanning (Samples.scrolledTo 950)))))
             [mkSection "hero" "Home"] (mkSection "about" "About")
             [mkSection "projects" "Projects"; mkSection "contact" "Contact"]).
    + reflexivity.
    + constructor; [vm_compute; reflexivity | constructor].
    + vm_compute; reflexivity.
  - apply (proj1 (proj2 (proj2 (proj2 (proj2
             (updateActiveSection_first_spanning (Samples.scrolledTo 3000))))))).
    repeat (constructor; [vm_compute; reflexivity|]). constructor.
Defined.

(** The rule of the specification does not look at heights. *)
Lemma activeSection_rule_shortHero_tallHero (L : Z) :
  ScrollSpySpec.activeSection_rule L sections Samples.shortHero =
  ScrollSpySpec.activeSection_rule L sections Samples.tallHero.
Proof.
  unfold ScrollSpySpec.activeSection_rule.
  assert (Hq : forall sec,
    ScrollSpySpec.qualifies L (win Samples.shortHero) sec =
    ScrollSpySpec.qualifies L (win Samples.tallHero) sec).
  { intros sec. unfold ScrollSpySpec.qualifies. cbn [win Samples.shortHero
      Samples.tallHero elements scrollY].
    destruct (decide (id sec = "hero")) as [->|Hne].
    - now rewrite !lookup_insert_eq.
    - rewrite !lookup_insert_ne by congruence. reflexivity. }
  unfold sections. rewrite !filter_cons, !filter_nil, !Hq. reflexivity.
Qed.

(** C1 fails as stated.  At scroll position 850 over sections of height 1000
    at 0, 1000 and 2000 the code keeps the first section active, while the
    last section whose top minus 80 is at most 850 + 100 is the second; and no
    look-ahead reconciles the two, since the code's answer depends on the
    height of a section and the stated rule does not. *)
Lemma updateActiveSection_not_last_qualifying :
  activeSection (snd (updateActiveSection (Samples.scrolledTo 850))) = "hero" /\
  ScrollSpySpec.activeSection_rule 100 sections (Samples.scrolledTo 850) = "about" /\
  ~ (exists L, forall s,
       activeSection (snd (updateActiveSection s)) =
       ScrollSpySpec.activeSection_rule L sections s).
Proof.
  split; [vm_compute; reflexivity|].
  split; [vm_compute; reflexivity|].
  intros [L H].
  pose proof (H Samples.shortHero) as Hshort.
  pose proof (H Samples.tallHero) as Htall.
  rewrite activeSection_rule_shortHero_tallHero, <- Htall in Hshort.
  vm_compute in Hshort. discriminate Hshort.
Qed.

Lemma find_filter_skip {A} (f : A -> bool) (P : A -> Prop)
  `{forall x, Decision (P x)} (l : list A) :
  (forall x, ~ P x -> f x = false) ->
  List.find f (filter P l) = List.find f l.
Proof.
  intros Hskip. induction l as [|x l IH]; [reflexivity|].
  rewrite filter_cons. destruct (decide (P x)) as [Hx|Hx]; cbn.
  - now rewrite IH.
  - now rewrite (Hskip x Hx).
Qed.

(** C7.  When no element has the id [sectionId], [scrollToSection sectionId]
    completes normally and leaves the whole state as it was: no scroll request
    is issued and the active section is unchanged.  The scan of
    [updateActiveSection] gives the same result with the sections of that id
    dropped from the list, and [updateActiveSection] completes normally. *)
Theorem scrollToSection_missing_noop (sectionId : string) (s : State) :
  elements (win s) !! sectionId = None ->
  scrollToSection sectionId s = (Normal tt, s) /\
  (forall secs p,
     scanSections secs p s =
     scanSections (filter (fun sec => id sec <> sectionId) secs) p s) /\
  fst (updateActiveSection s) = Normal tt.
Proof.
  intros Hmissing. split; [|split].
  - unfold scrollToSection. js_run. unfold getElementById, gets.
    destruct s as [b a t]. simpl in *. now rewrite Hmissing.
  - intros secs p. rewrite !scanSections_find.
    rewrite find_filter_skip; [reflexivity|].
    intros sec Hsec. apply dec_stable in Hsec. unfold spans.
    now rewrite Hsec, Hmissing.
  - now rewrite updateActiveSection_find.
Qed.

Lemma scrollToSection_missing_noop_witness :
  elements (win (Samples.scrolledTo 950)) !! "nonexistent" = None /\
  scrollToSection "nonexistent" (Samples.scrolledTo 950)
  = (Normal tt, Samples.scrolledTo 950).
Proof.
  split; [vm_compute; reflexivity|].
  apply (scrollToSection_missing_noop "nonexistent" (Samples.scrolledTo 950)).
  vm_compute; reflexivity.
Defined.

End ScrollSpyClaims.

(** ** The preferences *)

Section Preferences.

Lemma getItem_readable (key : string) (b : Browser) :
  storageMode b <> Disabled ->
  localStorage_getItem key b = (Normal (storageItems b !! key), b).
Proof. unfold localStorage_getItem. now destruct (storageMode b). Qed.

Lemma getItem_disabled (key : string) (b : Browser) :
  storageMode b = Disabled ->
  localStorage_getItem key b = (Throw SecurityError, b).
Proof. unfold localStorage_getItem. now intros ->. Qed.

Lemma setItem_available (key value : string) (b : Browser) :
  storageMode b = Available ->
  localStorage_setItem key value b =
  (Normal tt, set_storageItems (<[key := value]> (storageItems b)) b).
Proof. unfold localStorage_setItem. now intros ->. Qed.

Lemma setItem_unavailable (key value : string) (b : Browser) :
  storageMode b <> Available ->
  throws (fst (localStorage_setItem key value b)) = true /\
  snd (localStorage_setItem key value b) = b.
Proof. unfold localStorage_setItem. now destruct (storageMode b). Qed.

Lemma or_else_cases (v : option string) (d : string) :
  (truthy v = true /\ v = Some (or_else v d)) \/ (truthy v = false /\ or_else v d = d).
Proof.
  destruct v as [s|]; [|now right]. cbn.
  destruct (String.eqb s ""); cbn; [now right | now left].
Qed.

Lemma truthy_Some (s : string) : s <> "" -> truthy (Some s) = true.
Proof. intros Hs. cbn. now apply negb_true_iff, String.eqb_neq. Qed.

Lemma nav_toggleTheme_available (s : SimpleNavigation.State) :
  storageMode (SimpleNavigation.win s) = Available ->
  SimpleNavigation.toggleTheme s =
  (Normal tt,
   SimpleNavigation.mkState
     (set_storageItems
        (<["theme" := flipped (SimpleNavigation.currentTheme s)]>
           (storageItems (SimpleNavigation.win s)))
        (set_dataTheme (Some (flipped (SimpleNavigation.currentTheme s)))
           (SimpleNavigation.win s)))
     (SimpleNavigation.activeSection s)
     (flipped (SimpleNavigation.currentTheme s))).
Proof.
  intros Hmode. destruct s as [b a t]. cbn in Hmode.
  unfold SimpleNavigation.toggleTheme, setAttribute_dataTheme. js_run.
  cbn. rewrite setItem_available by exact Hmode. reflexivity.
Qed.

Lemma nav_toggleTheme_unavailable (s : SimpleNavigation.State) :
  storageMode (SimpleNavigation.win s) <> Available ->
  throws (fst (SimpleNavigation.toggleTheme s)) = true /\
  snd (SimpleNavigation.toggleTheme s) =
  SimpleNavigation.mkState
    (set_dataTheme (Some (flipped (SimpleNavigation.currentTheme s)))
       (SimpleNavigation.win s))
    (SimpleNavigation.activeSection s)
    (flipped (SimpleNavigation.currentTheme s)).
Proof.
  intros Hmode. destruct s as [b a t]. cbn in Hmode.
  unfold SimpleNavigation.toggleTheme, setAttribute_dataTheme. js_run. cbn.
  unfold localStorage_setItem. cbn.
  destruct (storageMode b); [contradiction| |]; now cbn.
Qed.

Lemma nav_onMounted_readable (s : SimpleNavigation.State) :
  storageMode (SimpleNavigation.win s) <> Disabled ->
  SimpleNavigation.onMounted s = SimpleNavigation.updateActiveSection (nav_loaded s).
Proof.
  intros Hmode. destruct s as [b a t]. cbn in Hmode.
  unfold SimpleNavigation.onMounted, setAttribute_dataTheme. js_run. cbn.
  rewrite getItem_readable by exact Hmode. reflexivity.
Qed.

Lemma nav_onMounted_disabled (s : SimpleNavigation.State) :
  storageMode (SimpleNavigation.win s) = Disabled ->
  SimpleNavigation.onMounted s = (Throw SecurityError, s).
Proof.
  intros Hmode. destruct s as [b a t]. cbn in Hmode.
  unfold SimpleNavigation.onMounted. js_run. cbn.
  rewrite getItem_disabled by exact Hmode. reflexivity.
Qed.

Lemma app_applyShowSnow_available (v : bool) (s : App.State) :
  storageMode (App.win s) = Available ->
  App.applyShowSnow v s =
  (Normal tt,
   App.mkState
     (set_storageItems (<["showSnow" := toString v]> (storageItems (App.win s))) (App.win s))
     (App.showSnow s)).
Proof.
  intros Hmode. destruct s as [b sn]. cbn in Hmode.
  unfold App.applyShowSnow. js_run. cbn.
  rewrite setItem_available by exact Hmode. reflexivity.
Qed.

Lemma app_applyShowSnow_unavailable (v : bool) (s : App.State) :
  storageMode (App.win s) <> Available ->
  throws (fst (App.applyShowSnow v s)) = true /\ snd (App.applyShowSnow v s) = s.
Proof.
  intros Hmode. destruct s as [b sn]. cbn in Hmode.
  unfold App.applyShowSnow. js_run. cbn. unfold localStorage_setItem.
  destruct (storageMode b); [contradiction| |]; now cbn.
Qed.

Lemma app_onMounted_readable (s : App.State) :
  storageMode (App.win s) <> Disabled ->
  App.onMounted s =
  App.applyShowSnow (loadedSnow (storageItems (App.win s) !! "showSnow"))
    (App.mkState (App.win s) (loadedSnow (storageItems (App.win s) !! "showSnow"))).
Proof.
  intros Hmode. destruct s as [b sn]. cbn in Hmode.
  unfold App.onMounted. js_run. cbn.
  rewrite getItem_readable by exact Hmode. reflexivity.
Qed.

Lemma app_onMounted_disabled (s : App.State) :
  storageMode (App.win s) = Disabled ->
  App.onMounted s = (Throw SecurityError, s).
Proof.
  intros Hmode. destruct s as [b sn]. cbn in Hmode.
  unfold App.onMounted. js_run. cbn.
  rewrite getItem_disabled by exact Hmode. reflexivity.
Qed.

End Preferences.

Section PageInvariant.

Lemma updateActiveSection_frame (s : SimpleNavigation.State) :
  exists a,
    SimpleNavigation.updateActiveSection s =
    (Normal tt,
     SimpleNavigation.mkState (SimpleNavigation.win s) a (SimpleNavigation.currentTheme s)).
Proof.
  rewrite updateActiveSection_find. destruct s as [b a t].
  destruct (List.find _ SimpleNavigation.sections) as [sec|]; eexists; reflexivity.
Qed.

Lemma hero_toggleTheme_available (s : HeroSection.State) :
  storageMode (HeroSection.win s) = Available ->
  HeroSection.toggleTheme s =
  (Normal tt,
   HeroSection.mkState
     (set_storageItems
        (<["theme" := flipped (HeroSection.currentTheme s)]>
           (storageItems (HeroSection.win s)))
        (set_dataTheme (Some (flipped (HeroSection.currentTheme s)))
           (HeroSection.win s)))
     (HeroSection.isVisible s)
     (flipped (HeroSection.currentTheme s))
     (HeroSection.revealTimer s)).
Proof.
  intros Hmode. destruct s as [b v t tm]. cbn in Hmode.
  unfold HeroSection.toggleTheme, setAttribute_dataTheme. js_run.
  cbn. rewrite setItem_available by exact Hmode. reflexivity.
Qed.

Lemma hero_onMounted_readable (s : HeroSection.State) :
  storageMode (HeroSection.win s) <> Disabled ->
  HeroSection.onMounted s = (Normal tt, hero_loaded s).
Proof.
  intros Hmode. destruct s as [b v t tm]. cbn in Hmode.
  unfold HeroSection.onMounted, setAttribute_dataTheme. js_run. cbn.
  rewrite getItem_readable by exact Hmode. reflexivity.
Qed.

Lemma hero_handleNavigate_frame (sectionId : string) (s : HeroSection.State) :
  exists b',
    HeroSection.handleNavigate sectionId s =
    (Normal tt,
     HeroSection.mkState b' (HeroSection.isVisible s) (HeroSection.currentTheme s)
       (HeroSection.revealTimer s)) /\
    same_preferences (HeroSection.win s) b'.
Proof.
  destruct s as [b v t tm]. unfold HeroSection.handleNavigate. js_run.
  unfold getElementById, gets. cbn.
  destruct (elements b !! sectionId) as [e|]; cbn;
    eexists; (split; [reflexivity|]); now unfold same_preferences.
Qed.

Lemma hero_timeout_frame (s : HeroSection.State) :
  exists v tm,
    HeroSection.timeout s =
    (Normal tt, HeroSection.mkState (HeroSection.win s) v (HeroSection.currentTheme s) tm).
Proof.
  destruct s as [b v t [d|]]; unfold HeroSection.timeout; js_run; cbn;
    eexists; eexists; reflexivity.
Qed.

(** The page after its mount hooks, storage available. *)
Lemma mount_available (b : Browser) :
  storageMode b = Available ->
  exists p,
    Page.mount (Page.setup b) = (Normal tt, p) /\
    storageMode (Page.browser p) = Available /\
    consistent p /\
    Page.currentTheme p = or_else (storageItems b !! "theme") "light" /\
    Page.heroTheme p = or_else (storageItems b !! "theme") "light" /\
    storageItems (Page.browser p) !! "theme" = storageItems b !! "theme" /\
    Page.showSnow p = loadedSnow (storageItems b !! "showSnow").
Proof.
  intros Hmode.
  unfold Page.mount, Page.setup. js_run. unfold Page.inNav at 1. cbn [Page.nav].
  rewrite nav_onMounted_readable by (cbn; congruence).
  destruct (updateActiveSection_frame (nav_loaded (SimpleNavigation.setup b)))
    as [a ->].
  unfold Page.inHero, Page.hero, Page.browser.
  cbn [Page.nav Page.heroVisible Page.heroTheme Page.heroTimer Page.showSnow
       SimpleNavigation.win].
  rewrite hero_onMounted_readable by (cbn; unfold addEventListener_scroll, modify; cbn;
    case_bool_decide; cbn; congruence).
  unfold Page.inApp, Page.browser.
  cbn [Page.nav Page.showSnow SimpleNavigation.win].
  rewrite app_onMounted_readable by (cbn; unfold addEventListener_scroll, modify; cbn;
    case_bool_decide; cbn; congruence).
  rewrite app_applyShowSnow_available by (cbn; unfold addEventListener_scroll, modify; cbn;
    case_bool_decide; cbn; congruence).
  eexists. split; [reflexivity|].
  unfold consistent, Page.browser, Page.currentTheme, Page.showSnow.
  cbn. unfold addEventListener_scroll, modify. cbn.
  case_bool_decide; cbn; rewrite ?lookup_insert_eq, ?lookup_insert_ne by discriminate;
    repeat split; try reflexivity; try assumption.
Qed.

Lemma scrollToSection_frame (sectionId : string) (s : SimpleNavigation.State) :
  exists b' a,
    SimpleNavigation.scrollToSection sectionId s =
    (Normal tt, SimpleNavigation.mkState b' a (SimpleNavigation.currentTheme s)) /\
    same_preferences (SimpleNavigation.win s) b'.
Proof.
  destruct s as [b a t]. unfold SimpleNavigation.scrollToSection. js_run.
  unfold getElementById, gets. cbn.
  destruct (elements b !! sectionId) as [e|]; cbn;
    eexists; eexists; (split; [reflexivity|]); now unfold same_preferences.
Qed.

Lemma scrollEvent_frame (y : Z) (s : SimpleNavigation.State) :
  exists b' a,
    SimpleNavigation.scrollEvent y s =
    (Normal tt, SimpleNavigation.mkState b' a (SimpleNavigation.currentTheme s)) /\
    same_preferences (SimpleNavigation.win s) b'.
Proof.
  destruct s as [b a t]. unfold SimpleNavigation.scrollEvent. js_run. cbn.
  case_bool_decide.
  - unfold SimpleNavigation.handleScroll.
    destruct (updateActiveSection_frame
                (SimpleNavigation.mkState (set_scrollY y b) a t)) as [a' Ha'].
    cbn in Ha'. rewrite Ha'. eexists; eexists; (split; [reflexivity|]).
    now unfold same_preferences.
  - eexists; eexists; (split; [reflexivity|]). now unfold same_preferences.
Qed.

Lemma app_toggleSnow_available (s : App.State) :
  storageMode (App.win s) = Available ->
  App.toggleSnow s =
  (Normal tt,
   App.mkState
     (set_storageItems
        (<["showSnow" := toString (negb (App.showSnow s))]> (storageItems (App.win s)))
        (App.win s))
     (negb (App.showSnow s))).
Proof.
  intros Hmode. destruct s as [b sn]. cbn in Hmode.
  unfold App.toggleSnow. js_run. cbn.
  rewrite app_applyShowSnow_available by exact Hmode. reflexivity.
Qed.

Lemma flipped_enumerated (t : string) : enumerated (flipped t).
Proof. unfold flipped, enumerated. destruct (String.eqb t "light"); auto. Qed.

Lemma enumerated_truthy (t : string) : enumerated t -> or_else (Some t) "light" = t.
Proof. now intros [-> | ->]. Qed.

Lemma enumerated_loadable (t : string) : enumerated t -> loadable (Some t).
Proof. unfold loadable. intros [-> | ->]; auto. Qed.

Lemma loadable_enumerated (saved : option string) :
  loadable saved -> enumerated (or_else saved "light").
Proof.
  intros [Hf | [-> | ->]]; [|now left|now right].
  destruct (or_else_cases saved "light") as [[Hy _]|[_ ->]]; [congruence | now left].
Qed.

(** A theme toggle of either component on a consistent page. *)
Lemma toggled_page (nav : SimpleNavigation.State) (b : Browser) (t : string)
  (hv : bool) (ht : string) (htm : option Z) (sn : bool) (a : string)
  (tn th : string) :
  consistent (Page.mkState nav hv ht htm sn) ->
  SimpleNavigation.win nav = b ->
  enumerated t ->
  let p' :=
    Page.mkState
      (SimpleNavigation.mkState
         (set_storageItems (<["theme" := t]> (storageItems b))
            (set_dataTheme (Some t) b)) a tn) hv th htm sn in
  consistent p' /\ written p'.
Proof.
  intros (Hsnow & _) <- Hen. cbn zeta.
  unfold consistent, written, Page.browser in *. cbn in *.
  rewrite ?lookup_insert_eq, ?lookup_insert_ne by discriminate.
  rewrite enumerated_truthy by exact Hen.
  split; [now split|]. exists t. auto.
Qed.

(** One action on a consistent page, storage available; [w] is the holder
    whose theme was set last. *)
Lemma perform_available (w : ThemeHolder) (a : Page.Action) (p : Page.State) :
  storageMode (Page.browser p) = Available ->
  consistent p ->
  current w p ->
  exists p',
    Page.perform a p = (Normal tt, p') /\
    storageMode (Page.browser p') = Available /\
    consistent p' /\
    current (holderAfter w a) p' /\
    (enumeratedThemes p -> enumeratedThemes p') /\
    (written p -> written p') /\
    (themeToggle a = true -> written p').
Proof.
  intros Hmode Hc Hw.
  destruct p as [[b act t] hv ht htm sn].
  unfold Page.browser in Hmode. cbn in Hmode.
  destruct a as [| |v|sectionId|y| | | |sectionId|]; unfold Page.perform.
  - unfold Page.inNav. cbn [Page.nav].
    rewrite nav_toggleTheme_available by exact Hmode.
    eexists. split; [reflexivity|].
    destruct (toggled_page (SimpleNavigation.mkState b act t) b (flipped t)
                hv ht htm sn act (flipped t) ht Hc eq_refl (flipped_enumerated t))
      as (Hc' & Hw').
    cbn in Hc', Hw'. cbn [SimpleNavigation.win SimpleNavigation.activeSection
                           SimpleNavigation.currentTheme].
    split; [exact Hmode|]. split; [exact Hc'|]. split; [reflexivity|].
    split; [|split; intros _; exact Hw'].
    unfold enumeratedThemes, Page.browser, Page.currentTheme. cbn.
    rewrite lookup_insert_eq. intros (_ & Hh & _).
    pose proof (flipped_enumerated t) as Hf.
    split; [exact Hf|]. split; [exact Hh|]. now apply enumerated_loadable.
  - unfold Page.inApp, Page.browser. cbn [Page.nav Page.showSnow SimpleNavigation.win].
    rewrite app_toggleSnow_available by exact Hmode.
    eexists. split; [reflexivity|].
    unfold consistent, written, enumeratedThemes, Page.browser, Page.currentTheme in *.
    destruct w; cbn in *;
      rewrite ?lookup_insert_eq, ?lookup_insert_ne by discriminate;
      intuition discriminate.
  - unfold Page.inApp, Page.browser. cbn [Page.nav Page.showSnow SimpleNavigation.win].
    unfold Setters.setShowSnow. js_run. cbn.
    rewrite app_applyShowSnow_available by exact Hmode.
    eexists. split; [reflexivity|].
    unfold consistent, written, enumeratedThemes, Page.browser, Page.currentTheme in *.
    destruct w; cbn in *;
      rewrite ?lookup_insert_eq, ?lookup_insert_ne by discriminate;
      intuition discriminate.
  - unfold Page.inNav. cbn [Page.nav].
    destruct (scrollToSection_frame sectionId (SimpleNavigation.mkState b act t))
      as (b' & a' & -> & Hi & Hd & Hm).
    cbn in Hi, Hd, Hm. eexists. split; [reflexivity|].
    unfold consistent, written, enumeratedThemes, Page.browser, Page.currentTheme in *.
    destruct w; cbn in *; rewrite Hi, Hd, Hm; intuition discriminate.
  - unfold Page.inNav. cbn [Page.nav].
    destruct (scrollEvent_frame y (SimpleNavigation.mkState b act t))
      as (b' & a' & -> & Hi & Hd & Hm).
    cbn in Hi, Hd, Hm. eexists. split; [reflexivity|].
    unfold consistent, written, enumeratedThemes, Page.browser, Page.currentTheme in *.
    destruct w; cbn in *; rewrite Hi, Hd, Hm; intuition discriminate.
  - js_run. cbn [Page.browser Page.nav SimpleNavigation.win].
    destruct (mount_available (Page.reloaded b))
      as (p' & -> & Hm' & Hc' & Ht' & Hh' & Hs' & _); [exact Hmode|].
    cbn in Ht', Hh', Hs'. exists p'. split; [reflexivity|].
    split; [exact Hm'|]. split; [exact Hc'|].
    pose proof Hc' as (_ & Hattr').
    cbn [holderAfter current].
    unfold written, enumeratedThemes, Page.browser, Page.currentTheme in *.
    rewrite Hs' in Hattr'. cbn in Hattr' |- *.
    rewrite Ht', Hh', Hs', Hattr'.
    split; [now split|]. split; [|split; [|discriminate]].
    + intros (_ & _ & Hl). pose proof (loadable_enumerated _ Hl). auto.
    + intros (t0 & Hen & Hst & _). exists t0. rewrite Hst.
      now rewrite enumerated_truthy.
  - unfold Page.inHero, Page.hero, Page.browser.
    cbn [Page.nav Page.heroVisible Page.heroTheme Page.heroTimer Page.showSnow
         SimpleNavigation.win].
    rewrite hero_toggleTheme_available by exact Hmode.
    eexists. split; [reflexivity|].
    destruct (toggled_page (SimpleNavigation.mkState b act t) b (flipped ht)
                hv ht htm sn act t (flipped ht) Hc eq_refl (flipped_enumerated ht))
      as (Hc' & Hw').
    cbn in Hc', Hw'. cbn.
    split; [exact Hmode|]. split; [exact Hc'|]. split; [reflexivity|].
    split; [|split; intros _; exact Hw'].
    unfold enumeratedThemes, Page.browser, Page.currentTheme. cbn.
    rewrite lookup_insert_eq. intros (Hn & _ & _).
    pose proof (flipped_enumerated ht) as Hf.
    split; [exact Hn|]. split; [exact Hf|]. now apply enumerated_loadable.
  - js_run. unfold Page.inHero at 1, HeroSection.toggleSnow. js_run. cbn [fst snd].
    unfold Page.inApp, Page.hero, Page.browser. cbn.
    rewrite app_toggleSnow_available by exact Hmode.
    eexists. split; [reflexivity|].
    unfold consistent, written, enumeratedThemes, Page.browser, Page.currentTheme in *.
    destruct w; cbn in *;
      rewrite ?lookup_insert_eq, ?lookup_insert_ne by discriminate;
      intuition discriminate.
  - unfold Page.inHero, Page.hero, Page.browser.
    cbn [Page.nav Page.heroVisible Page.heroTheme Page.heroTimer Page.showSnow
         SimpleNavigation.win].
    destruct (hero_handleNavigate_frame sectionId (HeroSection.mkState b hv ht htm))
      as (b' & -> & Hi & Hd & Hm).
    cbn in Hi, Hd, Hm. eexists. split; [reflexivity|].
    unfold consistent, written, enumeratedThemes, Page.browser, Page.currentTheme in *.
    destruct w; cbn in *; rewrite Hi, Hd, Hm; intuition discriminate.
  - unfold Page.inHero, Page.hero, Page.browser.
    cbn [Page.nav Page.heroVisible Page.heroTheme Page.heroTimer Page.showSnow
         SimpleNavigation.win].
    destruct (hero_timeout_frame (HeroSection.mkState b hv ht htm)) as (v' & tm' & ->).
    eexists. split; [reflexivity|].
    unfold consistent, written, enumeratedThemes, Page.browser, Page.currentTheme in *.
    destruct w; cbn in *; intuition discriminate.
Qed.

Lemma forEach_perform_available (w : ThemeHolder) (actions : list Page.Action)
  (p : Page.State) :
  storageMode (Page.browser p) = Available ->
  consistent p ->
  current w p ->
  exists p',
    forEach actions Page.perform p = (Normal tt, p') /\
    consistent p' /\
    current (fold_left holderAfter actions w) p' /\
    (enumeratedThemes p -> enumeratedThemes p') /\
    (written p \/ existsb themeToggle actions = true -> written p').
Proof.
  revert w p. induction actions as [|a actions IH]; intros w p Hmode Hc Hw.
  - exists p. cbn. intuition discriminate.
  - destruct (perform_available w a p Hmode Hc Hw)
      as (p1 & Hrun & Hm1 & Hc1 & Hw1 & He1 & Hwr1 & Ht1).
    destruct (IH (holderAfter w a) p1 Hm1 Hc1 Hw1) as (p' & Hrun' & Hc' & Hw' & He' & Hwr').
    exists p'. cbn [forEach fold_left existsb]. unfold bind. rewrite Hrun, Hrun'.
    split; [reflexivity|]. split; [exact Hc'|]. split; [exact Hw'|]. split; [tauto|].
    intros [Hwr | Hex]; apply Hwr'; [auto|].
    apply orb_true_iff in Hex as [Ha | Hex]; auto.
Qed.

End PageInvariant.

Section PreferenceClaims.

(** C2, as amended.  The page has two in-memory themes, the one of
    SimpleNavigation and the one of HeroSection, and each component's toggle
    flips its own.  With working storage, every session of the page (the
    mount hooks, then any sequence of theme toggles of either component,
    snow toggles, snow assignments, scrolls, navigation clicks, the hero's
    timeout and reloads) completes normally and ends in a state where the
    stored snow text is the in-memory snow flag (a boolean) printed, the root
    theme attribute is the stored theme, or "light" when no theme or the
    empty string is stored, and the root theme attribute equals the in-memory
    theme of the component whose theme was set last: of both after a load,
    of the component that toggled after a toggle.  Both in-memory themes are
    "light" or "dark" provided the theme stored before the first load was
    absent, empty, "light" or "dark"; any other stored string is loaded as it
    is.  Once a theme was toggled, or when "light" or "dark" was stored at
    the start, the stored theme and the root attribute are the same
    enumerated value. *)
Theorem session_preferences_consistent (b : Browser) (actions : list Page.Action) :
  storageMode b = Available ->
  fst (Page.session actions (Page.setup b)) = Normal tt /\
  consistent (snd (Page.session actions (Page.setup b))) /\
  current (lastHolder actions) (snd (Page.session actions (Page.setup b))) /\
  (loadable (storageItems b !! "theme") ->
   enumerated (Page.currentTheme (snd (Page.session actions (Page.setup b)))) /\
   enumerated (Page.heroTheme (snd (Page.session actions (Page.setup b))))) /\
  (storageItems b !! "theme" = Some "light" \/
   storageItems b !! "theme" = Some "dark" \/
   existsb themeToggle actions = true ->
   written (snd (Page.session actions (Page.setup b)))).
Proof.
  intros Hmode.
  destruct (mount_available b Hmode) as (p & Hmount & Hm & Hc & Ht & Hh & Hs & _).
  assert (Hboth : current InBoth p).
  { destruct Hc as (_ & Hattr). unfold current. rewrite Hattr, Hs, Ht, Hh. now split. }
  destruct (forEach_perform_available InBoth actions p Hm Hc Hboth)
    as (p' & Hrun & Hc' & Hw' & He' & Hwr').
  unfold Page.session. js_run. rewrite Hmount. fold (@forEach Page.State Page.Action).
  rewrite Hrun. cbn [fst snd].
  split; [reflexivity|]. split; [exact Hc'|]. split; [exact Hw'|]. split.
  - intros Hload.
    assert (Hen : enumeratedThemes p).
    { unfold enumeratedThemes. rewrite Ht, Hh, Hs.
      pose proof (loadable_enumerated _ Hload). auto. }
    destruct (He' Hen) as (Hn & Hhe & _). now split.
  - intros H. apply Hwr'.
    destruct Hc as (_ & Hattr). unfold written. rewrite Hattr, Hs.
    destruct H as [H | [H | H]]; [left | left | now right]; rewrite H;
      [exists "light" | exists "dark"]; unfold enumerated; auto.
Qed.

Lemma session_preferences_consistent_witness :
  storageMode (Samples.page 0 (<["theme" := "dark"]> ∅) Available true) = Available /\
  written (snd (Page.session [Page.HeroToggleTheme; Page.ToggleSnow; Page.Reload]
                  (Page.setup (Samples.page 0 (<["theme" := "dark"]> ∅) Available true)))).
Proof.
  split; [reflexivity|].
  refine (proj2 (proj2 (proj2 (proj2
    (session_preferences_consistent
       (Samples.page 0 (<["theme" := "dark"]> ∅) Available true)
       [Page.HeroToggleTheme; Page.ToggleSnow; Page.Reload] eq_refl)))) _).
  right. left. vm_compute. reflexivity.
Defined.

(** C2 fails as stated.  A stored theme of "blue" becomes the in-memory theme
    at load, which is neither "light" nor "dark"; a load with nothing stored
    leaves the in-memory theme "light" with no theme in storage; and after
    the theme toggle of HeroSection on a fresh page, the in-memory theme of
    SimpleNavigation is still "light" while the root attribute and the
    stored theme are "dark". *)
Lemma stored_theme_loaded_verbatim :
  Page.currentTheme
    (snd (Page.session []
            (Page.setup (Samples.page 0 (<["theme" := "blue"]> ∅) Available true))))
  = "blue" /\
  ~ enumerated
      (Page.currentTheme
         (snd (Page.session []
                 (Page.setup (Samples.page 0 (<["theme" := "blue"]> ∅) Available true))))) /\
  Page.currentTheme (snd (Page.session [] (Page.setup (Samples.page 0 ∅ Available true))))
  = "light" /\
  storageItems
    (Page.browser (snd (Page.session [] (Page.setup (Samples.page 0 ∅ Available true)))))
    !! "theme" = None /\
  Page.currentTheme
    (snd (Page.session [Page.HeroToggleTheme]
            (Page.setup (Samples.page 0 ∅ Available true)))) = "light" /\
  dataTheme
    (Page.browser
       (snd (Page.session [Page.HeroToggleTheme]
               (Page.setup (Samples.page 0 ∅ Available true))))) = Some "dark" /\
  storageItems
    (Page.browser
       (snd (Page.session [Page.HeroToggleTheme]
               (Page.setup (Samples.page 0 ∅ Available true)))))
    !! "theme" = Some "dark".
Proof.
  split; [vm_compute; reflexivity|]. split.
  - intros [H | H]; vm_compute in H; discriminate H.
  - split; [vm_compute; reflexivity|]. split; [vm_compute; reflexivity|].
    split; [vm_compute; reflexivity|]. split; vm_compute; reflexivity.
Qed.



Lemma app_applyShowSnow_showSnow (v : bool) (s : App.State) :
  App.showSnow (snd (App.applyShowSnow v s)) = App.showSnow s.
Proof.
  destruct s as [b sn]. unfold App.applyShowSnow, inBrowser, localStorage_setItem. cbn.
  now destruct (storageMode b).
Qed.

(** C10.  When the storage can be read, the mount hook of App leaves the snow
    flag true for a non-empty stored text exactly when that text is "true";
    with no stored text, or the empty one, the flag is true. *)
Theorem snow_load_exact_text (s : App.State) :
  storageMode (App.win s) <> Disabled ->
  (forall str,
     storageItems (App.win s) !! "showSnow" = Some str -> str <> "" ->
     (App.showSnow (snd (App.onMounted s)) = true <-> str = "true")) /\
  (storageItems (App.win s) !! "showSnow" = None \/
   storageItems (App.win s) !! "showSnow" = Some "" ->
   App.showSnow (snd (App.onMounted s)) = true).
Proof.
  intros Hmode. rewrite app_onMounted_readable by exact Hmode.
  rewrite app_applyShowSnow_showSnow. cbn [App.showSnow]. split.
  - intros str -> Hne. unfold loadedSnow. rewrite truthy_Some by exact Hne. cbn.
    apply String.eqb_eq.
  - now intros [-> | ->].
Qed.

Lemma snow_load_exact_text_witness :
  App.showSnow
    (snd (App.onMounted (App.setup (Samples.page 0 (<["showSnow" := "TRUE"]> ∅) Available true))))
  <> true /\
  App.showSnow
    (snd (App.onMounted (App.setup (Samples.page 0 (<["showSnow" := "1"]> ∅) Available true))))
  <> true /\
  App.showSnow (snd (App.onMounted (App.setup (Samples.page 0 ∅ Available true)))) = true.
Proof.
  split; [|split].
  - intros H.
    apply (proj1 (snow_load_exact_text
                    (App.setup (Samples.page 0 (<["showSnow" := "TRUE"]> ∅) Available true))
                    ltac:(discriminate))
             "TRUE" eq_refl ltac:(discriminate)) in H.
    discriminate H.
  - intros H.
    apply (proj1 (snow_load_exact_text
                    (App.setup (Samples.page 0 (<["showSnow" := "1"]> ∅) Available true))
                    ltac:(discriminate))
             "1" eq_refl ltac:(discriminate)) in H.
    discriminate H.
  - apply (proj2 (snow_load_exact_text (App.setup (Samples.page 0 ∅ Available true))
                    ltac:(discriminate))).
    left. reflexivity.
Defined.

End PreferenceClaims.

Section StorageFailures.

Lemma app_toggleSnow_unavailable (a : App.State) :
  storageMode (App.win a) <> Available ->
  throws (fst (App.toggleSnow a)) = true /\
  snd (App.toggleSnow a) = App.mkState (App.win a) (negb (App.showSnow a)).
Proof.
  intros Hmode. destruct a as [b sn]. cbn in Hmode.
  unfold App.toggleSnow, App.applyShowSnow. js_run. cbn.
  unfold localStorage_setItem.
  destruct (storageMode b); [contradiction| |]; now cbn.
Qed.

Lemma app_onMounted_unavailable (a : App.State) :
  storageMode (App.win a) <> Available ->
  throws (fst (App.onMounted a)) = true.
Proof.
  intros Hmode. destruct (storageMode (App.win a)) eqn:Hm; [contradiction| |].
  - rewrite app_onMounted_readable by congruence.
    apply app_applyShowSnow_unavailable. cbn. congruence.
  - now rewrite app_onMounted_disabled.
Qed.

Lemma nav_onMounted_normal (s : SimpleNavigation.State) :
  storageMode (SimpleNavigation.win s) <> Disabled ->
  fst (SimpleNavigation.onMounted s) = Normal tt.
Proof.
  intros Hmode. rewrite nav_onMounted_readable by exact Hmode.
  now destruct (updateActiveSection_frame (nav_loaded s)) as [a ->].
Qed.

(** C3, as amended.  No preference operation catches a storage exception.
    When [localStorage.setItem] throws, the exception leaves [toggleTheme],
    [applyShowSnow], [toggleSnow] and the mount hook of App; [toggleTheme] and
    [toggleSnow] have by then changed the in-memory value (and the root
    attribute), so no default is substituted.  When [localStorage.getItem]
    throws, the exception leaves the mount hook of SimpleNavigation with the
    state untouched.  With working storage none of the operations throws. *)
Theorem storage_exceptions_propagate
  (s : SimpleNavigation.State) (a : App.State) (v : bool) :
  (storageMode (SimpleNavigation.win s) <> Available ->
   throws (fst (SimpleNavigation.toggleTheme s)) = true /\
   SimpleNavigation.currentTheme (snd (SimpleNavigation.toggleTheme s))
   = flipped (SimpleNavigation.currentTheme s) /\
   dataTheme (SimpleNavigation.win (snd (SimpleNavigation.toggleTheme s)))
   = Some (flipped (SimpleNavigation.currentTheme s))) /\
  (storageMode (SimpleNavigation.win s) = Disabled ->
   SimpleNavigation.onMounted s = (Throw SecurityError, s)) /\
  (storageMode (App.win a) <> Available ->
   throws (fst (App.applyShowSnow v a)) = true /\
   throws (fst (App.toggleSnow a)) = true /\
   App.showSnow (snd (App.toggleSnow a)) = negb (App.showSnow a) /\
   throws (fst (App.onMounted a)) = true) /\
  (storageMode (SimpleNavigation.win s) = Available ->
   throws (fst (SimpleNavigation.toggleTheme s)) = false /\
   throws (fst (SimpleNavigation.onMounted s)) = false) /\
  (storageMode (App.win a) = Available ->
   throws (fst (App.applyShowSnow v a)) = false /\
   throws (fst (App.toggleSnow a)) = false /\
   throws (fst (App.onMounted a)) = false).
Proof.
  split; [|split; [|split; [|split]]].
  - intros Hmode. destruct (nav_toggleTheme_unavailable s Hmode) as [Ht ->]. auto.
  - apply nav_onMounted_disabled.
  - intros Hmode.
    destruct (app_applyShowSnow_unavailable v a Hmode) as [Ha _].
    destruct (app_toggleSnow_unavailable a Hmode) as [Ht ->].
    pose proof (app_onMounted_unavailable a Hmode). auto.
  - intros Hmode. rewrite nav_toggleTheme_available by exact Hmode.
    rewrite nav_onMounted_normal by congruence. auto.
  - intros Hmode. rewrite app_applyShowSnow_available by exact Hmode.
    rewrite app_toggleSnow_available by exact Hmode.
    rewrite app_onMounted_readable by congruence.
    rewrite app_applyShowSnow_available by exact Hmode. auto.
Qed.

Lemma storage_exceptions_propagate_witness :
  throws (fst (SimpleNavigation.toggleTheme
                 (SimpleNavigation.setup (Samples.page 0 ∅ QuotaExceeded true)))) = true /\
  SimpleNavigation.onMounted (SimpleNavigation.setup (Samples.page 0 ∅ Disabled true))
  = (Throw SecurityError, SimpleNavigation.setup (Samples.page 0 ∅ Disabled true)) /\
  throws (fst (App.onMounted (App.setup (Samples.page 0 ∅ QuotaExceeded true)))) = true /\
  throws (fst (SimpleNavigation.toggleTheme
                 (SimpleNavigation.setup (Samples.page 0 ∅ Available true)))) = false /\
  throws (fst (App.toggleSnow (App.setup (Samples.page 0 ∅ Available true)))) = false.
Proof.
  destruct (storage_exceptions_propagate
              (SimpleNavigation.setup (Samples.page 0 ∅ QuotaExceeded true))
              (App.setup (Samples.page 0 ∅ QuotaExceeded true)) true)
    as (Hquota & _ & Happ & _ & _).
  destruct (storage_exceptions_propagate
              (SimpleNavigation.setup (Samples.page 0 ∅ Disabled true))
              (App.setup (Samples.page 0 ∅ Disabled true)) true)
    as (_ & Hdisabled & _ & _ & _).
  destruct (storage_exceptions_propagate
              (SimpleNavigation.setup (Samples.page 0 ∅ Available true))
              (App.setup (Samples.page 0 ∅ Available true)) true)
    as (_ & _ & _ & Hnav & Hsnow).
  destruct (Hquota ltac:(discriminate)) as (Hq & _).
  destruct (Happ ltac:(discriminate)) as (_ & _ & _ & Ha).
  destruct (Hnav eq_refl) as (Hn & _).
  destruct (Hsnow eq_refl) as (_ & Hs & _).
  exact (conj Hq (conj (Hdisabled eq_refl) (conj Ha (conj Hn Hs)))).
Defined.

(** C3 fails as stated.  With the quota exceeded [toggleTheme] and
    [applyShowSnow] throw to their caller, and the theme is "dark" rather than
    the default; with storage disabled the mount hook of SimpleNavigation
    throws. *)
Lemma storage_exception_escapes :
  fst (SimpleNavigation.toggleTheme
         (SimpleNavigation.setup (Samples.page 0 ∅ QuotaExceeded true)))
  = Throw QuotaExceededError /\
  SimpleNavigation.currentTheme
    (snd (SimpleNavigation.toggleTheme
            (SimpleNavigation.setup (Samples.page 0 ∅ QuotaExceeded true))))
  = "dark" /\
  fst (App.applyShowSnow false (App.setup (Samples.page 0 ∅ QuotaExceeded true)))
  = Throw QuotaExceededError /\
  fst (SimpleNavigation.onMounted (SimpleNavigation.setup (Samples.page 0 ∅ Disabled true)))
  = Throw SecurityError /\
  fst (App.onMounted (App.setup (Samples.page 0 ∅ Disabled true)))
  = Throw SecurityError.
Proof.
  split; [vm_compute; reflexivity|].
  split; [vm_compute; reflexivity|].
  split; [vm_compute; reflexivity|].
  split; vm_compute; reflexivity.
Qed.

End StorageFailures.

Section Idempotence.

Lemma navbar_applyTheme_twice (theme : string) (n : NavBar.State) :
  (NavBar.applyTheme theme;; NavBar.applyTheme theme) n = NavBar.applyTheme theme n.
Proof.
  destruct n as [b t]. unfold NavBar.applyTheme, setAttribute_dataTheme. js_run. cbn.
  unfold localStorage_setItem. cbn.
  destruct (storageMode b) eqn:Hm; cbn; rewrite ?Hm; cbn; [|reflexivity..].
  unfold set_storageItems, set_dataTheme. cbn. now rewrite insert_insert_eq.
Qed.

Lemma app_applyShowSnow_twice (v : bool) (a : App.State) :
  (App.applyShowSnow v;; App.applyShowSnow v) a = App.applyShowSnow v a.
Proof.
  destruct a as [b sn]. unfold App.applyShowSnow. js_run. cbn.
  unfold localStorage_setItem.
  destruct (storageMode b) eqn:Hm; cbn; rewrite ?Hm; cbn; [|reflexivity..].
  unfold set_storageItems. cbn. now rewrite insert_insert_eq.
Qed.

(** C9.  Setting the theme (NavBar) or the snow flag (App) twice in a row
    gives the same completion and the same state (in-memory value, storage
    contents, root attribute) as setting it once, and so does the apply call
    alone.  After a set the in-memory value is the value set and the root
    attribute is the theme set; with working storage the set completes
    normally and the storage holds the value under its key. *)
Theorem set_preference_idempotent
  (theme : string) (v : bool) (n : NavBar.State) (a : App.State) :
  (Setters.setTheme theme;; Setters.setTheme theme) n = Setters.setTheme theme n /\
  (NavBar.applyTheme theme;; NavBar.applyTheme theme) n = NavBar.applyTheme theme n /\
  (Setters.setShowSnow v;; Setters.setShowSnow v) a = Setters.setShowSnow v a /\
  (App.applyShowSnow v;; App.applyShowSnow v) a = App.applyShowSnow v a /\
  NavBar.currentTheme (snd (Setters.setTheme theme n)) = theme /\
  dataTheme (NavBar.win (snd (Setters.setTheme theme n))) = Some theme /\
  App.showSnow (snd (Setters.setShowSnow v a)) = v /\
  (storageMode (NavBar.win n) = Available ->
   fst (Setters.setTheme theme n) = Normal tt /\
   storageItems (NavBar.win (snd (Setters.setTheme theme n))) !! "theme" = Some theme) /\
  (storageMode (App.win a) = Available ->
   fst (Setters.setShowSnow v a) = Normal tt /\
   storageItems (App.win (snd (Setters.setShowSnow v a))) !! "showSnow"
   = Some (toString v)).
Proof.
  split; [|split; [exact (navbar_applyTheme_twice theme n)
          |split; [|split; [exact (app_applyShowSnow_twice v a)|]]]].
  - destruct n as [b t].
    unfold Setters.setTheme, NavBar.applyTheme, setAttribute_dataTheme. js_run. cbn.
    unfold localStorage_setItem. cbn.
    destruct (storageMode b) eqn:Hm; cbn; rewrite ?Hm; cbn; [|reflexivity..].
    unfold set_storageItems, set_dataTheme. cbn. now rewrite insert_insert_eq.
  - destruct a as [b sn].
    unfold Setters.setShowSnow, App.applyShowSnow. js_run. cbn.
    unfold localStorage_setItem.
    destruct (storageMode b) eqn:Hm; cbn; rewrite ?Hm; cbn; [|reflexivity..].
    unfold set_storageItems. cbn. now rewrite insert_insert_eq.
  - destruct n as [b t], a as [b' sn].
    unfold Setters.setTheme, Setters.setShowSnow, NavBar.applyTheme, App.applyShowSnow,
      setAttribute_dataTheme. js_run. cbn.
    unfold localStorage_setItem. cbn.
    split; [now destruct (storageMode b)|].
    split; [now destruct (storageMode b)|].
    split; [now destruct (storageMode b')|].
    split; intros ->; cbn; now rewrite lookup_insert_eq.
Qed.

Lemma set_preference_idempotent_witness :
  storageItems
    (NavBar.win (snd (Setters.setTheme "dark" (NavBar.setup (Samples.page 0 ∅ Available true)))))
    !! "theme" = Some "dark" /\
  storageItems
    (App.win (snd (Setters.setShowSnow false (App.setup (Samples.page 0 ∅ Available true)))))
    !! "showSnow" = Some "false".
Proof.
  destruct (set_preference_idempotent "dark" false
              (NavBar.setup (Samples.page 0 ∅ Available true))
              (App.setup (Samples.page 0 ∅ Available true)))
    as (_ & _ & _ & _ & _ & _ & _ & Htheme & Hsnow).
  exact (conj (proj2 (Htheme eq_refl)) (proj2 (Hsnow eq_refl))).
Defined.

End Idempotence.

(** ** The reveal on intersection *)

Section Reveal.

Lemma about_callback_run (entries : list IntersectionObserverEntry) (s : AboutSection.State) :
  AboutSection.callback entries s =
  (Normal tt,
   if existsb isIntersecting entries then AboutSection.set_isVisible true s else s).
Proof.
  revert s. induction entries as [|e entries IH]; intros s; [reflexivity|].
  unfold AboutSection.callback in *. cbn [forEach existsb]. unfold bind.
  destruct (isIntersecting e); js_run; cbn [orb].
  - rewrite IH. destruct (existsb isIntersecting entries); reflexivity.
  - apply IH.
Qed.

(** AboutSection never lets go of an element: a notification leaves the
    observer as it was. *)
Lemma about_intersection_keeps_observer
  (entries : list IntersectionObserverEntry) (s : AboutSection.State) :
  AboutSection.observer (snd (AboutSection.intersection entries s)) = AboutSection.observer s.
Proof.
  unfold AboutSection.intersection. js_run.
  destruct (AboutSection.observer s) as [o|] eqn:Ho; [|exact Ho].
  destruct (observedEntries o entries) as [|e l]; [exact Ho|].
  rewrite about_callback_run.
  destruct (existsb isIntersecting (e :: l)); exact Ho.
Qed.

(** The reveal never goes back. *)
Lemma about_intersection_monotone
  (entries : list IntersectionObserverEntry) (s : AboutSection.State) :
  AboutSection.isVisible s = true ->
  AboutSection.isVisible (snd (AboutSection.intersection entries s)) = true.
Proof.
  intros Hv. unfold AboutSection.intersection. js_run.
  destruct (AboutSection.observer s) as [o|]; [|exact Hv].
  destruct (observedEntries o entries) as [|e l]; [exact Hv|].
  rewrite about_callback_run.
  destruct (existsb isIntersecting (e :: l)); [reflexivity | exact Hv].
Qed.

Lemma about_unmount_noop (s : AboutSection.State) :
  AboutSection.unmount s = (Normal tt, s).
Proof. reflexivity. Qed.

Lemma about_onMounted_unsupported (b : Browser) (el : string) :
  hasIntersectionObserver b = false ->
  AboutSection.onMounted (AboutSection.setup b (Some el)) =
  (Throw ReferenceError, AboutSection.setup b (Some el)).
Proof.
  intros Hno. unfold AboutSection.onMounted, new_IntersectionObserver. js_run. cbn.
  now rewrite Hno.
Qed.

Lemma contact_onMounted_unsupported (b : Browser) (el : string) :
  hasIntersectionObserver b = false ->
  ContactSection.onMounted (ContactSection.setup b (Some el)) =
  (Throw ReferenceError, ContactSection.setup b (Some el)).
Proof.
  intros Hno. unfold ContactSection.onMounted, new_IntersectionObserver. js_run. cbn.
  now rewrite Hno.
Qed.

Lemma projects_onMounted_unsupported (b : Browser) (el : string) :
  hasIntersectionObserver b = false ->
  ProjectsSection.onMounted (ProjectsSection.setup b (Some el)) =
  (Throw ReferenceError, ProjectsSection.setup b (Some el)).
Proof.
  intros Hno. unfold ProjectsSection.onMounted, new_IntersectionObserver. js_run. cbn.
  now rewrite Hno.
Qed.

Lemma projects_callback_cons (e : IntersectionObserverEntry)
  (entries : list IntersectionObserverEntry) (s : ProjectsSection.State) :
  ProjectsSection.callback (e :: entries) s =
  ProjectsSection.callback entries
    (if isIntersecting e then
       ProjectsSection.set_observer (unobserve (target e) <$> ProjectsSection.observer s)
         (ProjectsSection.set_sectionVisible true s)
     else s).
Proof.
  unfold ProjectsSection.callback. cbn [forEach]. unfold bind.
  destruct (isIntersecting e); js_run; destruct s; reflexivity.
Qed.

(** The callback of ProjectsSection only drops targets. *)
Lemma projects_callback_shrinks
  (entries : list IntersectionObserverEntry) (s : ProjectsSection.State)
  (o' : IntersectionObserver) :
  ProjectsSection.observer (snd (ProjectsSection.callback entries s)) = Some o' ->
  exists o, ProjectsSection.observer s = Some o /\
            forall x, x ∈ targets o' -> x ∈ targets o.
Proof.
  revert s. induction entries as [|e entries IH]; intros s Ho'.
  - exists o'. auto.
  - rewrite projects_callback_cons in Ho'. apply IH in Ho' as (o1 & Ho1 & Hsub).
    destruct (isIntersecting e); [|eauto].
    destruct s as [b v r [o|]]; cbn in Ho1; [|discriminate Ho1].
    injection Ho1 as <-. exists o. split; [reflexivity|].
    intros x Hx. apply Hsub in Hx. cbn in Hx. now apply list_elem_of_filter in Hx.
Qed.

(** ProjectsSection: the callback completes normally, reveals on an
    intersecting entry, never hides, and stops observing the target of every
    intersecting entry. *)
Lemma projects_callback_run
  (entries : list IntersectionObserverEntry) (s : ProjectsSection.State) :
  fst (ProjectsSection.callback entries s) = Normal tt /\
  ProjectsSection.sectionVisible (snd (ProjectsSection.callback entries s))
  = (ProjectsSection.sectionVisible s || existsb isIntersecting entries) /\
  (forall e o',
     In e entries -> isIntersecting e = true ->
     ProjectsSection.observer (snd (ProjectsSection.callback entries s)) = Some o' ->
     target e ∉ targets o').
Proof.
  revert s. induction entries as [|e entries IH]; intros s.
  - cbn. rewrite orb_false_r. auto.
  - rewrite projects_callback_cons. cbn [existsb].
    destruct (IH (if isIntersecting e then
       ProjectsSection.set_observer (unobserve (target e) <$> ProjectsSection.observer s)
         (ProjectsSection.set_sectionVisible true s)
     else s)) as (Hn & Hv & Hu).
    split; [exact Hn|]. split.
    + rewrite Hv. destruct (isIntersecting e); cbn; [now rewrite orb_true_r | reflexivity].
    + intros e0 o' [<- | Hin] He0 Ho'; [|eauto].
      rewrite He0 in Ho'. apply projects_callback_shrinks in Ho' as (o1 & Ho1 & Hsub).
      intros Hx. apply Hsub in Hx.
      destruct s as [b v r [o|]]; cbn in Ho1; [|discriminate Ho1].
      injection Ho1 as <-. cbn in Hx. apply list_elem_of_filter in Hx as [Hne _].
      now apply Hne.
Qed.

(** Teardown of SimpleNavigation removes the scroll listener: a later scroll
    event leaves the active section alone. *)
Lemma nav_unmount_silences_scroll (y : Z) (s : SimpleNavigation.State) :
  ("handleScroll" ∉
     scrollListeners (SimpleNavigation.win (snd (SimpleNavigation.unmount s)))) /\
  SimpleNavigation.activeSection
    (snd (SimpleNavigation.scrollEvent y (snd (SimpleNavigation.unmount s))))
  = SimpleNavigation.activeSection s.
Proof.
  destruct s as [b a t].
  unfold SimpleNavigation.unmount, SimpleNavigation.unmountHooks,
    SimpleNavigation.onUnmounted, removeEventListener_scroll. cbn [forEach].
  unfold bind, ret. js_run. cbn.
  assert (Hgone : "handleScroll" ∉ filter (fun x => x <> "handleScroll") (scrollListeners b)).
  { intros Hin. apply list_elem_of_filter in Hin as [Hne _]. now apply Hne. }
  split; [exact Hgone|].
  unfold SimpleNavigation.scrollEvent. js_run. cbn.
  now rewrite bool_decide_eq_false_2 by exact Hgone.
Qed.

End Reveal.

Section RevealClaims.

Import Samples.

(** C4 does not hold of the code.  In a browser without the
    intersection-observer capability the mount hooks of AboutSection,
    ContactSection and ProjectsSection, with their template ref bound, throw a
    reference error out of the hook and leave the reveal state pending: none
    of the three reveals at once. *)
Theorem reveal_mount_without_observer :
  AboutSection.onMounted (AboutSection.setup noObserver (Some "about"))
  = (Throw ReferenceError, AboutSection.setup noObserver (Some "about")) /\
  AboutSection.isVisible
    (snd (AboutSection.onMounted (AboutSection.setup noObserver (Some "about")))) = false /\
  ContactSection.onMounted (ContactSection.setup noObserver (Some "contact"))
  = (Throw ReferenceError, ContactSection.setup noObserver (Some "contact")) /\
  ContactSection.isVisible
    (snd (ContactSection.onMounted (ContactSection.setup noObserver (Some "contact")))) = false /\
  ProjectsSection.onMounted (ProjectsSection.setup noObserver (Some "projects"))
  = (Throw ReferenceError, ProjectsSection.setup noObserver (Some "projects")) /\
  ProjectsSection.sectionVisible
    (snd (ProjectsSection.onMounted (ProjectsSection.setup noObserver (Some "projects"))))
  = false.
Proof.
  rewrite (about_onMounted_unsupported noObserver "about" eq_refl).
  rewrite (contact_onMounted_unsupported noObserver "contact" eq_refl).
  rewrite (projects_onMounted_unsupported noObserver "projects" eq_refl).
  cbn [snd]. auto 10.
Qed.

(** C5 does not hold of the code.  AboutSection and ContactSection reveal
    once and never hide again, but they do not unsubscribe: after the first
    qualifying observation the observer still observes the element, and a
    second qualifying observation reaches the callback.  ProjectsSection does
    what the claim says: its observer lets go of the element within the first
    qualifying observation and the second one is not delivered. *)
Theorem reveal_second_observation :
  AboutSection.isVisible aboutMounted = false /\
  AboutSection.intersection (qualifying "about") aboutMounted
  = (Normal true, AboutSection.set_isVisible true aboutMounted) /\
  AboutSection.observer (AboutSection.set_isVisible true aboutMounted)
  = Some (mkObserver ["about"]) /\
  AboutSection.intersection (qualifying "about")
    (AboutSection.set_isVisible true aboutMounted)
  = (Normal true, AboutSection.set_isVisible true aboutMounted) /\
  ContactSection.intersection (qualifying "contact")
    (snd (ContactSection.intersection (qualifying "contact") contactMounted))
  = (Normal true, ContactSection.set_isVisible true contactMounted) /\
  ProjectsSection.sectionVisible
    (snd (ProjectsSection.intersection (qualifying "projects") projectsMounted)) = true /\
  ProjectsSection.observer
    (snd (ProjectsSection.intersection (qualifying "projects") projectsMounted))
  = Some (mkObserver []) /\
  fst (ProjectsSection.intersection (qualifying "projects")
         (snd (ProjectsSection.intersection (qualifying "projects") projectsMounted)))
  = Normal false.
Proof.
  split; [vm_compute; reflexivity|].
  split; [vm_compute; reflexivity|].
  split; [vm_compute; reflexivity|].
  split; [vm_compute; reflexivity|].
  split; [vm_compute; reflexivity|].
  split; [vm_compute; reflexivity|].
  split; vm_compute; reflexivity.
Qed.

(** C6 does not hold of the code.  SimpleNavigation removes its scroll
    listener on teardown, and a scroll event after it leaves the active
    section alone.  AboutSection, ContactSection and ProjectsSection create
    an observer at mount and have no disposer: after teardown the observer
    still observes the element, and a qualifying observation then reaches the
    callback and turns the reveal state from pending to revealed. *)
Theorem teardown_keeps_observers :
  scrollListeners (SimpleNavigation.win navMounted) = ["handleScroll"] /\
  scrollListeners (SimpleNavigation.win (snd (SimpleNavigation.unmount navMounted))) = [] /\
  SimpleNavigation.activeSection
    (snd (SimpleNavigation.scrollEvent 1500 (snd (SimpleNavigation.unmount navMounted))))
  = SimpleNavigation.activeSection navMounted /\
  AboutSection.observer (snd (AboutSection.unmount aboutMounted))
  = Some (mkObserver ["about"]) /\
  AboutSection.isVisible (snd (AboutSection.unmount aboutMounted)) = false /\
  fst (AboutSection.intersection (qualifying "about")
         (snd (AboutSection.unmount aboutMounted))) = Normal true /\
  AboutSection.isVisible
    (snd (AboutSection.intersection (qualifying "about")
            (snd (AboutSection.unmount aboutMounted)))) = true /\
  ContactSection.isVisible
    (snd (ContactSection.intersection (qualifying "contact")
            (snd (ContactSection.unmount contactMounted)))) = true /\
  ProjectsSection.observer (snd (ProjectsSection.unmount projectsMounted))
  = Some (mkObserver ["projects"]) /\
  ProjectsSection.sectionVisible
    (snd (ProjectsSection.intersection (qualifying "projects")
            (snd (ProjectsSection.unmount projectsMounted)))) = true.
Proof.
  split; [vm_compute; reflexivity|].
  split; [vm_compute; reflexivity|].
  split; [exact (proj2 (nav_unmount_silences_scroll 1500 navMounted))|].
  split; [vm_compute; reflexivity|].
  split; [vm_compute; reflexivity|].
  split; [vm_compute; reflexivity|].
  split; [vm_compute; reflexivity|].
  split; [vm_compute; reflexivity|].
  split; vm_compute; reflexivity.
Qed.

End RevealClaims.

(** * Further properties of the code *)

(** ** Scroll-spy *)

Section ScrollSpyMore.

Import SimpleNavigation.

Lemma scrollToSection_run (sectionId : string) (e : Element) (s : State) :
  elements (win s) !! sectionId = Some e ->
  scrollToSection sectionId s =
  (Normal tt,
   mkState
     (set_scrollRequests (Z.max 0 (docTop e - navHeight) :: scrollRequests (win s)) (win s))
     sectionId (currentTheme s)).
Proof.
  intros He. destruct s as [b a t]. cbn in He.
  unfold scrollToSection. js_run.
  unfold getElementById, getBoundingClientRect_top, window_scrollTo, gets, modify.
  cbn. rewrite He. cbn.
  now replace (docTop e - scrollY b + scrollY b - navHeight) with (docTop e - navHeight) by lia.
Qed.

(** X1.  For an element that exists, [scrollToSection] completes normally,
    makes the section active at once and asks for one scroll, to the
    element's document top minus 80 or to 0 when that is negative.  The
    target does not depend on the current scroll position, and nothing else
    changes. *)
Theorem scrollToSection_request (sectionId : string) (e : Element) (s : State) :
  elements (win s) !! sectionId = Some e ->
  fst (scrollToSection sectionId s) = Normal tt /\
  activeSection (snd (scrollToSection sectionId s)) = sectionId /\
  currentTheme (snd (scrollToSection sectionId s)) = currentTheme s /\
  scrollRequests (win (snd (scrollToSection sectionId s)))
  = Z.max 0 (docTop e - 80) :: scrollRequests (win s) /\
  0 <= Z.max 0 (docTop e - 80) /\
  scrollY (win (snd (scrollToSection sectionId s))) = scrollY (win s) /\
  same_preferences (win s) (win (snd (scrollToSection sectionId s))).
Proof.
  intros He. rewrite (scrollToSection_run sectionId e s He). cbn.
  unfold same_preferences. cbn. repeat split; try reflexivity. lia.
Qed.

Lemma scrollToSection_request_witness :
  scrollRequests
    (win (snd (scrollToSection "about" (Samples.scrolledTo 300)))) = [920] /\
  scrollRequests
    (win (snd (scrollToSection "hero" (Samples.scrolledTo 300)))) = [0].
Proof.
  destruct (scrollToSection_request "about" (mkElement 1000 1000) (Samples.scrolledTo 300)
              ltac:(vm_compute; reflexivity)) as (_ & _ & _ & Habout & _).
  destruct (scrollToSection_request "hero" (mkElement 0 1000) (Samples.scrolledTo 300)
              ltac:(vm_compute; reflexivity)) as (_ & _ & _ & Hhero & _).
  exact (conj Habout Hhero).
Defined.

Lemma spans_elements (b b' : Browser) (p : Z) (sec : SectionDescriptor) :
  elements b' = elements b -> spans b' p sec = spans b p sec.
Proof. unfold spans. now intros ->. Qed.

(** X2.  The optimistic update is confirmed.  When the section is one of
    [sections], its element starts at 80 or lower down and is more than 20
    high, no earlier section of the list reaches over the position 20 below
    its top, and the scroll listener is registered, then after
    [scrollToSection] and the scroll event at the requested position the
    section is still the active one. *)
Theorem scrollToSection_confirmed
  (pre post : list SectionDescriptor) (sec : SectionDescriptor) (e : Element) (s : State) :
  sections = (pre ++ sec :: post)%list ->
  elements (win s) !! id sec = Some e ->
  80 <= docTop e ->
  20 < offsetHeight e ->
  "handleScroll" ∈ scrollListeners (win s) ->
  Forall (fun x => spans (win s) (docTop e + 20) x = false) pre ->
  (scrollToSection (id sec);; scrollEvent (Z.max 0 (docTop e - 80))) s
  = (Normal tt,
     mkState
       (set_scrollY (docTop e - 80)
          (set_scrollRequests (docTop e - 80 :: scrollRequests (win s)) (win s)))
       (id sec) (currentTheme s)).
Proof.
  intros Hsplit He Htop Hheight Hlisten Hpre.
  js_run. rewrite (scrollToSection_run (id sec) e s He).
  unfold navHeight. rewrite Z.max_r by lia.
  unfold scrollEvent. js_run. cbn.
  rewrite bool_decide_eq_true_2 by exact Hlisten.
  unfold handleScroll. rewrite updateActiveSection_find.
  cbn -[sections List.find spans].
  rewrite Hsplit.
  rewrite (find_first _ pre sec post).
  - reflexivity.
  - eapply Forall_impl; [exact Hpre|]. intros x Hx. cbn in Hx.
    replace (docTop e - 80 + 100) with (docTop e + 20) by lia.
    rewrite <- Hx. now apply spans_elements.
  - unfold spans. cbn. rewrite He.
    apply andb_true_intro. split; [apply Z.leb_le | apply Z.ltb_lt]; lia.
Qed.

Lemma scrollToSection_confirmed_witness :
  activeSection
    (snd ((scrollToSection "projects";; scrollEvent (Z.max 0 (2000 - 80)))
            Samples.navMounted)) = "projects".
Proof.
  pose proof (scrollToSection_confirmed
             [mkSection "hero" "Home"; mkSection "about" "About"]
             [mkSection "contact" "Contact"]
             (mkSection "projects" "Projects") (mkElement 2000 1000) Samples.navMounted
             eq_refl ltac:(vm_compute; reflexivity) ltac:(cbn; lia) ltac:(cbn; lia)
             ltac:(vm_compute; apply list_elem_of_here)
             ltac:(repeat (constructor; [vm_compute; reflexivity|]); constructor)) as H.
  cbn [id docTop] in H. rewrite H. reflexivity.
Defined.

Lemma find_listed (f : SectionDescriptor -> bool) (sec : SectionDescriptor) :
  List.find f sections = Some sec -> listed (id sec).
Proof.
  intros Hfind. apply List.find_some in Hfind as [Hin _].
  unfold listed. now apply List.in_map.
Qed.

Lemma updateActiveSection_listed (s : State) :
  listed (activeSection s) -> listed (activeSection (snd (updateActiveSection s))).
Proof.
  intros Hl. rewrite updateActiveSection_find. cbn [snd].
  destruct (List.find _ sections) as [sec|] eqn:Hfind; [|exact Hl].
  destruct s as [b a t]. cbn. now apply find_listed in Hfind.
Qed.

(** X4.  A second scan at the same scroll position changes nothing:
    [updateActiveSection] run twice is [updateActiveSection] run once. *)
Theorem updateActiveSection_idempotent (s : State) :
  (updateActiveSection;; updateActiveSection) s = updateActiveSection s.
Proof.
  js_run. rewrite updateActiveSection_find.
  destruct (List.find _ sections) as [sec|] eqn:Hfind.
  - rewrite updateActiveSection_find. destruct s as [b a t]. cbn in *.
    now rewrite Hfind.
  - rewrite updateActiveSection_find. now rewrite Hfind.
Qed.

End ScrollSpyMore.

Section ActiveSectionInvariant.

Lemma hero_listed : listed "hero".
Proof. unfold listed. cbn. auto. Qed.

Lemma mount_listed (b : Browser) :
  storageMode b = Available ->
  listed (Page.activeSection (snd (Page.mount (Page.setup b)))).
Proof.
  intros Hmode.
  pose proof (updateActiveSection_listed (nav_loaded (SimpleNavigation.setup b)) hero_listed)
    as Hl.
  unfold Page.mount, Page.setup. js_run. unfold Page.inNav at 1. cbn [Page.nav].
  rewrite nav_onMounted_readable by (cbn; congruence).
  destruct (updateActiveSection_frame (nav_loaded (SimpleNavigation.setup b)))
    as [a Ha]. rewrite Ha in *. cbn [snd SimpleNavigation.activeSection] in Hl.
  unfold Page.inHero, Page.hero, Page.browser.
  cbn [Page.nav Page.heroVisible Page.heroTheme Page.heroTimer Page.showSnow
       SimpleNavigation.win].
  rewrite hero_onMounted_readable by (cbn; unfold addEventListener_scroll, modify; cbn;
    case_bool_decide; cbn; congruence).
  unfold Page.inApp, Page.browser. cbn [Page.nav Page.showSnow SimpleNavigation.win].
  rewrite app_onMounted_readable by (cbn; unfold addEventListener_scroll, modify; cbn;
    case_bool_decide; cbn; congruence).
  rewrite app_applyShowSnow_available by (cbn; unfold addEventListener_scroll, modify; cbn;
    case_bool_decide; cbn; congruence).
  exact Hl.
Qed.

Lemma scrollToSection_listed (sectionId : string) (s : SimpleNavigation.State) :
  listed (SimpleNavigation.activeSection s) -> listed sectionId ->
  listed (SimpleNavigation.activeSection
            (snd (SimpleNavigation.scrollToSection sectionId s))).
Proof.
  intros Ha Hid.
  destruct (elements (SimpleNavigation.win s) !! sectionId) as [e|] eqn:He.
  - now rewrite (scrollToSection_run sectionId e s He).
  - destruct s as [b a t]. unfold SimpleNavigation.scrollToSection. js_run.
    unfold getElementById, gets. cbn in *. now rewrite He.
Qed.

Lemma scrollEvent_listed (y : Z) (s : SimpleNavigation.State) :
  listed (SimpleNavigation.activeSection s) ->
  listed (SimpleNavigation.activeSection (snd (SimpleNavigation.scrollEvent y s))).
Proof.
  intros Ha. destruct s as [b a t]. unfold SimpleNavigation.scrollEvent. js_run. cbn.
  case_bool_decide; [|exact Ha].
  unfold SimpleNavigation.handleScroll.
  now apply (updateActiveSection_listed (SimpleNavigation.mkState (set_scrollY y b) a t)).
Qed.

Lemma perform_listed (a : Page.Action) (p : Page.State) :
  storageMode (Page.browser p) = Available ->
  listed (Page.activeSection p) ->
  fromButtons a ->
  listed (Page.activeSection (snd (Page.perform a p))).
Proof.
  intros Hmode Hl Ha.
  destruct p as [[b act t] hv ht htm sn].
  unfold Page.browser, Page.activeSection in *. cbn in Hmode, Hl.
  destruct a as [| |v|sectionId|y| | | |sectionId|]; unfold Page.perform.
  - unfold Page.inNav. cbn [Page.nav].
    now rewrite nav_toggleTheme_available by exact Hmode.
  - unfold Page.inApp, Page.browser. cbn [Page.nav Page.showSnow SimpleNavigation.win].
    now rewrite app_toggleSnow_available by exact Hmode.
  - unfold Page.inApp, Page.browser. cbn [Page.nav Page.showSnow SimpleNavigation.win].
    unfold Setters.setShowSnow. js_run. cbn.
    now rewrite app_applyShowSnow_available by exact Hmode.
  - unfold Page.inNav. cbn [Page.nav].
    pose proof (scrollToSection_listed sectionId (SimpleNavigation.mkState b act t) Hl Ha)
      as H.
    now destruct (SimpleNavigation.scrollToSection sectionId _) as [r s'].
  - unfold Page.inNav. cbn [Page.nav].
    pose proof (scrollEvent_listed y (SimpleNavigation.mkState b act t) Hl) as H.
    now destruct (SimpleNavigation.scrollEvent y _) as [r s'].
  - js_run. cbn [Page.browser Page.nav SimpleNavigation.win].
    now apply mount_listed.
  - unfold Page.inHero, Page.hero, Page.browser.
    cbn [Page.nav Page.heroVisible Page.heroTheme Page.heroTimer Page.showSnow
         SimpleNavigation.win].
    now rewrite hero_toggleTheme_available by exact Hmode.
  - js_run. unfold Page.inHero at 1, HeroSection.toggleSnow. js_run. cbn [fst snd].
    unfold Page.inApp, Page.hero, Page.browser. cbn.
    now rewrite app_toggleSnow_available by exact Hmode.
  - unfold Page.inHero, Page.hero, Page.browser.
    cbn [Page.nav Page.heroVisible Page.heroTheme Page.heroTimer Page.showSnow
         SimpleNavigation.win].
    now destruct (hero_handleNavigate_frame sectionId (HeroSection.mkState b hv ht htm))
      as (b' & -> & _).
  - unfold Page.inHero, Page.hero, Page.browser.
    cbn [Page.nav Page.heroVisible Page.heroTheme Page.heroTimer Page.showSnow
         SimpleNavigation.win].
    now destruct (hero_timeout_frame (HeroSection.mkState b hv ht htm)) as (v' & tm' & ->).
Qed.

(** X3.  The active section always names a section of the navigation.  With
    working storage, after the mount hooks and any sequence of toggles,
    scroll events, reloads and clicks on the navigation buttons (the buttons
    and the timeout of HeroSection included), the active section is the id
    of one of [sections]. *)
Theorem activeSection_always_listed (b : Browser) (actions : list Page.Action) :
  storageMode b = Available ->
  Forall fromButtons actions ->
  listed (Page.activeSection (snd (Page.session actions (Page.setup b)))).
Proof.
  intros Hmode Hactions.
  destruct (mount_available b Hmode) as (p & Hmount & Hm & Hc & Ht & Hh & Hs & _).
  pose proof (mount_listed b Hmode) as Hl. rewrite Hmount in Hl. cbn [snd] in Hl.
  assert (Hw : current InBoth p).
  { destruct Hc as (_ & Hattr). unfold current. rewrite Hattr, Hs, Ht, Hh. now split. }
  unfold Page.session. js_run. rewrite Hmount. fold (@forEach Page.State Page.Action).
  clear Hmount Hmode Ht Hh Hs. revert Hw. generalize InBoth as w. revert p Hm Hc Hl.
  induction Hactions as [|a actions Ha _ IH]; intros p Hm Hc Hl w Hw; [exact Hl|].
  cbn [forEach]. unfold bind.
  pose proof (perform_listed a p Hm Hl Ha) as Hl1.
  destruct (perform_available w a p Hm Hc Hw) as (p1 & Hrun & Hm1 & Hc1 & Hw1 & _).
  rewrite Hrun in *. cbn [snd] in Hl1. now apply (IH p1 Hm1 Hc1 Hl1 _ Hw1).
Qed.

Lemma activeSection_always_listed_witness :
  listed
    (Page.activeSection
       (snd (Page.session
               [Page.Scroll 1500; Page.ScrollToSection "contact"; Page.ToggleTheme;
                Page.ScrollToSection "projects"; Page.Reload; Page.Scroll 2500]
               (Page.setup Samples.supported)))).
Proof.
  apply (activeSection_always_listed Samples.supported
           [Page.Scroll 1500; Page.ScrollToSection "contact"; Page.ToggleTheme;
            Page.ScrollToSection "projects"; Page.Reload; Page.Scroll 2500] eq_refl).
  repeat (constructor; [cbn; unfold listed; cbn; tauto|]). constructor.
Defined.

End ActiveSectionInvariant.

Section ListenerLifecycle.

Import SimpleNavigation.

Lemma onMounted_listeners (s : State) :
  storageMode (win s) <> Disabled ->
  scrollListeners (win (snd (onMounted s)))
  = if bool_decide ("handleScroll" ∈ scrollListeners (win s))
    then scrollListeners (win s)
    else (scrollListeners (win s) ++ ["handleScroll"])%list.
Proof.
  intros Hmode. rewrite nav_onMounted_readable by exact Hmode.
  destruct (updateActiveSection_frame (nav_loaded s)) as [a ->].
  destruct s as [b a0 t]. cbn. unfold addEventListener_scroll, modify. cbn.
  now case_bool_decide.
Qed.

Lemma onMounted_storageMode (s : State) :
  storageMode (win s) <> Disabled ->
  storageMode (win (snd (onMounted s))) = storageMode (win s).
Proof.
  intros Hmode. rewrite nav_onMounted_readable by exact Hmode.
  destruct (updateActiveSection_frame (nav_loaded s)) as [a ->].
  destruct s as [b a0 t]. cbn. unfold addEventListener_scroll, modify. cbn.
  now case_bool_decide.
Qed.

Lemma unmount_run (s : State) :
  unmount s =
  (Normal tt,
   mkState
     (set_scrollListeners (filter (fun x => x <> "handleScroll") (scrollListeners (win s)))
        (win s))
     (activeSection s) (currentTheme s)).
Proof. destruct s as [b a t]. reflexivity. Qed.

Lemma filter_ne_absent (h : string) (l : list string) :
  h ∉ l -> filter (fun x => x <> h) l = l.
Proof.
  induction l as [|x l IH]; intros Hnot; [reflexivity|].
  rewrite filter_cons. apply not_elem_of_cons in Hnot as [Hne Hl].
  destruct (decide (x <> h)) as [_|Heq]; [now rewrite IH|].
  exfalso. apply Heq. congruence.
Qed.

(** X5.  The scroll listener is registered at mount and removed whole at
    teardown.  When the storage can be read and the handler of the instance
    is not registered yet, mounting SimpleNavigation appends its handler to
    the window's scroll listeners, and tearing the component down afterwards
    leaves the listeners exactly as they were before the mount, other
    listeners kept in order. *)
Theorem scroll_listener_paired (s : State) :
  storageMode (win s) <> Disabled ->
  "handleScroll" ∉ scrollListeners (win s) ->
  scrollListeners (win (snd (onMounted s))) = (scrollListeners (win s) ++ ["handleScroll"])%list /\
  scrollListeners (win (snd (unmount (snd (onMounted s))))) = scrollListeners (win s).
Proof.
  intros Hmode Hnot. split.
  - rewrite (onMounted_listeners s Hmode).
    now rewrite bool_decide_eq_false_2 by exact Hnot.
  - rewrite unmount_run. cbn [snd win].
    rewrite (onMounted_listeners s Hmode).
    rewrite bool_decide_eq_false_2 by exact Hnot.
    cbn [scrollListeners set_scrollListeners].
    rewrite filter_app, (filter_ne_absent _ _ Hnot).
    assert (Hone : filter (fun x : string => x <> "handleScroll") ["handleScroll"] = [])
      by (vm_compute; reflexivity).
    now rewrite Hone, app_nil_r.
Qed.

Lemma scroll_listener_paired_witness :
  scrollListeners
    (win (snd (unmount (snd (onMounted
       (mkState (set_scrollListeners ["parallax"; "analytics"] Samples.supported)
          "hero" "light"))))))
  = ["parallax"; "analytics"].
Proof.
  refine (proj2 (scroll_listener_paired
                   (mkState (set_scrollListeners ["parallax"; "analytics"] Samples.supported)
                      "hero" "light")
                   ltac:(discriminate) _)).
  cbn. intros Hin. apply elem_of_cons in Hin as [Hin|Hin]; [discriminate Hin|].
  apply elem_of_cons in Hin as [Hin|Hin]; [discriminate Hin|].
  now apply elem_of_nil in Hin.
Defined.

Lemma scrollEvents_unregistered (ys : list Z) (s : State) :
  "handleScroll" ∉ scrollListeners (win s) ->
  exists b',
    forEach ys scrollEvent s = (Normal tt, mkState b' (activeSection s) (currentTheme s)) /\
    scrollListeners b' = scrollListeners (win s) /\
    same_preferences (win s) b' /\
    scrollRequests b' = scrollRequests (win s).
Proof.
  revert s. induction ys as [|y ys IH]; intros s Hnot.
  - exists (win s). destruct s. cbn. unfold same_preferences. repeat split.
  - cbn [forEach]. unfold bind.
    assert (Hstep : scrollEvent y s
                    = (Normal tt, mkState (set_scrollY y (win s)) (activeSection s)
                                    (currentTheme s))).
    { destruct s as [b a t]. unfold scrollEvent. js_run. cbn in *.
      now rewrite bool_decide_eq_false_2 by exact Hnot. }
    rewrite Hstep.
    destruct (IH (mkState (set_scrollY y (win s)) (activeSection s) (currentTheme s)) Hnot)
      as (b' & -> & Hl & Hp & Hr).
    exists b'. unfold same_preferences in *. cbn in *. intuition congruence.
Qed.

(** X6.  After teardown the scroll-spy is silent: whatever scroll events
    follow, the active section, the theme, the preferences in storage and the
    scroll requests stay as they were when the component was torn down. *)
Theorem scrollEvents_after_unmount (ys : list Z) (s : State) :
  fst (forEach ys scrollEvent (snd (unmount s))) = Normal tt /\
  activeSection (snd (forEach ys scrollEvent (snd (unmount s)))) = activeSection s /\
  currentTheme (snd (forEach ys scrollEvent (snd (unmount s)))) = currentTheme s /\
  same_preferences (win s) (win (snd (forEach ys scrollEvent (snd (unmount s))))) /\
  scrollRequests (win (snd (forEach ys scrollEvent (snd (unmount s)))))
  = scrollRequests (win s).
Proof.
  rewrite unmount_run. cbn [snd].
  destruct (scrollEvents_unregistered ys
              (mkState
                 (set_scrollListeners
                    (filter (fun x => x <> "handleScroll") (scrollListeners (win s))) (win s))
                 (activeSection s) (currentTheme s)))
    as (b' & -> & _ & Hp & Hr).
  - cbn. intros Hin. apply list_elem_of_filter in Hin as [Hne _]. now apply Hne.
  - unfold same_preferences in *. cbn in *. intuition congruence.
Qed.

End ListenerLifecycle.

(** ** Themes and snow *)

Section ThemeToggles.

Lemma flipped_flipped (t : string) : enumerated t -> flipped (flipped t) = t.
Proof. now intros [-> | ->]. Qed.

Lemma flipped_not_light (t : string) : t <> "light" -> flipped t = "light".
Proof. intros Hne. unfold flipped. now rewrite (proj2 (String.eqb_neq _ _) Hne). Qed.

(** X7.  The toggle of SimpleNavigation ends on "light" or "dark" whatever
    the theme was, and takes every theme other than "light", also one that is
    not enumerated, to "light".  With working storage two toggles bring an
    enumerated theme back, in memory, on the root attribute and in storage. *)
Theorem nav_toggleTheme_cycle (s : SimpleNavigation.State) :
  storageMode (SimpleNavigation.win s) = Available ->
  enumerated (SimpleNavigation.currentTheme (snd (SimpleNavigation.toggleTheme s))) /\
  (SimpleNavigation.currentTheme s <> "light" ->
   SimpleNavigation.currentTheme (snd (SimpleNavigation.toggleTheme s)) = "light") /\
  (enumerated (SimpleNavigation.currentTheme s) ->
   fst ((SimpleNavigation.toggleTheme;; SimpleNavigation.toggleTheme) s) = Normal tt /\
   SimpleNavigation.currentTheme
     (snd ((SimpleNavigation.toggleTheme;; SimpleNavigation.toggleTheme) s))
   = SimpleNavigation.currentTheme s /\
   dataTheme (SimpleNavigation.win
                (snd ((SimpleNavigation.toggleTheme;; SimpleNavigation.toggleTheme) s)))
   = Some (SimpleNavigation.currentTheme s) /\
   storageItems (SimpleNavigation.win
                   (snd ((SimpleNavigation.toggleTheme;; SimpleNavigation.toggleTheme) s)))
     !! "theme" = Some (SimpleNavigation.currentTheme s)).
Proof.
  intros Hmode. js_run. rewrite (nav_toggleTheme_available s Hmode). cbn [fst snd].
  split; [apply flipped_enumerated|]. split; [apply flipped_not_light|].
  intros Hen. rewrite nav_toggleTheme_available by exact Hmode.
  cbn. rewrite (flipped_flipped _ Hen), lookup_insert_eq. auto.
Qed.

Lemma nav_toggleTheme_cycle_witness :
  SimpleNavigation.currentTheme
    (snd (SimpleNavigation.toggleTheme
            (SimpleNavigation.mkState Samples.supported "hero" "blue"))) = "light" /\
  SimpleNavigation.currentTheme
    (snd ((SimpleNavigation.toggleTheme;; SimpleNavigation.toggleTheme)
            (SimpleNavigation.mkState Samples.supported "hero" "dark"))) = "dark".
Proof.
  split.
  - exact (proj1 (proj2 (nav_toggleTheme_cycle
                           (SimpleNavigation.mkState Samples.supported "hero" "blue") eq_refl))
             ltac:(discriminate)).
  - exact (proj1 (proj2 (proj2 (proj2 (nav_toggleTheme_cycle
                           (SimpleNavigation.mkState Samples.supported "hero" "dark") eq_refl))
             (or_intror eq_refl)))).
Defined.

Lemma navbar_next_theme (t : string) :
  default "undefined"
    (NavBar.themes
       !! Z.to_nat (Z.rem (NavBar.indexOf NavBar.themes t + 1)
                      (Z.of_nat (length NavBar.themes))))
  = flipped t.
Proof.
  unfold NavBar.indexOf, NavBar.themes, flipped. cbn [NavBar.indexOf_from].
  rewrite (String.eqb_sym "light" t), (String.eqb_sym "dark" t).
  destruct (String.eqb t "light"); [reflexivity|].
  destruct (String.eqb t "dark"); reflexivity.
Qed.

(** X8.  The toggle of NavBar, written with [indexOf] and a remainder, and
    the toggle of SimpleNavigation, written with a comparison, are the same
    operation: started from the same browser and theme they end with the same
    completion, theme and browser, whatever the theme and whatever the
    storage does.  A theme that is not in [themes] has index -1 and goes to
    "light". *)
Theorem toggles_agree (b : Browser) (t a : string) :
  fst (NavBar.toggleTheme (NavBar.mkState b t))
  = fst (SimpleNavigation.toggleTheme (SimpleNavigation.mkState b a t)) /\
  NavBar.currentTheme (snd (NavBar.toggleTheme (NavBar.mkState b t)))
  = SimpleNavigation.currentTheme
      (snd (SimpleNavigation.toggleTheme (SimpleNavigation.mkState b a t))) /\
  NavBar.win (snd (NavBar.toggleTheme (NavBar.mkState b t)))
  = SimpleNavigation.win
      (snd (SimpleNavigation.toggleTheme (SimpleNavigation.mkState b a t))) /\
  NavBar.currentTheme (snd (NavBar.toggleTheme (NavBar.mkState b t))) = flipped t.
Proof.
  unfold NavBar.toggleTheme, NavBar.applyTheme, SimpleNavigation.toggleTheme,
    setAttribute_dataTheme. js_run. cbn -[NavBar.indexOf NavBar.themes Z.rem].
  rewrite navbar_next_theme. fold (flipped t).
  unfold localStorage_setItem. cbn.
  destruct (storageMode b); cbn; auto.
Qed.

Lemma or_else_nonempty (v : option string) : or_else v "light" <> "".
Proof.
  destruct v as [s|]; cbn; [|discriminate].
  destruct (String.eqb s "") eqn:He; cbn; [discriminate|].
  now apply String.eqb_neq.
Qed.

Lemma or_else_Some (t : string) : t <> "" -> or_else (Some t) "light" = t.
Proof. intros Hne. cbn. now rewrite (proj2 (String.eqb_neq _ _) Hne). Qed.

Lemma navbar_onMounted_available (n : NavBar.State) :
  storageMode (NavBar.win n) = Available ->
  NavBar.onMounted n =
  (Normal tt,
   NavBar.mkState
     (set_storageItems
        (<["theme" := or_else (storageItems (NavBar.win n) !! "theme") "light"]>
           (storageItems (NavBar.win n)))
        (set_dataTheme (Some (or_else (storageItems (NavBar.win n) !! "theme") "light"))
           (NavBar.win n)))
     (or_else (storageItems (NavBar.win n) !! "theme") "light")).
Proof.
  intros Hmode. destruct n as [b t]. cbn in Hmode.
  unfold NavBar.onMounted, NavBar.applyTheme, setAttribute_dataTheme. js_run. cbn.
  rewrite getItem_readable by congruence. cbn.
  rewrite setItem_available by exact Hmode. reflexivity.
Qed.

(** X9.  The mount hook of NavBar writes the loaded theme through.  With
    working storage it completes normally, and afterwards the in-memory
    theme, the root attribute and the stored theme are one value: the stored
    text if there was a non-empty one, "light" otherwise.  That value is
    never empty, and running the hook again changes nothing. *)
Theorem navbar_mount_writes_through (n : NavBar.State) :
  storageMode (NavBar.win n) = Available ->
  fst (NavBar.onMounted n) = Normal tt /\
  NavBar.currentTheme (snd (NavBar.onMounted n))
  = or_else (storageItems (NavBar.win n) !! "theme") "light" /\
  dataTheme (NavBar.win (snd (NavBar.onMounted n)))
  = Some (NavBar.currentTheme (snd (NavBar.onMounted n))) /\
  storageItems (NavBar.win (snd (NavBar.onMounted n))) !! "theme"
  = Some (NavBar.currentTheme (snd (NavBar.onMounted n))) /\
  NavBar.currentTheme (snd (NavBar.onMounted n)) <> "" /\
  NavBar.onMounted (snd (NavBar.onMounted n)) = (Normal tt, snd (NavBar.onMounted n)).
Proof.
  intros Hmode. rewrite (navbar_onMounted_available n Hmode). cbn [fst snd].
  rewrite navbar_onMounted_available by exact Hmode. cbn.
  rewrite lookup_insert_eq, insert_insert_eq.
  rewrite (or_else_Some _ (or_else_nonempty _)).
  repeat split; try reflexivity. apply or_else_nonempty.
Qed.

Lemma navbar_mount_writes_through_witness :
  storageItems
    (NavBar.win (snd (NavBar.onMounted (NavBar.setup (Samples.page 0 ∅ Available true)))))
    !! "theme" = Some "light".
Proof.
  destruct (navbar_mount_writes_through (NavBar.setup (Samples.page 0 ∅ Available true))
              eq_refl) as (_ & Hcur & _ & Hstored & _).
  rewrite Hstored, Hcur. reflexivity.
Defined.

(** X10.  A theme set through NavBar survives a reload.  With working
    storage, after the theme was set to a non-empty text, the mount hook of
    a fresh NavBar over the reloaded browser loads that text; after it was
    set to the empty text, the hook loads "light". *)
Theorem theme_round_trip (theme : string) (n : NavBar.State) :
  storageMode (NavBar.win n) = Available ->
  (theme <> "" ->
   NavBar.currentTheme
     (snd (NavBar.onMounted
             (NavBar.setup (Page.reloaded (NavBar.win (snd (Setters.setTheme theme n)))))))
   = theme) /\
  (theme = "" ->
   NavBar.currentTheme
     (snd (NavBar.onMounted
             (NavBar.setup (Page.reloaded (NavBar.win (snd (Setters.setTheme theme n)))))))
   = "light").
Proof.
  intros Hmode.
  assert (Hset : Setters.setTheme theme n
                 = (Normal tt,
                    NavBar.mkState
                      (set_storageItems (<["theme" := theme]> (storageItems (NavBar.win n)))
                         (set_dataTheme (Some theme) (NavBar.win n)))
                      theme)).
  { destruct n as [b t]. cbn in Hmode.
    unfold Setters.setTheme, NavBar.applyTheme, setAttribute_dataTheme. js_run. cbn.
    rewrite setItem_available by exact Hmode. reflexivity. }
  rewrite Hset. cbn [snd NavBar.win].
  rewrite navbar_onMounted_available by (cbn; exact Hmode).
  cbn. rewrite lookup_insert_eq. split.
  - intros Hne. now apply or_else_Some.
  - now intros ->.
Qed.

Lemma theme_round_trip_witness :
  NavBar.currentTheme
    (snd (NavBar.onMounted
            (NavBar.setup
               (Page.reloaded
                  (NavBar.win (snd (Setters.setTheme "dark" (NavBar.setup Samples.supported))))))))
  = "dark".
Proof.
  exact (proj1 (theme_round_trip "dark" (NavBar.setup Samples.supported) eq_refl)
           ltac:(discriminate)).
Defined.

End ThemeToggles.

Section Snow.

Lemma loadedSnow_toString (v : bool) : loadedSnow (Some (toString v)) = v.
Proof. now destruct v. Qed.

Lemma app_onMounted_available (a : App.State) :
  storageMode (App.win a) = Available ->
  App.onMounted a =
  (Normal tt,
   App.mkState
     (set_storageItems
        (<["showSnow" := toString (loadedSnow (storageItems (App.win a) !! "showSnow"))]>
           (storageItems (App.win a)))
        (App.win a))
     (loadedSnow (storageItems (App.win a) !! "showSnow"))).
Proof.
  intros Hmode. rewrite app_onMounted_readable by congruence.
  now rewrite app_applyShowSnow_available by exact Hmode.
Qed.

(** X11.  With working storage, toggling the snow twice restores the flag
    and the stored text, and a flag set by a toggle survives a reload: the
    mount hook of a fresh App over the reloaded browser loads the toggled
    value. *)
Theorem snow_toggle_round_trip (a : App.State) :
  storageMode (App.win a) = Available ->
  fst ((App.toggleSnow;; App.toggleSnow) a) = Normal tt /\
  App.showSnow (snd ((App.toggleSnow;; App.toggleSnow) a)) = App.showSnow a /\
  storageItems (App.win (snd ((App.toggleSnow;; App.toggleSnow) a))) !! "showSnow"
  = Some (toString (App.showSnow a)) /\
  App.showSnow
    (snd (App.onMounted (App.setup (Page.reloaded (App.win (snd (App.toggleSnow a)))))))
  = negb (App.showSnow a).
Proof.
  intros Hmode. js_run. rewrite (app_toggleSnow_available a Hmode). cbn [fst snd].
  rewrite app_toggleSnow_available by exact Hmode.
  rewrite app_onMounted_available by exact Hmode.
  cbn. rewrite !lookup_insert_eq, negb_involutive, loadedSnow_toString. auto.
Qed.

Lemma snow_toggle_round_trip_witness :
  App.showSnow
    (snd (App.onMounted
            (App.setup (Page.reloaded (App.win (snd (App.toggleSnow (App.setup Samples.supported))))))))
  = false.
Proof.
  exact (proj2 (proj2 (proj2 (snow_toggle_round_trip (App.setup Samples.supported) eq_refl)))).
Defined.

(** X12.  The mount hook of App repairs the stored snow text.  With working
    storage, whatever was stored under the snow key before, afterwards the
    stored text is "true" or "false" and is the flag printed; running the
    hook again changes nothing. *)
Theorem app_mount_normalises (a : App.State) :
  storageMode (App.win a) = Available ->
  fst (App.onMounted a) = Normal tt /\
  storageItems (App.win (snd (App.onMounted a))) !! "showSnow"
  = Some (toString (App.showSnow (snd (App.onMounted a)))) /\
  (storageItems (App.win (snd (App.onMounted a))) !! "showSnow" = Some "true" \/
   storageItems (App.win (snd (App.onMounted a))) !! "showSnow" = Some "false") /\
  App.onMounted (snd (App.onMounted a)) = (Normal tt, snd (App.onMounted a)).
Proof.
  intros Hmode. rewrite (app_onMounted_available a Hmode). cbn [fst snd].
  rewrite app_onMounted_available by exact Hmode. cbn.
  rewrite lookup_insert_eq, insert_insert_eq, loadedSnow_toString.
  repeat split; try reflexivity.
  destruct (loadedSnow (storageItems (App.win a) !! "showSnow")); auto.
Qed.

Lemma app_mount_normalises_witness :
  storageItems
    (App.win (snd (App.onMounted
                     (App.setup (Samples.page 0 (<["showSnow" := "yes"]> ∅) Available true)))))
    !! "showSnow" = Some "false".
Proof.
  destruct (app_mount_normalises
              (App.setup (Samples.page 0 (<["showSnow" := "yes"]> ∅) Available true)) eq_refl)
    as (_ & Hstored & _).
  rewrite Hstored. vm_compute. reflexivity.
Defined.

End Snow.

(** ** Reveal on intersection, in general *)

Section RevealMore.

Lemma about_intersection_run (es : list IntersectionObserverEntry) (s : AboutSection.State) :
  AboutSection.intersection es s =
  match AboutSection.observer s with
  | None => (Normal false, s)
  | Some o =>
      match observedEntries o es with
      | [] => (Normal false, s)
      | _ :: _ =>
          (Normal true,
           if existsb isIntersecting (observedEntries o es)
           then AboutSection.set_isVisible true s else s)
      end
  end.
Proof.
  unfold AboutSection.intersection. js_run.
  destruct (AboutSection.observer s) as [o|]; [|reflexivity].
  destruct (observedEntries o es) as [|e l] eqn:Hobs; [reflexivity|].
  now rewrite about_callback_run.
Qed.

(** X13.  The reveal of AboutSection is one-way.  Over any sequence of
    notifications every notification completes normally, the browser, the
    template ref and the observer stay as they were, a revealed section stays
    revealed, and a pending section stays pending as long as no notification
    carries an intersecting entry for an observed element. *)
Theorem about_reveal_one_way
  (notes : list (list IntersectionObserverEntry)) (s : AboutSection.State) :
  fst (forEach notes (fun es => AboutSection.intersection es;; mret tt) s) = Normal tt /\
  AboutSection.win (snd (forEach notes (fun es => AboutSection.intersection es;; mret tt) s))
  = AboutSection.win s /\
  AboutSection.observer
    (snd (forEach notes (fun es => AboutSection.intersection es;; mret tt) s))
  = AboutSection.observer s /\
  (AboutSection.isVisible s = true ->
   AboutSection.isVisible
     (snd (forEach notes (fun es => AboutSection.intersection es;; mret tt) s)) = true) /\
  (Forall (fun es => forall o, AboutSection.observer s = Some o ->
                     existsb isIntersecting (observedEntries o es) = false) notes ->
   snd (forEach notes (fun es => AboutSection.intersection es;; mret tt) s) = s).
Proof.
  revert s. induction notes as [|es notes IH]; intros s.
  - cbn. auto.
  - cbn [forEach]. unfold bind at 1. js_run.
    rewrite about_intersection_run.
    assert (Hstep : exists r s1,
      match AboutSection.observer s with
      | None => (Normal false, s)
      | Some o =>
          match observedEntries o es with
          | [] => (Normal false, s)
          | _ :: _ =>
              (Normal true,
               if existsb isIntersecting (observedEntries o es)
               then AboutSection.set_isVisible true s else s)
          end
      end = (Normal r, s1) /\
      AboutSection.win s1 = AboutSection.win s /\
      AboutSection.observer s1 = AboutSection.observer s /\
      (AboutSection.isVisible s = true -> AboutSection.isVisible s1 = true) /\
      ((forall o, AboutSection.observer s = Some o ->
                  existsb isIntersecting (observedEntries o es) = false) -> s1 = s)).
    { destruct (AboutSection.observer s) as [o|] eqn:Ho.
      - destruct (observedEntries o es) as [|e l] eqn:Hobs.
        + exists false, s. auto.
        + destruct (existsb isIntersecting (e :: l)) eqn:Hex.
          * exists true, (AboutSection.set_isVisible true s). split; [reflexivity|].
            cbn. repeat split; auto.
            intros Hnone. specialize (Hnone o eq_refl). congruence.
          * exists true, s. auto.
      - exists false, s. auto. }
    destruct Hstep as (r & s1 & -> & Hw & Ho & Hv & Hsame).
    destruct (IH s1) as (Hn' & Hw' & Ho' & Hv' & Hsame').
    split; [exact Hn'|]. split; [exact (eq_trans Hw' Hw)|].
    split; [exact (eq_trans Ho' Ho)|]. split; [exact (fun H => Hv' (Hv H))|].
    intros Hall. inversion Hall as [|? ? Hes Hrest]; subst.
    specialize (Hsame Hes). subst s1. exact (Hsame' Hrest).
Qed.

Lemma about_reveal_one_way_witness :
  snd (forEach [Samples.qualifying "contact"; [mkEntry "about" false]]
         (fun es => AboutSection.intersection es;; mret tt) Samples.aboutMounted)
  = Samples.aboutMounted /\
  AboutSection.isVisible
    (snd (forEach [Samples.qualifying "about"; [mkEntry "about" false]]
            (fun es => AboutSection.intersection es;; mret tt)
            (AboutSection.set_isVisible true Samples.aboutMounted))) = true.
Proof.
  split.
  - apply (proj2 (proj2 (proj2 (proj2
             (about_reveal_one_way
                [Samples.qualifying "contact"; [mkEntry "about" false]]
                Samples.aboutMounted))))).
    repeat (constructor; [intros o Ho; vm_compute in Ho; injection Ho as <-;
                          vm_compute; reflexivity|]).
    constructor.
  - apply (proj1 (proj2 (proj2 (proj2
             (about_reveal_one_way
                [Samples.qualifying "about"; [mkEntry "about" false]]
                (AboutSection.set_isVisible true Samples.aboutMounted)))))).
    reflexivity.
Defined.

Lemma observedEntries_one (o : IntersectionObserver) (e : IntersectionObserverEntry) :
  observedEntries o [e] = if decide (target e ∈ targets o) then [e] else [].
Proof.
  unfold observedEntries. rewrite filter_cons, filter_nil.
  now destruct (decide (target e ∈ targets o)).
Qed.

(** X14.  ProjectsSection reveals once and lets go.  A qualifying
    notification for an observed element is delivered, reveals the section
    and takes the element out of the observer; the same notification sent
    again is not delivered and changes nothing. *)
Theorem projects_reveal_unsubscribes
  (el : string) (o : IntersectionObserver) (s : ProjectsSection.State) :
  ProjectsSection.observer s = Some o ->
  el ∈ targets o ->
  ProjectsSection.intersection (Samples.qualifying el) s
  = (Normal true,
     ProjectsSection.set_observer (Some (unobserve el o))
       (ProjectsSection.set_sectionVisible true s)) /\
  (el ∉ targets (unobserve el o)) /\
  ProjectsSection.intersection (Samples.qualifying el)
    (snd (ProjectsSection.intersection (Samples.qualifying el) s))
  = (Normal false, snd (ProjectsSection.intersection (Samples.qualifying el) s)).
Proof.
  intros Ho Hel.
  assert (Hgone : el ∉ targets (unobserve el o)).
  { cbn. intros Hin. apply list_elem_of_filter in Hin as [Hne _]. now apply Hne. }
  assert (Hfirst : ProjectsSection.intersection (Samples.qualifying el) s
                   = (Normal true,
                      ProjectsSection.set_observer (Some (unobserve el o))
                        (ProjectsSection.set_sectionVisible true s))).
  { unfold ProjectsSection.intersection, Samples.qualifying. js_run. rewrite Ho.
    rewrite observedEntries_one. cbn [target].
    rewrite decide_True by exact Hel.
    rewrite projects_callback_cons. cbn [isIntersecting target].
    destruct s as [b v r ob]. cbn in Ho. subst ob. reflexivity. }
  rewrite Hfirst. cbn [snd]. split; [reflexivity|]. split; [exact Hgone|].
  unfold ProjectsSection.intersection, Samples.qualifying. js_run.
  destruct s as [b v r ob]. cbn [ProjectsSection.observer ProjectsSection.set_observer
    ProjectsSection.set_sectionVisible].
  rewrite observedEntries_one. cbn [target].
  now rewrite decide_False by exact Hgone.
Qed.

Lemma projects_reveal_unsubscribes_witness :
  fst (ProjectsSection.intersection (Samples.qualifying "projects")
         (snd (ProjectsSection.intersection (Samples.qualifying "projects")
                 Samples.projectsMounted))) = Normal false.
Proof.
  destruct (projects_reveal_unsubscribes "projects" (mkObserver ["projects"])
              Samples.projectsMounted ltac:(vm_compute; reflexivity)
              ltac:(apply list_elem_of_here)) as (_ & _ & Hsecond).
  rewrite Hsecond. reflexivity.
Defined.

Lemma schema_injected (id : string) (h : gset string) : id ∈ {[ id ]} ∪ h ∖ {[ id ]}.
Proof. apply elem_of_union_l, elem_of_singleton. reflexivity. Qed.

Lemma schema_removed (id : string) (h : gset string) :
  ({[ id ]} ∪ h ∖ {[ id ]}) ∖ {[ id ]} = h ∖ {[ id ]}.
Proof.
  apply set_eq. intros x.
  rewrite !elem_of_difference, elem_of_union, elem_of_difference. tauto.
Qed.

(** X15.  The structured data of ProjectsSection follows its lifecycle.
    Where observers are supported, or the template ref is unbound, the mount
    hook completes normally and leaves a script with the id "projects-schema"
    in the head, and mount followed by teardown leaves the head scripts as
    they were apart from that id.  Where observers are missing and the ref is
    bound, the hook throws before it reaches the injection and the head
    scripts are untouched. *)
Theorem projects_schema_lifecycle (b : Browser) (r : option string) :
  (hasIntersectionObserver b = true \/ r = None ->
   fst (ProjectsSection.onMounted (ProjectsSection.setup b r)) = Normal tt /\
   "projects-schema"
     ∈ headScripts (ProjectsSection.win (snd (ProjectsSection.onMounted
                                                 (ProjectsSection.setup b r)))) /\
   headScripts
     (ProjectsSection.win
        (snd (ProjectsSection.unmount
                (snd (ProjectsSection.onMounted (ProjectsSection.setup b r))))))
   = headScripts b ∖ {[ "projects-schema" ]}) /\
  (hasIntersectionObserver b = false -> r <> None ->
   throws (fst (ProjectsSection.onMounted (ProjectsSection.setup b r))) = true /\
   headScripts (ProjectsSection.win (snd (ProjectsSection.onMounted
                                            (ProjectsSection.setup b r))))
   = headScripts b).
Proof.
  split.
  - intros Hok.
    unfold ProjectsSection.unmount, ProjectsSection.unmountHooks,
      ProjectsSection.onUnmounted, ProjectsSection.onMounted, new_IntersectionObserver,
      injectStructuredData, removeStructuredData.
    cbn [forEach]. unfold bind, ret. js_run. cbn.
    destruct r as [el|]; cbn.
    + destruct Hok as [Hio | Hr]; [|discriminate Hr]. rewrite Hio. cbn.
      split; [reflexivity|]. split; [apply schema_injected | apply schema_removed].
    + split; [reflexivity|]. split; [apply schema_injected | apply schema_removed].
  - intros Hno Hr. destruct r as [el|]; [|congruence].
    now rewrite (projects_onMounted_unsupported b el Hno).
Qed.

Lemma projects_schema_lifecycle_witness :
  headScripts
    (ProjectsSection.win
       (snd (ProjectsSection.unmount
               (snd (ProjectsSection.onMounted
                       (ProjectsSection.setup Samples.supported (Some "projects")))))))
  = headScripts Samples.supported ∖ {[ "projects-schema" ]} /\
  headScripts
    (ProjectsSection.win
       (snd (ProjectsSection.onMounted
               (ProjectsSection.setup Samples.noObserver (Some "projects")))))
  = headScripts Samples.noObserver.
Proof.
  destruct (projects_schema_lifecycle Samples.supported (Some "projects")) as [Hok _].
  destruct (projects_schema_lifecycle Samples.noObserver (Some "projects")) as [_ Hno].
  exact (conj (proj2 (proj2 (Hok (or_introl eq_refl))))
              (proj2 (Hno eq_refl ltac:(discriminate)))).
Defined.

End RevealMore.

Section LazyImageFacts.

Lemma observedEntries_none (es : list IntersectionObserverEntry) :
  observedEntries (mkObserver []) es = [].
Proof.
  unfold observedEntries. induction es as [|e es IH]; [reflexivity|].
  rewrite filter_cons. cbn [targets].
  destruct (decide (target e ∈ [])) as [Hin|_]; [|exact IH].
  now apply elem_of_nil in Hin.
Qed.

(** X16.  A LazyImage never starts loading.  The ref of the main image is
    unbound when the mount hook runs, so the hook returns at once whatever
    the loading mode and the capabilities of the browser: it creates no
    observer, requests nothing and leaves the image not intersecting; no
    notification is delivered afterwards, and teardown finds nothing to
    disconnect. *)
Theorem image_mount_returns_at_once
  (b : Browser) (l : LazyImage.Loading) (es : list IntersectionObserverEntry) :
  LazyImage.onMounted (LazyImage.setup b l) = (Normal tt, LazyImage.setup b l) /\
  LazyImage.observer (snd (LazyImage.onMounted (LazyImage.setup b l))) = None /\
  LazyImage.requested (snd (LazyImage.onMounted (LazyImage.setup b l))) = 0%nat /\
  LazyImage.isIntersecting (snd (LazyImage.onMounted (LazyImage.setup b l))) = false /\
  LazyImage.intersection es (snd (LazyImage.onMounted (LazyImage.setup b l)))
  = (Normal false, LazyImage.setup b l) /\
  LazyImage.onUnmounted (snd (LazyImage.onMounted (LazyImage.setup b l)))
  = (Normal tt, LazyImage.setup b l).
Proof.
  assert (Hmount : LazyImage.onMounted (LazyImage.setup b l)
                   = (Normal tt, LazyImage.setup b l)) by reflexivity.
  rewrite Hmount. cbn [snd]. repeat split.
Qed.

(** X18.  Teardown of LazyImage disconnects.  Whatever the state, the
    unmount hook completes normally and changes at most the observer; after
    it no notification is delivered, so nothing is requested and nothing is
    revealed any more. *)
Theorem image_unmount_disconnects
  (s : LazyImage.State) (es : list IntersectionObserverEntry) :
  fst (LazyImage.onUnmounted s) = Normal tt /\
  LazyImage.requested (snd (LazyImage.onUnmounted s)) = LazyImage.requested s /\
  LazyImage.isIntersecting (snd (LazyImage.onUnmounted s)) = LazyImage.isIntersecting s /\
  LazyImage.win (snd (LazyImage.onUnmounted s)) = LazyImage.win s /\
  LazyImage.intersection es (snd (LazyImage.onUnmounted s))
  = (Normal false, snd (LazyImage.onUnmounted s)).
Proof.
  destruct s as [b l r v [o|] n]; unfold LazyImage.onUnmounted, LazyImage.intersection;
    js_run; cbn; [|auto].
  rewrite observedEntries_none. auto.
Qed.

End LazyImageFacts.

(** ** Meta tags and structured data *)

Section MetaTags.

Import Seo.

Lemma querySelector_from_S (a : MetaAttr) (n : string) (l : list Meta) (i : nat) :
  querySelector_from a n l (S i) = S <$> querySelector_from a n l i.
Proof.
  revert i. induction l as [|m l IH]; intros i; cbn; [reflexivity|].
  destruct (selects a n m); [reflexivity | apply IH].
Qed.

Lemma tagContent_cons (a : MetaAttr) (n : string) (m : Meta) (l : list Meta) :
  tagContent a n (m :: l) = if selects a n m then Some (content m) else tagContent a n l.
Proof.
  unfold tagContent, querySelector. cbn [querySelector_from].
  destruct (selects a n m); [reflexivity|].
  rewrite querySelector_from_S.
  now destruct (querySelector_from a n l 0).
Qed.

Lemma tagContent_nil (a : MetaAttr) (n : string) : tagContent a n [] = None.
Proof. reflexivity. Qed.

Lemma alter_or_append (a : MetaAttr) (n c : string) (l : list Meta) :
  match querySelector a n l with
  | Some i => alter (setContent c) i l
  | None => alter (setContent c) (length l) (l ++ [createMeta a n])%list
  end = updated a n c l.
Proof.
  unfold querySelector. induction l as [|m l IH]; [reflexivity|].
  cbn [querySelector_from updated]. destruct (selects a n m); [reflexivity|].
  rewrite querySelector_from_S.
  destruct (querySelector_from a n l 0) as [i|]; cbn in *; now rewrite IH.
Qed.

Lemma updateMetaTag_run (n c : string) (isProperty : bool) (s : State) :
  updateMetaTag n c isProperty s =
  (Normal tt,
   set_metas (updated (if isProperty then ByProperty else ByName) n c (metas s)) s).
Proof.
  destruct s as [b t ms]. unfold updateMetaTag. js_run. cbn [metas set_metas win title].
  rewrite <- alter_or_append.
  destruct (querySelector (if isProperty then ByProperty else ByName) n ms); reflexivity.
Qed.

Lemma selects_setContent (a : MetaAttr) (n c : string) (m : Meta) :
  selects a n (setContent c m) = selects a n m.
Proof. now destruct a. Qed.

Lemma selects_createMeta (a a' : MetaAttr) (n n' c : string) :
  selects a' n' (setContent c (createMeta a n)) = true -> a' = a /\ n' = n.
Proof.
  destruct a, a'; cbn; try discriminate; intros H; apply String.eqb_eq in H; auto.
Qed.

Lemma selects_createMeta_self (a : MetaAttr) (n c : string) :
  selects a n (setContent c (createMeta a n)) = true.
Proof. destruct a; cbn; apply String.eqb_refl. Qed.

Lemma tagContent_updated (a : MetaAttr) (n c : string) (ms : list Meta) :
  tagContent a n (updated a n c ms) = Some c.
Proof.
  induction ms as [|m ms IH]; cbn [updated].
  - now rewrite tagContent_cons, selects_createMeta_self.
  - destruct (selects a n m) eqn:Hm.
    + now rewrite tagContent_cons, selects_setContent, Hm.
    + now rewrite tagContent_cons, Hm.
Qed.

Lemma updated_settled (a : MetaAttr) (n c : string) (ms : list Meta) :
  tagContent a n ms = Some c -> updated a n c ms = ms.
Proof.
  induction ms as [|m ms IH]; [discriminate|].
  rewrite tagContent_cons. cbn [updated]. destruct (selects a n m).
  - intros [= <-]. now destruct m.
  - intros H. now rewrite IH.
Qed.

Lemma updated_length (a : MetaAttr) (n c : string) (ms : list Meta) :
  length (updated a n c ms)
  = match tagContent a n ms with Some _ => length ms | None => S (length ms) end.
Proof.
  induction ms as [|m ms IH]; [reflexivity|].
  rewrite tagContent_cons. cbn [updated]. destruct (selects a n m); [reflexivity|].
  cbn [length]. rewrite IH. now destruct (tagContent a n ms).
Qed.

Lemma updated_elsewhere (a : MetaAttr) (n c : string) (ms : list Meta) (j : nat) (m : Meta) :
  ms !! j = Some m -> querySelector a n ms <> Some j -> updated a n c ms !! j = Some m.
Proof.
  unfold querySelector. revert j. induction ms as [|m0 ms IH]; intros j Hj Hq; [discriminate|].
  cbn [updated querySelector_from] in *. destruct (selects a n m0).
  - destruct j as [|j]; [congruence | exact Hj].
  - destruct j as [|j]; [exact Hj|]. cbn in *. apply IH; [exact Hj|].
    rewrite querySelector_from_S in Hq.
    destruct (querySelector_from a n ms 0); cbn in Hq; congruence.
Qed.

(** X19.  [updateMetaTag] sets one tag and disturbs no other.  For a name
    that is selector-safe (printable ASCII without double quote and
    backslash), it completes normally and leaves the browser and the title
    alone; afterwards the selector finds the content just written; an element
    is added only when the selector found none before; every other element is
    where and what it was; and a second identical call changes nothing. *)
Theorem updateMetaTag_sets_one (n c : string) (isProperty : bool) (s : State) :
  selectorSafe n = true ->
  fst (updateMetaTag n c isProperty s) = Normal tt /\
  win (snd (updateMetaTag n c isProperty s)) = win s /\
  title (snd (updateMetaTag n c isProperty s)) = title s /\
  tagContent (if isProperty then ByProperty else ByName) n
    (metas (snd (updateMetaTag n c isProperty s))) = Some c /\
  length (metas (snd (updateMetaTag n c isProperty s)))
  = match tagContent (if isProperty then ByProperty else ByName) n (metas s) with
    | Some _ => length (metas s)
    | None => S (length (metas s))
    end /\
  (forall j m,
     metas s !! j = Some m ->
     querySelector (if isProperty then ByProperty else ByName) n (metas s) <> Some j ->
     metas (snd (updateMetaTag n c isProperty s)) !! j = Some m) /\
  (updateMetaTag n c isProperty;; updateMetaTag n c isProperty) s
  = updateMetaTag n c isProperty s.
Proof.
  intros _. js_run. rewrite !updateMetaTag_run. cbn [fst snd].
  destruct s as [b t ms]. cbn [win title metas set_metas].
  split; [reflexivity|]. split; [reflexivity|]. split; [reflexivity|].
  split; [apply tagContent_updated|]. split; [apply updated_length|].
  split; [intros j m; apply updated_elsewhere|].
  now rewrite (updated_settled _ _ _ _ (tagContent_updated _ n c ms)).
Qed.

Lemma updateMetaTag_sets_one_witness :
  metas (snd (updateMetaTag "og:title" "New title" true sampleHead)) !! 0%nat
  = Some (mkMeta (Some "viewport") None "width=device-width") /\
  tagContent ByProperty "og:title"
    (metas (snd (updateMetaTag "og:title" "New title" true sampleHead))) = Some "New title".
Proof.
  destruct (updateMetaTag_sets_one "og:title" "New title" true sampleHead eq_refl)
    as (_ & _ & _ & Hset & _ & Hother & _).
  split; [|exact Hset].
  apply Hother; [reflexivity|]. vm_compute. discriminate.
Defined.

End MetaTags.

Section MainPageSEO.

Import Seo.

Lemma selects_exclusive (a a' : MetaAttr) (n n' : string) (m : Meta) :
  name m = None \/ property m = None ->
  selects a n m = true ->
  (a', n') <> (a, n) ->
  selects a' n' m = false.
Proof.
  intros Hone Hsel Hne. destruct m as [[x|] [y|] z]; cbn in Hone;
    destruct Hone as [Hone | Hone]; try discriminate Hone;
    destruct a, a'; cbn in *; try reflexivity; try discriminate Hsel;
    apply String.eqb_eq in Hsel; subst; apply String.eqb_neq; congruence.
Qed.

Lemma updated_other (a a' : MetaAttr) (n n' c : string) (ms : list Meta) :
  singleAttribute ms ->
  (a', n') <> (a, n) ->
  tagContent a' n' (updated a n c ms) = tagContent a' n' ms.
Proof.
  intros Hwf Hne. induction Hwf as [|m ms Hm _ IH]; cbn [updated].
  - rewrite tagContent_cons.
    destruct (selects a' n' (setContent c (createMeta a n))) eqn:Hsel; [|reflexivity].
    apply selects_createMeta in Hsel as [-> ->]. congruence.
  - destruct (selects a n m) eqn:Hsel.
    + rewrite !tagContent_cons, selects_setContent.
      now rewrite (selects_exclusive a a' n n' m Hm Hsel Hne).
    + rewrite !tagContent_cons. now rewrite IH.
Qed.

Lemma updated_singleAttribute (a : MetaAttr) (n c : string) (ms : list Meta) :
  singleAttribute ms -> singleAttribute (updated a n c ms).
Proof.
  intros Hwf. induction Hwf as [|m ms Hm Hms IH]; cbn [updated].
  - constructor; [|constructor]. destruct a; cbn; auto.
  - destruct (selects a n m); constructor; assumption.
Qed.

Lemma updatedAll_singleAttribute (tags : list (MetaAttr * string * string)) (ms : list Meta) :
  singleAttribute ms -> singleAttribute (updatedAll tags ms).
Proof.
  revert ms. induction tags as [|[[a n] c] tags IH]; intros ms Hwf; [exact Hwf|].
  cbn [updatedAll]. now apply IH, updated_singleAttribute.
Qed.

Lemma updatedAll_other (tags : list (MetaAttr * string * string)) (a' : MetaAttr)
  (n' : string) (ms : list Meta) :
  singleAttribute ms ->
  ~ In (a', n') (List.map fst tags) ->
  tagContent a' n' (updatedAll tags ms) = tagContent a' n' ms.
Proof.
  revert ms. induction tags as [|[[a n] c] tags IH]; intros ms Hwf Hnot; [reflexivity|].
  cbn [updatedAll]. cbn in Hnot.
  rewrite IH; [|now apply updated_singleAttribute|tauto].
  apply updated_other; [exact Hwf|]. intros Heq. apply Hnot. left. congruence.
Qed.

Lemma updatedAll_settled (tags : list (MetaAttr * string * string)) (ms : list Meta) :
  singleAttribute ms ->
  List.NoDup (List.map fst tags) ->
  forall a n c, In (a, n, c) tags -> tagContent a n (updatedAll tags ms) = Some c.
Proof.
  revert ms. induction tags as [|[[a0 n0] c0] tags IH]; intros ms Hwf Hnodup a n c Hin;
    [contradiction|].
  cbn [updatedAll]. cbn in Hnodup. inversion Hnodup as [|? ? Hfresh Hrest]; subst.
  destruct Hin as [[= -> -> ->] | Hin].
  - rewrite updatedAll_other; [apply tagContent_updated
                              |now apply updated_singleAttribute|exact Hfresh].
  - apply IH; [now apply updated_singleAttribute|exact Hrest|exact Hin].
Qed.

Lemma updatedAll_fixed (tags : list (MetaAttr * string * string)) (ms : list Meta) :
  (forall a n c, In (a, n, c) tags -> tagContent a n ms = Some c) ->
  updatedAll tags ms = ms.
Proof.
  induction tags as [|[[a n] c] tags IH]; intros Hall; [reflexivity|].
  cbn [updatedAll]. rewrite (updated_settled a n c ms) by (apply Hall; now left).
  apply IH. intros a' n' c' Hin. apply Hall. now right.
Qed.

Lemma mainPageTags_distinct : List.NoDup (List.map fst mainPageTags).
Proof.
  cbn. repeat (constructor; [cbn; intuition congruence|]). constructor.
Qed.

Lemma setupMainPageSEO_run (s : State) :
  setupMainPageSEO s =
  (Normal tt,
   mkState
     (snd (injectStructuredData "website-schema"
             (snd (injectStructuredData "person-schema" (win s)))))
     "Jeffrey Chen - Software Engineer & Creative Problem Solver"
     (updatedAll mainPageTags (metas s))).
Proof.
  destruct s as [b t ms].
  unfold setupMainPageSEO, updatePageTitle, updatePageDescription. js_run.
  cbn [inBrowser window State_hosted win with_window title metas].
  unfold injectStructuredData at 1 2. unfold modify. cbn [fst snd].
  repeat (rewrite updateMetaTag_run; cbn [set_metas set_title win title metas]).
  reflexivity.
Qed.

End MainPageSEO.

Section MainPageSEOClaims.

Import Seo.

Lemma set_headScripts_twice (g g' : gset string) (b : Browser) :
  set_headScripts g (set_headScripts g' b) = set_headScripts g b.
Proof. reflexivity. Qed.

Lemma inject_twice (p w : string) (h : gset string) :
  {[ w ]} ∪ ({[ p ]} ∪ ({[ w ]} ∪ ({[ p ]} ∪ h ∖ {[ p ]}) ∖ {[ w ]}) ∖ {[ p ]}) ∖ {[ w ]}
  = {[ w ]} ∪ ({[ p ]} ∪ h ∖ {[ p ]}) ∖ {[ w ]}.
Proof.
  apply set_eq. intros x. set_unfold.
  destruct (decide (x = w)), (decide (x = p)); tauto.
Qed.

(** X20.  [setupMainPageSEO] settles the head.  When no [meta] element
    carries both a name and a property, the setup completes normally, sets
    the title, leaves the person and website scripts in the head, and
    afterwards each of its ten tags reads back the content it wrote, whatever
    the head held before; running the setup a second time changes nothing. *)
Theorem setupMainPageSEO_settles (s : State) :
  singleAttribute (metas s) ->
  fst (setupMainPageSEO s) = Normal tt /\
  title (snd (setupMainPageSEO s))
  = "Jeffrey Chen - Software Engineer & Creative Problem Solver" /\
  ("person-schema" ∈ headScripts (win (snd (setupMainPageSEO s)))) /\
  ("website-schema" ∈ headScripts (win (snd (setupMainPageSEO s)))) /\
  (forall a n c, In (a, n, c) mainPageTags ->
     tagContent a n (metas (snd (setupMainPageSEO s))) = Some c) /\
  (setupMainPageSEO;; setupMainPageSEO) s = setupMainPageSEO s.
Proof.
  intros Hwf. js_run. rewrite !setupMainPageSEO_run. cbn [fst snd title win metas].
  pose proof (updatedAll_settled mainPageTags (metas s) Hwf mainPageTags_distinct) as Hall.
  split; [reflexivity|]. split; [reflexivity|].
  unfold injectStructuredData, modify. cbn [snd headScripts set_headScripts].
  split.
  { rewrite elem_of_union, elem_of_difference, elem_of_union, !elem_of_singleton.
    right. split; [now left | discriminate]. }
  split; [apply elem_of_union_l, elem_of_singleton; reflexivity|].
  split; [exact Hall|].
  rewrite (updatedAll_fixed mainPageTags _ Hall).
  rewrite set_headScripts_twice. cbn [headScripts set_headScripts].
  rewrite !set_headScripts_twice. now rewrite inject_twice.
Qed.

Lemma setupMainPageSEO_settles_witness :
  tagContent ByProperty "og:title" (metas (snd (setupMainPageSEO sampleHead)))
  = Some "Jeffrey Chen - Software Engineer & Creative Problem Solver" /\
  tagContent ByName "author" (metas (snd (setupMainPageSEO sampleHead)))
  = Some "Jeffrey Chen".
Proof.
  assert (Hwf : singleAttribute (metas sampleHead)).
  { repeat (constructor; [cbn; auto|]). constructor. }
  destruct (setupMainPageSEO_settles sampleHead Hwf) as (_ & _ & _ & _ & Hall & _).
  split; apply Hall; cbn; tauto.
Defined.

Lemma cleaned (p w r : string) (h : gset string) :
  (({[ w ]} ∪ ({[ p ]} ∪ h ∖ {[ p ]}) ∖ {[ w ]}) ∖ {[ p ]}) ∖ {[ w ]} ∖ {[ r ]}
  = h ∖ {[ p ]} ∖ {[ w ]} ∖ {[ r ]}.
Proof.
  apply set_eq. intros x. set_unfold. tauto.
Qed.

(** X21.  [cleanupSEO] undoes the scripts of the setup and nothing else.
    After [setupMainPageSEO] followed by [cleanupSEO] the head scripts are
    the ones from before without the person, website and projects ids, while
    the title and all the [meta] elements stay as the setup left them. *)
Theorem cleanupSEO_after_setup (s : State) :
  fst ((setupMainPageSEO;; cleanupSEO) s) = Normal tt /\
  headScripts (win (snd ((setupMainPageSEO;; cleanupSEO) s)))
  = headScripts (win s) ∖ {[ "person-schema" ]} ∖ {[ "website-schema" ]}
      ∖ {[ "projects-schema" ]} /\
  metas (snd ((setupMainPageSEO;; cleanupSEO) s)) = metas (snd (setupMainPageSEO s)) /\
  title (snd ((setupMainPageSEO;; cleanupSEO) s)) = title (snd (setupMainPageSEO s)).
Proof.
  js_run. rewrite !setupMainPageSEO_run.
  unfold cleanupSEO, injectStructuredData, removeStructuredData. js_run.
  cbn [fst snd win metas title window State_hosted with_window headScripts set_headScripts].
  split; [reflexivity|]. split; [apply cleaned|]. split; reflexivity.
Qed.

End MainPageSEOClaims.

Section AppHeadFacts.

Import Seo.

Lemma querySelector_cons (a : MetaAttr) (n : string) (m : Meta) (l : list Meta) :
  querySelector a n (m :: l) = if selects a n m then Some 0%nat else S <$> querySelector a n l.
Proof.
  unfold querySelector. cbn [querySelector_from].
  destruct (selects a n m); [reflexivity | apply querySelector_from_S].
Qed.

Lemma querySelector_None (a : MetaAttr) (n : string) (ms : list Meta) :
  querySelector a n ms = None <-> tagContent a n ms = None.
Proof.
  induction ms as [|m ms IH]; [tauto|].
  rewrite querySelector_cons, tagContent_cons.
  destruct (selects a n m); [split; discriminate|].
  rewrite <- IH. destruct (querySelector a n ms); cbn; split; congruence.
Qed.

Lemma tagContent_app (a : MetaAttr) (n : string) (l1 l2 : list Meta) :
  tagContent a n (l1 ++ l2)
  = match tagContent a n l1 with Some x => Some x | None => tagContent a n l2 end.
Proof.
  induction l1 as [|m l1 IH]; [reflexivity|].
  cbn [app]. rewrite !tagContent_cons. now destruct (selects a n m).
Qed.

Lemma addMetaTag_run (tag : string * string) (s : State) :
  AppHead.addMetaTag tag s = (Normal tt, set_metas (added tag (metas s)) s).
Proof.
  destruct s as [b t ms]. unfold AppHead.addMetaTag, added. js_run.
  cbn [metas set_metas win title].
  destruct (querySelector ByName (fst tag) ms) as [i|] eqn:Hq.
  - destruct (tagContent ByName (fst tag) ms) eqn:Ht; [reflexivity|].
    apply querySelector_None in Ht. congruence.
  - apply querySelector_None in Hq. now rewrite Hq.
Qed.

Lemma forEach_addMetaTag (tags : list (string * string)) (s : State) :
  forEach tags AppHead.addMetaTag s = (Normal tt, set_metas (addedAll tags (metas s)) s).
Proof.
  revert s. induction tags as [|tag tags IH]; intros s; [now destruct s|].
  cbn [forEach addedAll]. unfold bind. rewrite addMetaTag_run, IH. now destruct s.
Qed.

Lemma tagContent_added (n : string) (tag : string * string) (ms : list Meta) :
  tagContent ByName n (added tag ms)
  = match tagContent ByName n ms with
    | Some x => Some x
    | None => if String.eqb (fst tag) n then Some (snd tag) else None
    end.
Proof.
  unfold added. destruct (tagContent ByName (fst tag) ms) as [x|] eqn:Htag.
  - destruct (tagContent ByName n ms) eqn:Hn; [reflexivity|].
    destruct (String.eqb (fst tag) n) eqn:He; [|reflexivity].
    apply String.eqb_eq in He. congruence.
  - rewrite tagContent_app, tagContent_cons. cbn [selects name content].
    now destruct (tagContent ByName n ms).
Qed.

Lemma tagContent_addedAll (n : string) (tags : list (string * string)) (ms : list Meta) :
  tagContent ByName n (addedAll tags ms)
  = match tagContent ByName n ms with
    | Some x => Some x
    | None => defaultContent tags n
    end.
Proof.
  revert ms. induction tags as [|tag tags IH]; intros ms.
  - cbn. now destruct (tagContent ByName n ms).
  - cbn [addedAll]. rewrite IH, tagContent_added. unfold defaultContent. cbn [List.find].
    destruct (tagContent ByName n ms); [reflexivity|].
    now destruct (String.eqb (fst tag) n).
Qed.

Lemma addedAll_prefix (tags : list (string * string)) (ms : list Meta) :
  exists extra,
    addedAll tags ms = (ms ++ extra)%list /\
    (length extra <= length tags)%nat /\
    Forall (fun m => exists tag, In tag tags /\ m = mkMeta (Some (fst tag)) None (snd tag))
      extra.
Proof.
  revert ms. induction tags as [|tag tags IH]; intros ms.
  - exists []. cbn. rewrite app_nil_r. auto.
  - cbn [addedAll]. destruct (IH (added tag ms)) as (extra & -> & Hlen & Hall).
    assert (Hall' : Forall (fun m => exists tag0, In tag0 (tag :: tags) /\
                                     m = mkMeta (Some (fst tag0)) None (snd tag0)) extra).
    { eapply Forall_impl; [exact Hall|]. intros m (tag0 & Hin & ->).
      exists tag0. split; [now right | reflexivity]. }
    unfold added. destruct (tagContent ByName (fst tag) ms).
    + exists extra. split; [reflexivity|]. split; [cbn; lia | exact Hall'].
    + exists (mkMeta (Some (fst tag)) None (snd tag) :: extra).
      rewrite <- app_assoc. split; [reflexivity|]. split; [cbn; lia|].
      constructor; [|exact Hall']. exists tag. split; [now left | reflexivity].
Qed.

Lemma addedAll_fixed (tags : list (string * string)) (ms : list Meta) :
  (forall tag, In tag tags -> tagContent ByName (fst tag) ms <> None) ->
  addedAll tags ms = ms.
Proof.
  induction tags as [|tag tags IH]; intros Hall; [reflexivity|].
  cbn [addedAll]. unfold added.
  destruct (tagContent ByName (fst tag) ms) eqn:Ht.
  - apply IH. intros tag' Hin. apply Hall. now right.
  - exfalso. apply (Hall tag); [now left | exact Ht].
Qed.

Lemma metaTags_default (n c : string) :
  In (n, c) AppHead.metaTags -> defaultContent AppHead.metaTags n = Some c.
Proof.
  intros Hin. cbn in Hin.
  repeat (destruct Hin as [[= <- <-] | Hin]; [vm_compute; reflexivity|]).
  contradiction.
Qed.

(** X22.  The mount hook of App adds its meta tags without overwriting.  It
    completes normally and leaves the browser and the title alone; the
    [meta] elements that were there stay first, in order and unchanged, and
    at most five are appended, each one of the hook's tags; every tag of the
    hook then reads the content the page already had for that name, or the
    hook's content where the page had none; and a second run changes
    nothing. *)
Theorem addMetaTags_keeps_existing (s : State) :
  fst (AppHead.addMetaTags s) = Normal tt /\
  win (snd (AppHead.addMetaTags s)) = win s /\
  title (snd (AppHead.addMetaTags s)) = title s /\
  (exists extra,
     metas (snd (AppHead.addMetaTags s)) = (metas s ++ extra)%list /\
     (length extra <= 5)%nat /\
     Forall (fun m => exists tag, In tag AppHead.metaTags /\
                      m = mkMeta (Some (fst tag)) None (snd tag)) extra) /\
  (forall n c, In (n, c) AppHead.metaTags ->
     tagContent ByName n (metas (snd (AppHead.addMetaTags s)))
     = match tagContent ByName n (metas s) with Some old => Some old | None => Some c end) /\
  (AppHead.addMetaTags;; AppHead.addMetaTags) s = AppHead.addMetaTags s.
Proof.
  js_run. unfold AppHead.addMetaTags. rewrite !forEach_addMetaTag. cbn [fst snd].
  destruct s as [b t ms]. cbn [win title metas set_metas].
  assert (Hread : forall n c, In (n, c) AppHead.metaTags ->
            tagContent ByName n (addedAll AppHead.metaTags ms)
            = match tagContent ByName n ms with Some old => Some old | None => Some c end).
  { intros n c Hin. rewrite tagContent_addedAll, (metaTags_default n c Hin). reflexivity. }
  split; [reflexivity|]. split; [reflexivity|]. split; [reflexivity|].
  split; [apply (addedAll_prefix AppHead.metaTags ms)|]. split; [exact Hread|].
  rewrite addedAll_fixed; [reflexivity|].
  intros [n c] Hin. cbn [fst]. rewrite (Hread n c Hin).
  destruct (tagContent ByName n ms); discriminate.
Qed.

Lemma addMetaTags_keeps_existing_witness :
  tagContent ByName "theme-color" (metas (snd (AppHead.addMetaTags sampleHead)))
  = Some "#000000" /\
  tagContent ByName "mobile-web-app-capable" (metas (snd (AppHead.addMetaTags sampleHead)))
  = Some "yes".
Proof.
  destruct (addMetaTags_keeps_existing sampleHead) as (_ & _ & _ & _ & Hread & _).
  split.
  - rewrite (Hread "theme-color" "#75a6bb"); [reflexivity | cbn; tauto].
  - rewrite (Hread "mobile-web-app-capable" "yes"); [reflexivity | cbn; tauto].
Defined.

(** X23.  The viewport tag is rewritten, never created.  When the page has a
    viewport [meta], [refreshViewport] does what [updateMetaTag] would do
    with the hook's content, and the tag then reads that content; when the
    page has none, [refreshViewport] leaves the state as it is, while
    [updateMetaTag] would append one. *)
Theorem refreshViewport_never_creates (s : State) :
  (tagContent ByName "viewport" (metas s) <> None ->
   AppHead.refreshViewport s = updateMetaTag "viewport" AppHead.viewportContent false s /\
   tagContent ByName "viewport" (metas (snd (AppHead.refreshViewport s)))
   = Some AppHead.viewportContent /\
   length (metas (snd (AppHead.refreshViewport s))) = length (metas s)) /\
  (tagContent ByName "viewport" (metas s) = None ->
   AppHead.refreshViewport s = (Normal tt, s) /\
   length (metas (snd (updateMetaTag "viewport" AppHead.viewportContent false s)))
   = S (length (metas s))).
Proof.
  rewrite updateMetaTag_run. destruct s as [b t ms]. cbn [metas snd set_metas win title].
  unfold AppHead.refreshViewport. js_run. cbn [metas set_metas win title].
  pose proof (alter_or_append ByName "viewport" AppHead.viewportContent ms) as Halter.
  pose proof (updated_length ByName "viewport" AppHead.viewportContent ms) as Hlen.
  split.
  - intros Hsome.
    destruct (querySelector ByName "viewport" ms) as [i|] eqn:Hq;
      [|apply querySelector_None in Hq; contradiction].
    cbn [snd metas set_metas]. rewrite Halter. split; [reflexivity|].
    split; [apply tagContent_updated|].
    rewrite Hlen. now destruct (tagContent ByName "viewport" ms).
  - intros Hnone. apply querySelector_None in Hnone as Hq. rewrite Hq.
    split; [reflexivity|]. now rewrite Hlen, Hnone.
Qed.

Lemma refreshViewport_never_creates_witness :
  tagContent ByName "viewport" (metas (snd (AppHead.refreshViewport sampleHead)))
  = Some AppHead.viewportContent /\
  AppHead.refreshViewport (mkState Samples.supported "Portfolio" [])
  = (Normal tt, mkState Samples.supported "Portfolio" []).
Proof.
  split.
  - apply (proj1 (refreshViewport_never_creates sampleHead)). vm_compute. discriminate.
  - apply (proj2 (refreshViewport_never_creates (mkState Samples.supported "Portfolio" []))).
    reflexivity.
Defined.

End AppHeadFacts.

(** ** Structured data of the projects *)

Section ProjectSchemas.

Import Schema.

Lemma listItems_from_length (ps : list ProjectData) (index : Z) :
  length (listItems_from ps index) = length ps.
Proof.
  revert index. induction ps as [|p ps IH]; intros index; [reflexivity|].
  cbn. now rewrite IH.
Qed.

Lemma listItems_from_lookup (ps : list ProjectData) (index : Z) (i : nat) (p : ProjectData) :
  ps !! i = Some p ->
  listItems_from ps index !! i
  = Some (mkListItem "ListItem" (index + Z.of_nat i + 1) (createProjectSchema p)).
Proof.
  revert index i. induction ps as [|p0 ps IH]; intros index i Hi; [discriminate|].
  destruct i as [|i].
  - cbn in *. injection Hi as ->. now rewrite Z.add_0_r.
  - etrans; [exact (IH (index + 1) i Hi)|]. do 2 f_equal. lia.
Qed.

Lemma projects_list_positions_aux (ps : list ProjectData) (i : nat) (p : ProjectData) :
  ps !! i = Some p ->
  exists it,
    itemListElement (createProjectsListSchema ps) !! i = Some it /\
    it = mkListItem "ListItem" (Z.of_nat i + 1) (createProjectSchema p).
Proof.
  intros Hi. eexists. split; [|reflexivity].
  cbn [createProjectsListSchema itemListElement].
  now rewrite (listItems_from_lookup ps 0 i p Hi).
Qed.

(** X24.  The list schema numbers its items from 1 without gaps.  For any
    list of projects, [numberOfItems] is the number of projects and of list
    items, and the item at index [i] has position [i + 1] and is the schema
    of the project at index [i]. *)
Theorem projects_list_positions (ps : list ProjectData) :
  numberOfItems (createProjectsListSchema ps) = Z.of_nat (length ps) /\
  length (itemListElement (createProjectsListSchema ps)) = length ps /\
  (forall i p, ps !! i = Some p ->
     itemListElement (createProjectsListSchema ps) !! i
     = Some (mkListItem "ListItem" (Z.of_nat i + 1) (createProjectSchema p))).
Proof.
  split; [reflexivity|]. split; [apply listItems_from_length|].
  intros i p Hi. cbn [createProjectsListSchema itemListElement].
  now rewrite (listItems_from_lookup ps 0 i p Hi).
Qed.

Lemma projects_list_positions_witness :
  itemListElement
    (createProjectsListSchema
       [ mkProjectData "A" "first" None None ["Vue"] (Some "2025-07-07") None;
         mkProjectData "B" "second" None None [] None None ]) !! 1%nat
  = Some (mkListItem "ListItem" 2
            (createProjectSchema (mkProjectData "B" "second" None None [] None None))).
Proof.
  exact (proj2 (proj2 (projects_list_positions
           [ mkProjectData "A" "first" None None ["Vue"] (Some "2025-07-07") None;
             mkProjectData "B" "second" None None [] None None ]))
           1%nat (mkProjectData "B" "second" None None [] None None) eq_refl).
Defined.

(** X25.  What ProjectsSection publishes for a project.  The mount hook
    passes no modification date, so in the list it builds the item at index
    [i] carries the title, description, live URL and repository of the
    project at index [i], a modification date equal to the creation date
    (both missing when the project has none), the technologies as
    programming languages, and as keywords the technologies followed by
    "Software Development" and "Web Development". *)
Theorem projects_section_item (projects : list Project) (i : nat) (p : Project) :
  projects !! i = Some p ->
  exists it,
    itemListElement (createProjectsListSchema (projectsData projects)) !! i = Some it /\
    position it = Z.of_nat i + 1 /\
    schema_name (item it) = title p /\
    schema_description (item it) = description p /\
    schema_url (item it) = liveUrl p /\
    codeRepository (item it) = githubUrl p /\
    schema_dateCreated (item it) = dateCreated p /\
    schema_dateModified (item it) = dateCreated p /\
    programmingLanguage (item it) = technologies p /\
    keywords (item it)
    = (technologies p ++ ["Software Development"; "Web Development"])%list.
Proof.
  intros Hi.
  assert (Hdata : projectsData projects !! i = Some (projectData p)).
  { unfold projectsData. clear -Hi. revert i Hi.
    induction projects as [|q projects IH]; intros i Hi; [discriminate|].
    destruct i as [|i]; [cbn in *; congruence | exact (IH i Hi)]. }
  destruct (projects_list_positions_aux (projectsData projects) i (projectData p) Hdata)
    as [it [Hit Heq]].
  exists it. split; [exact Hit|]. subst it. cbn. repeat split; reflexivity.
Qed.

End ProjectSchemas.

Lemma projects_section_item_witness :
  exists it,
    Schema.itemListElement
      (Schema.createProjectsListSchema
         (Schema.projectsData
            [ Schema.mkProject "personal-website" "Personal Website" "You are here" None
                ["Vue 3"; "Vite"] (Some "https://jeffreychen.work") None None (Some true)
                (Some "2025-07-07") ])) !! 0%nat = Some it /\
    Schema.schema_dateModified (Schema.item it) = Some "2025-07-07".
Proof.
  destruct (projects_section_item
              [ Schema.mkProject "personal-website" "Personal Website" "You are here" None
                  ["Vue 3"; "Vite"] (Some "https://jeffreychen.work") None None (Some true)
                  (Some "2025-07-07") ]
              0%nat
              (Schema.mkProject "personal-website" "Personal Website" "You are here" None
                 ["Vue 3"; "Vite"] (Some "https://jeffreychen.work") None None (Some true)
                 (Some "2025-07-07"))
              eq_refl)
    as (it & Hit & _ & _ & _ & _ & _ & _ & Hmod & _).
  exists it. exact (conj Hit Hmod).
Defined.

(** ** Error callbacks and retried fetches *)

Section ErrorCallbacks.

Import ErrorHandling.

Context {St : Type}.

Lemma forEach_tryCatch (callbacks : list (M St unit)) (l : Logged St) :
  forEach callbacks (fun callback =>
    tryCatch (onApp callback) (fun callbackError => console_error)) l
  = (Normal tt,
     mkLogged (consoleErrors l + throwing callbacks (app l))%nat
              (afterAll callbacks (app l))).
Proof.
  revert l. induction callbacks as [|callback callbacks IH]; intros [k s].
  - cbn. unfold ret. now rewrite Nat.add_0_r.
  - cbn [forEach throwing afterAll app consoleErrors]. unfold bind.
    unfold tryCatch at 1, onApp at 1. cbn [app consoleErrors].
    destruct (callback s) as [[[]|e] s1]; cbn [fst snd throws].
    + rewrite IH. cbn [app consoleErrors]. reflexivity.
    + unfold console_error, modify. rewrite IH. cbn [app consoleErrors].
      do 2 f_equal. lia.
Qed.

Lemma throwing_bound (callbacks : list (M St unit)) (s : St) :
  (throwing callbacks s <= length callbacks)%nat.
Proof.
  revert s. induction callbacks as [|callback callbacks IH]; intros s; [cbn; lia|].
  cbn [throwing length]. specialize (IH (snd (callback s))).
  destruct (throws (fst (callback s))); lia.
Qed.

(** X26.  [handleError] isolates the callbacks.  It never throws, even when
    callbacks do; every registered callback runs, in order, from the state
    its predecessor left, whether that one returned or threw; and the console
    receives one error for the report plus one for each callback that threw,
    so at most one more than there are callbacks. *)
Theorem handleError_isolates (callbacks : list (M St unit)) (l : Logged St) :
  fst (handleError callbacks l) = Normal tt /\
  app (snd (handleError callbacks l)) = afterAll callbacks (app l) /\
  consoleErrors (snd (handleError callbacks l))
  = (consoleErrors l + 1 + throwing callbacks (app l))%nat /\
  (consoleErrors (snd (handleError callbacks l))
   <= consoleErrors l + 1 + length callbacks)%nat.
Proof.
  destruct l as [k s].
  assert (Hrun : handleError callbacks (mkLogged k s)
                 = (Normal tt,
                    mkLogged (k + 1 + throwing callbacks s)%nat (afterAll callbacks s))).
  { unfold handleError. js_run.
    change (console_error (mkLogged k s)) with (Normal tt, mkLogged (Datatypes.S k) s).
    cbn iota. rewrite forEach_tryCatch. cbn [app consoleErrors]. do 2 f_equal. lia. }
  rewrite Hrun. cbn [fst snd app consoleErrors].
  pose proof (throwing_bound callbacks s).
  split; [reflexivity|]. split; [reflexivity|]. split; [reflexivity | lia].
Qed.

End ErrorCallbacks.

Section RetriedFetch.

Import ErrorHandling.

Lemma repeat_snoc (x : Z) (k : nat) (l : list Z) :
  (repeat x k ++ x :: l = repeat x (S k) ++ l)%list.
Proof. induction k as [|k IH]; cbn; [reflexivity|]. now rewrite IH. Qed.

Lemma failing_thrown (o : FetchOutcome) : failing o -> exists e, thrown o = Some e.
Proof. unfold failing. destruct (thrown o) as [e|]; [eauto | congruence]. Qed.

Lemma fetch_step_failing (fuel : nat) (attempts : Z) (n : Net) (o : FetchOutcome)
  (rest : list FetchOutcome) :
  upcoming n = o :: rest -> failing o -> 1 < attempts ->
  fetchWithRetry_fuel (S fuel) attempts n
  = fetchWithRetry_fuel fuel (attempts - 1)
      (mkNet rest (S (fetches n)) (retryDelay :: delays n)).
Proof.
  intros Hup Hfail Hatt. cbn [fetchWithRetry_fuel]. unfold fetch. rewrite Hup.
  cbn iota beta.
  destruct (failing_thrown o Hfail) as [e He].
  destruct o; rewrite He, (proj2 (Z.gtb_lt attempts 1)) by lia; reflexivity.
Qed.

Lemma fetch_step_success (fuel : nat) (attempts : Z) (n : Net) (status : Z)
  (rest : list FetchOutcome) :
  upcoming n = Responded status :: rest -> ok status = true ->
  fetchWithRetry_fuel fuel attempts n
  = Some (Resolved status, mkNet rest (S (fetches n)) (delays n)).
Proof.
  intros Hup Hok.
  destruct fuel; cbn [fetchWithRetry_fuel]; unfold fetch; rewrite Hup; cbn iota beta;
    unfold thrown; rewrite Hok; reflexivity.
Qed.

Lemma fetch_success_fuel (pre : list FetchOutcome) :
  forall (fuel : nat) (attempts : Z) (n : Net) (status : Z) (post : list FetchOutcome),
    upcoming n = (pre ++ Responded status :: post)%list ->
    ok status = true ->
    Forall failing pre ->
    Z.of_nat (length pre) < Z.max 1 attempts ->
    (length pre <= fuel)%nat ->
    fetchWithRetry_fuel fuel attempts n
    = Some (Resolved status,
            mkNet post (fetches n + length pre + 1)
              (repeat retryDelay (length pre) ++ delays n)).
Proof.
  induction pre as [|o pre IH]; intros fuel attempts n status post Hup Hok Hpre Hlen Hfuel.
  - cbn [app] in Hup. rewrite (fetch_step_success fuel attempts n status post Hup Hok).
    cbn [length repeat app]. do 3 f_equal. lia.
  - inversion Hpre as [|? ? Ho Hrest]; subst. cbn [length] in Hlen, Hfuel.
    destruct fuel as [|fuel]; [lia|].
    rewrite (fetch_step_failing fuel attempts n o (pre ++ Responded status :: post))
      by (try assumption; lia).
    rewrite (IH fuel (attempts - 1) _ status post) by (cbn; try assumption; try reflexivity; lia).
    cbn [fetches delays length]. rewrite repeat_snoc. do 3 f_equal. lia.
Qed.

(** X27.  A retried fetch stops at the first good response.  When the
    outcomes to come start with failures (rejections or statuses outside
    200..299) followed by a response with a good status, and there are fewer
    failures than attempts (one attempt is always made), [fetchWithRetry]
    returns that response after one fetch per failure plus one, having waited
    1000 ms after each failure and consumed no further outcome. *)
Theorem fetchWithRetry_first_success
  (attempts : Z) (n : Net) (pre post : list FetchOutcome) (status : Z) :
  upcoming n = (pre ++ Responded status :: post)%list ->
  ok status = true ->
  Forall failing pre ->
  Z.of_nat (length pre) < Z.max 1 attempts ->
  fetchWithRetry attempts n
  = Some (Resolved status,
          mkNet post (fetches n + length pre + 1)
            (repeat 1000 (length pre) ++ delays n)).
Proof.
  intros Hup Hok Hpre Hlen. unfold fetchWithRetry.
  apply fetch_success_fuel; try assumption. lia.
Qed.

Lemma fetchWithRetry_first_success_witness :
  fetchWithRetry 3 (mkNet [Failed; Responded 503; Responded 200; Responded 404] 0 [])
  = Some (Resolved 200, mkNet [Responded 404] 3 [1000; 1000]).
Proof.
  exact (fetchWithRetry_first_success 3
           (mkNet [Failed; Responded 503; Responded 200; Responded 404] 0 [])
           [Failed; Responded 503] [Responded 404] 200 eq_refl eq_refl
           ltac:(repeat constructor; discriminate) ltac:(cbn; lia)).
Defined.

Lemma fetch_step_last (fuel : nat) (attempts : Z) (n : Net) (o : FetchOutcome)
  (rest : list FetchOutcome) (e : FetchError) :
  fst (fetch n) = o -> upcoming (snd (fetch n)) = rest ->
  thrown o = Some e -> (attempts >? 1) = false ->
  fetchWithRetry_fuel fuel attempts n
  = Some (Rejected e, mkNet rest (S (fetches n)) (delays n)).
Proof.
  intros Ho Hrest He Hatt. unfold fetch in Ho, Hrest.
  destruct (upcoming n) as [|o' rest'] eqn:Hup; cbn [fst snd upcoming] in Ho, Hrest;
    subst o rest.
  - destruct fuel; cbn [fetchWithRetry_fuel]; unfold fetch; rewrite Hup; cbn iota beta;
      rewrite He, Hatt; reflexivity.
  - destruct fuel; cbn [fetchWithRetry_fuel]; unfold fetch; rewrite Hup; cbn iota beta;
      destruct o'; rewrite He, Hatt; reflexivity.
Qed.

Lemma fetch_exhausted_fuel (m : nat) :
  forall (fuel : nat) (attempts : Z) (n : Net),
    m = Z.to_nat (attempts - 1) ->
    (m <= fuel)%nat ->
    Forall failing (take (S m) (upcoming n)) ->
    exists e,
      fetchWithRetry_fuel fuel attempts n
      = Some (Rejected e,
              mkNet (drop (S m) (upcoming n)) (fetches n + S m)
                (repeat retryDelay m ++ delays n)).
Proof.
  induction m as [|m IH]; intros fuel attempts n Hm Hfuel Hall.
  - assert (Hatt : (attempts >? 1) = false) by (rewrite Z.gtb_ltb; apply Z.ltb_ge; lia).
    destruct n as [[|o rest] f d]; cbn [upcoming take drop] in *.
    + exists NetworkError.
      rewrite (fetch_step_last fuel attempts (mkNet [] f d) Failed [] NetworkError)
        by (try reflexivity; assumption).
      cbn [fetches delays repeat app]. do 3 f_equal. lia.
    + inversion Hall as [|? ? Ho _]; subst.
      destruct (failing_thrown o Ho) as [e He]. exists e.
      rewrite (fetch_step_last fuel attempts (mkNet (o :: rest) f d) o rest e)
        by (try reflexivity; assumption).
      cbn [fetches delays repeat app]. do 3 f_equal. lia.
  - destruct fuel as [|fuel]; [lia|].
    destruct n as [[|o rest] f d]; cbn [upcoming take drop] in *.
    + destruct (IH fuel (attempts - 1) (mkNet [] (S f) (retryDelay :: d)))
        as [e He]; [lia | lia | cbn; constructor |].
      exists e. cbn [fetchWithRetry_fuel]. unfold fetch. cbn [upcoming thrown].
      rewrite (proj2 (Z.gtb_lt attempts 1)) by lia.
      unfold delay. cbn [upcoming fetches delays]. rewrite He.
      cbn [upcoming fetches delays drop]. rewrite repeat_snoc. do 3 f_equal. lia.
    + inversion Hall as [|? ? Ho Hrest]; subst.
      destruct (IH fuel (attempts - 1) (mkNet rest (S f) (retryDelay :: d)))
        as [e He]; [lia | lia | exact Hrest |].
      exists e.
      rewrite (fetch_step_failing fuel attempts (mkNet (o :: rest) f d) o rest)
        by (try reflexivity; try assumption; lia).
      cbn [fetches delays]. rewrite He. cbn [upcoming fetches delays].
      rewrite repeat_snoc. do 3 f_equal. lia.
Qed.

(** X28.  A retried fetch gives up after its attempts.  When the first
    [max 1 attempts] outcomes to come all fail (a network with nothing left
    to answer fails too), [fetchWithRetry] rejects after exactly
    [max 1 attempts] fetches and one wait of 1000 ms between two fetches; with
    [attempts] at most 1 one fetch is still made. *)
Theorem fetchWithRetry_gives_up (attempts : Z) (n : Net) :
  Forall failing (take (Z.to_nat (Z.max 1 attempts)) (upcoming n)) ->
  exists e,
    fetchWithRetry attempts n
    = Some (Rejected e,
            mkNet (drop (Z.to_nat (Z.max 1 attempts)) (upcoming n))
              (fetches n + Z.to_nat (Z.max 1 attempts))
              (repeat 1000 (Z.to_nat (Z.max 1 attempts) - 1) ++ delays n)).
Proof.
  intros Hall. unfold fetchWithRetry.
  replace (Z.to_nat (Z.max 1 attempts)) with (S (Z.to_nat (attempts - 1))) in * by lia.
  replace (S (Z.to_nat (attempts - 1)) - 1)%nat with (Z.to_nat (attempts - 1)) by lia.
  apply fetch_exhausted_fuel; [reflexivity | lia | exact Hall].
Qed.

Lemma fetchWithRetry_gives_up_witness :
  exists e,
    fetchWithRetry 3 (mkNet [Responded 500; Failed] 0 [])
    = Some (Rejected e, mkNet [] 3 [1000; 1000]).
Proof.
  destruct (fetchWithRetry_gives_up 3 (mkNet [Responded 500; Failed] 0 [])
              ltac:(repeat constructor; discriminate)) as [e He].
  exists e. exact He.
Defined.

End RetriedFetch.
